(** * SilentSlides: the text-analysis pipeline of [src/text_processor.py]

    A shallow embedding of [TextProcessor] (cleaning, sentence splitting,
    clustering policy, title and bullet synthesis, orchestration) together
    with the configuration constants of [config.py], and the properties the
    specification states about them.

    Further down, the OCR engine of [src/ocr_engine.py], the slide generators
    of [src/slide_generator.py] and the Tesseract detection of [config.py]
    are embedded in the same way, each with the libraries it calls as
    collaborators, together with properties of a whole run from the
    screenshots to the decks.

    Python strings are sequences of Unicode code points; they are modelled
    as lists of code points ([N]).  The character classes [\s] and [\w] of
    the [re] module and the whitespace of [str.split]/[str.strip] are the
    ones CPython uses for [str] patterns. *)

From Stdlib Require Import String Ascii.
From Stdlib Require Import List ZArith NArith Bool Lia Permutation Sorted.
Import ListNotations.

Set Implicit Arguments.

(* ===================================================================== *)
(** * Python values used by the module *)
(* ===================================================================== *)

Module Py.

(** A code point, and a [str]. *)
Definition char := N.
Definition str := list char.

(** A literal of the source, read code point by code point. *)
Definition lit (s : string) : str := map N_of_ascii (list_ascii_of_string s).

Definition str_eqb (a b : str) : bool :=
  if list_eq_dec N.eq_dec a b then true else false.

(** Exceptions the modelled code can raise. *)
Inductive exn := IndexError | ValueError.

Inductive result (A : Type) :=
| Ok (a : A)
| Raise (e : exn).
Arguments Ok {A} a.
Arguments Raise {A} e.

Definition bind {A B} (m : result A) (k : A -> result B) : result B :=
  match m with
  | Ok a => k a
  | Raise e => Raise e
  end.

(** [xs[i]] for a non-negative index. *)
Definition getitem {A} (xs : list A) (i : nat) : result A :=
  match nth_error xs i with
  | Some x => Ok x
  | None => Raise IndexError
  end.

(** [[f(x) for x in xs]] where [f] may raise: the first exception wins. *)
Fixpoint traverse {A B} (f : A -> result B) (xs : list A) : result (list B) :=
  match xs with
  | [] => Ok []
  | x :: rest =>
      bind (f x) (fun y => bind (traverse f rest) (fun ys => Ok (y :: ys)))
  end.

(** [xs[start:]] with Python's treatment of a negative or overlong
    [start]. *)
Definition slice_from {A} (start : Z) (xs : list A) : list A :=
  let n := Z.of_nat (length xs) in
  let s := if (start <? 0)%Z then Z.max 0 (n + start) else Z.min start n in
  skipn (Z.to_nat s) xs.

(** [xs[:stop]]. *)
Definition slice_to {A} (stop : Z) (xs : list A) : list A :=
  let n := Z.of_nat (length xs) in
  let s := if (stop <? 0)%Z then Z.max 0 (n + stop) else Z.min stop n in
  firstn (Z.to_nat s) xs.

(** ** Character classes *)

(** [str.isspace] on one code point (CPython's [_PyUnicode_IsWhitespace]);
    it is also what [\s] matches in a [str] pattern. *)
Definition isspace (c : char) : bool :=
  ((9 <=? c) && (c <=? 13) || (28 <=? c) && (c <=? 32)
   || (c =? 133) || (c =? 160) || (c =? 5760)
   || (8192 <=? c) && (c <=? 8202)
   || (c =? 8232) || (c =? 8233) || (c =? 8239) || (c =? 8287)
   || (c =? 12288))%N.

Definition ascii_alnum (c : char) : bool :=
  ((48 <=? c) && (c <=? 57) || (65 <=? c) && (c <=? 90)
   || (97 <=? c) && (c <=? 122))%N.

(** [\w] in a [str] pattern: alphanumeric or underscore.  On ASCII the
    class is [[A-Za-z0-9_]]; beyond ASCII it is read from the Unicode
    character database, here the table [uni_alnum]. *)
Definition isword (uni_alnum : char -> bool) (c : char) : bool :=
  if (c <? 128)%N then ascii_alnum c || (c =? 95)%N else uni_alnum c.

(** ** [str] methods *)

Fixpoint lstrip_by (p : char -> bool) (s : str) : str :=
  match s with
  | [] => []
  | c :: rest => if p c then lstrip_by p rest else s
  end.

Fixpoint rstrip_by (p : char -> bool) (s : str) : str :=
  match s with
  | [] => []
  | c :: rest =>
      match rstrip_by p rest with
      | [] => if p c then [] else [c]
      | r => c :: r
      end
  end.

(** [s.strip()] *)
Definition strip (s : str) : str := rstrip_by isspace (lstrip_by isspace s).

(** [s.rstrip(chars)] *)
Definition rstrip (chars : str) (s : str) : str :=
  rstrip_by (fun c => existsb (N.eqb c) chars) s.

(** [s.split()]: the maximal runs of non-whitespace, in order. *)
Fixpoint split (s : str) : list str :=
  match s with
  | [] => []
  | c :: rest =>
      if isspace c then split rest
      else
        match rest with
        | [] => [[c]]
        | c' :: _ =>
            if isspace c' then [c] :: split rest
            else
              match split rest with
              | w :: ws => (c :: w) :: ws
              | [] => [[c]]
              end
        end
  end.

(** [sep.join(words)] *)
Fixpoint join (sep : str) (words : list str) : str :=
  match words with
  | [] => []
  | [w] => w
  | w :: rest => w ++ sep ++ join sep rest
  end.

End Py.

(* ===================================================================== *)
(** * The two regular-expression calls of the module *)
(* ===================================================================== *)

Module Re.
Import Py.

(** [re.sub(r'\s+', ' ', text)]: every maximal run of whitespace becomes
    one space.  [in_run] tells that the previous code point was
    whitespace. *)
Fixpoint sub_space_runs (in_run : bool) (text : str) : str :=
  match text with
  | [] => []
  | c :: rest =>
      if isspace c then
        if in_run then sub_space_runs true rest
        else 32%N :: sub_space_runs true rest
      else c :: sub_space_runs false rest
  end.

(** The set [.,!?-] of the second pattern, and the delimiters [.!?] of
    the split pattern. *)
Definition kept_punct (c : char) : bool :=
  ((c =? 46) || (c =? 44) || (c =? 33) || (c =? 63) || (c =? 45))%N.

Definition sentence_end (c : char) : bool :=
  ((c =? 46) || (c =? 33) || (c =? 63))%N.

(** The class [[\w\s.,!?-]]. *)
Definition kept (uni_alnum : char -> bool) (c : char) : bool :=
  isword uni_alnum c || isspace c || kept_punct c.

(** [re.sub(r'[^\w\s.,!?-]', '', text)] *)
Definition sub_not_kept (uni_alnum : char -> bool) (text : str) : str :=
  filter (kept uni_alnum) text.

(** [re.split(r'[.!?]+', text)]: the pieces between maximal runs of
    delimiters, empty pieces at either end included.  [in_run] tells
    that the previous code point was a delimiter. *)
Fixpoint split_sentence_ends (in_run : bool) (text : str) : list str :=
  match text with
  | [] => [[]]
  | c :: rest =>
      if sentence_end c then
        if in_run then split_sentence_ends true rest
        else [] :: split_sentence_ends true rest
      else
        match split_sentence_ends false rest with
        | piece :: pieces => (c :: piece) :: pieces
        | [] => [[c]]
        end
  end.

End Re.

(* ===================================================================== *)
(** * config.py *)
(* ===================================================================== *)

Module Config.
Definition MIN_CLUSTER_SIZE : Z := 2.
Definition CLUSTERING_METHOD : string := "hdbscan".
Definition MAX_TOPICS : Z := 10.
Definition MAX_BULLETS_PER_SLIDE : Z := 5.
End Config.

(* ===================================================================== *)
(** * The collaborators of the module

    What [text_processor.py] imports and does not define: the Unicode
    table behind [\w], the sentence encoder, the two clusterers, and the
    numeric kernels of numpy and scikit-learn.  The embedding matrix is a
    list of rows; a similarity score is a float, of which only the order
    that numpy's sorting uses is modelled. *)
(* ===================================================================== *)

(** A clusterer as the source constructs it. *)
Inductive clusterer :=
| HDBSCAN (min_cluster_size : Z) (metric : string)
| KMeans (n_clusters : Z) (random_state : Z) (n_init : Z).

Class Collaborators := {
  (** Unicode alphanumerics beyond ASCII *)
  uni_alnum : Py.char -> bool;
  (** one row of the embedding matrix; a similarity score *)
  row : Type;
  score : Type;
  (** [score_ltb a b]: numpy orders [a] strictly before [b] *)
  score_ltb : score -> score -> bool;
  (** [self.model.encode(sentences, show_progress_bar=False)] *)
  encode : list Py.str -> list row;
  (** whether [import hdbscan] succeeded *)
  HDBSCAN_AVAILABLE : bool;
  (** [clusterer.fit_predict(embeddings)] *)
  fit_predict : clusterer -> list row -> list Z;
  (** [cosine_similarity(embeddings, embeddings.mean(axis=0).reshape(1, -1))
      .flatten()] *)
  centroid_similarity : list row -> Py.result (list score);
  (** [scores.argsort()] *)
  argsort : list score -> list nat
}.

(* ===================================================================== *)
(** * class TextProcessor *)
(* ===================================================================== *)

Module TextProcessor.
Import Py.

Section Methods.
Context {C : Collaborators}.

(** ** [clean_text] *)
Definition clean_text (text : str) : str :=
  let text := Re.sub_space_runs false text in
  let text := Re.sub_not_kept uni_alnum text in
  strip text.

(** ** [split_sentences] *)
Definition nonempty (s : str) : bool :=
  match s with [] => false | _ => true end.

Definition split_sentences (text : str) : list str :=
  let sentences := Re.split_sentence_ends false text in
  let sentences :=
    map strip (filter (fun s => nonempty (strip s)) sentences) in
  filter (fun s => 3 <=? length (split s)) sentences.

(** ** [generate_embeddings] *)
Definition generate_embeddings (sentences : list str) : list row :=
  match sentences with
  | [] => []
  | _ => encode sentences
  end.

(** ** [cluster_sentences] *)

(** The returned [Dict[int, List[str]]].  A Python dict keeps its keys
    in insertion order, and [process_text] iterates over it, so the
    order is part of the value. *)
Definition dict := list (Z * list str).

Definition contains (label : Z) (clusters : dict) : bool :=
  existsb (fun kv => (fst kv =? label)%Z) clusters.

(** [clusters[label].append(s)] for a key that is present: the entry is
    updated where it stands. *)
Fixpoint append_at (label : Z) (s : str) (clusters : dict) : dict :=
  match clusters with
  | [] => []
  | (k, v) :: rest =>
      if (k =? label)%Z then (k, v ++ [s]) :: rest
      else (k, v) :: append_at label s rest
  end.

(** [max(labels)] *)
Definition max_of (labels : list Z) : result Z :=
  match labels with
  | [] => Raise ValueError
  | l :: rest => Ok (fold_left Z.max rest l)
  end.

(** The loop [for idx, label in enumerate(labels)]; [all_labels] is the
    whole array (read by [max]), [labels] what is left of it from
    position [idx] on. *)
Fixpoint group_loop (all_labels : list Z) (sentences : list str)
         (idx : nat) (labels : list Z) (clusters : dict) : result dict :=
  match labels with
  | [] => Ok clusters
  | label :: rest =>
      bind (if (label =? -1)%Z
            then bind (max_of all_labels) (fun m => Ok (m + 1)%Z)
            else Ok label) (fun label =>
      let clusters :=
        if contains label clusters then clusters
        else clusters ++ [(label, [])] in
      bind (getitem sentences idx) (fun s =>
      group_loop all_labels sentences (S idx) rest
                 (append_at label s clusters)))
  end.

(** The method returns its dict; the first component records the
    clusterers it constructed and fitted on the way. *)
Definition cluster_sentences (sentences : list str) (embeddings : list row)
           (n_clusters : option Z) : list clusterer * result dict :=
  if length sentences <? 2 then ([], Ok [(0%Z, sentences)])
  else
    let n := Z.of_nat (length sentences) in
    let n_clusters :=
      match n_clusters with
      | None => Z.min Config.MAX_TOPICS (Z.max 2 (n / 5))
      | Some k => k
      end in
    let clusterer :=
      if (Config.CLUSTERING_METHOD =? "hdbscan")%string && HDBSCAN_AVAILABLE
      then HDBSCAN Config.MIN_CLUSTER_SIZE "euclidean"
      else KMeans (Z.min n_clusters n) 42 10 in
    let labels := fit_predict clusterer embeddings in
    ([clusterer], group_loop labels sentences 0 labels []).

(** ** [_shorten_sentence] *)
Definition _shorten_sentence (sentence : str) (max_words : Z) : str :=
  let words := split sentence in
  if (Z.of_nat (length words) <=? max_words)%Z
  then rstrip (lit ".,!?") sentence
  else join (lit " ") (slice_to max_words words) ++ lit "...".

(** ** [generate_topic_title] *)

(** [similarities.argmax()]: the first position of a greatest score. *)
Fixpoint argmax_from (best_idx : nat) (best : score) (idx : nat)
         (scores : list score) : nat :=
  match scores with
  | [] => best_idx
  | x :: rest =>
      if score_ltb best x then argmax_from idx x (S idx) rest
      else argmax_from best_idx best (S idx) rest
  end.

Definition argmax (scores : list score) : result nat :=
  match scores with
  | [] => Raise ValueError
  | x :: rest => Ok (argmax_from 0 x 1 rest)
  end.

Definition generate_topic_title (sentences : list str)
           (embeddings : list row) : result str :=
  match sentences with
  | [] => Ok (lit "Topic")
  | [s] => Ok (_shorten_sentence s 6)
  | _ =>
      bind (centroid_similarity embeddings) (fun similarities =>
      bind (argmax similarities) (fun best_idx =>
      bind (getitem sentences best_idx) (fun s =>
      Ok (_shorten_sentence s 6))))
  end.

(** ** [rank_bullets] *)
Definition rank_bullets (sentences : list str) (embeddings : list row)
           (max_bullets : Z) : result (list str) :=
  if (Z.of_nat (length sentences) <=? max_bullets)%Z then Ok sentences
  else
    bind (centroid_similarity embeddings) (fun centrality_scores =>
    let top_indices :=
      rev (slice_from (- max_bullets) (argsort centrality_scores)) in
    traverse (getitem sentences) top_indices).

(** ** [process_text] *)
Record topic := {
  id : Z;
  title : str;
  bullets : list str;
  sentence_count : nat
}.

Record processed := {
  topics : list topic;
  slide_count : nat;
  total_sentences : nat
}.

(** [[i for i, s in enumerate(sentences) if s in cluster_sentences]] *)
Fixpoint indices_in (cluster : list str) (idx : nat) (sentences : list str)
  : list nat :=
  match sentences with
  | [] => []
  | s :: rest =>
      if existsb (str_eqb s) cluster
      then idx :: indices_in cluster (S idx) rest
      else indices_in cluster (S idx) rest
  end.

(** One turn of [for cluster_id, cluster_sentences in clusters.items()]. *)
Definition make_topic (sentences : list str) (embeddings : list row)
           (entry : Z * list str) : result topic :=
  let (cluster_id, cluster_sentences) := entry in
  let cluster_indices := indices_in cluster_sentences 0 sentences in
  bind (traverse (getitem embeddings) cluster_indices)
       (fun cluster_embeddings =>
  bind (generate_topic_title cluster_sentences cluster_embeddings)
       (fun title =>
  bind (rank_bullets cluster_sentences cluster_embeddings
                     Config.MAX_BULLETS_PER_SLIDE) (fun bullets =>
  Ok {| id := cluster_id; title := title; bullets := bullets;
        sentence_count := length cluster_sentences |}))).

(** [topics.sort(key=lambda t: t['sentence_count'], reverse=True)]:
    list.sort is stable, also under [reverse=True]. *)
Fixpoint insert_topic (t : topic) (sorted : list topic) : list topic :=
  match sorted with
  | [] => [t]
  | u :: rest =>
      if sentence_count t <? sentence_count u then u :: insert_topic t rest
      else t :: sorted
  end.

Definition sort_topics (ts : list topic) : list topic :=
  fold_right insert_topic [] ts.

Definition process_text (text : str) : result processed :=
  let cleaned := clean_text text in
  let sentences := split_sentences cleaned in
  match sentences with
  | [] => Ok {| topics := []; slide_count := 0; total_sentences := 0 |}
  | _ =>
      let embeddings := generate_embeddings sentences in
      bind (snd (cluster_sentences sentences embeddings None))
           (fun clusters =>
      bind (traverse (make_topic sentences embeddings) clusters)
           (fun topics =>
      let topics := sort_topics topics in
      Ok {| topics := topics;
            slide_count := length topics + 2;
            total_sentences := length sentences |}))
  end.

End Methods.
End TextProcessor.

(* ===================================================================== *)
(** * The segmenter as the specification words it *)
(* ===================================================================== *)

Module Spec.
Import Py.

(** The steps of Section 4.1, each written from its words and not from
    the code: they use neither the regular expressions of [Re] nor
    [str.strip] and [str.split], only the character classes. *)

(** The maximal runs of a text: neighbouring code points that are in the
    same class (in [p] or not) form one block. *)
Fixpoint runs (p : char -> bool) (s : str) : list (bool * str) :=
  match s with
  | [] => []
  | c :: rest =>
      match runs p rest with
      | (b, block) :: more =>
          if Bool.eqb (p c) b then (b, c :: block) :: more
          else (p c, [c]) :: (b, block) :: more
      | [] => [(p c, [c])]
      end
  end.

(** The blocks that are not in the class. *)
Definition outside (blocks : list (bool * str)) : list str :=
  map snd (filter (fun r : bool * str => negb (fst r)) blocks).

(** "collapse runs of whitespace to a single space" *)
Definition collapse (s : str) : str :=
  concat (map (fun r : bool * str => if fst r then [32%N] else snd r)
              (runs isspace s)).

(** "strip characters outside word characters, whitespace, and the
    punctuation set [. , ! ? -]" *)
Definition allowed {C : Collaborators} (c : char) : bool :=
  isword uni_alnum c || isspace c || existsb (N.eqb c) (lit ".,!?-").

Definition strip_chars {C : Collaborators} (s : str) : str :=
  filter allowed s.

(** "split on runs of [. ! ?]": the fragments are what stands between
    the runs. *)
Definition delimiter (c : char) : bool := existsb (N.eqb c) (lit ".!?").

Definition fragments (s : str) : list str := outside (runs delimiter s).

(** "trim each fragment": without the whitespace at either end. *)
Fixpoint drop_spaces (s : str) : str :=
  match s with
  | [] => []
  | c :: rest => if isspace c then drop_spaces rest else s
  end.

Definition trim (s : str) : str :=
  rev (drop_spaces (rev (drop_spaces s))).

(** The whitespace-delimited tokens. *)
Definition tokens (s : str) : list str := outside (runs isspace s).

(** "drop fragments whose trimmed token count is < 3" *)
Definition segment {C : Collaborators} (rawText : str) : list str :=
  let collapsed := collapse rawText in
  let stripped := strip_chars collapsed in
  let trimmed := map trim (fragments stripped) in
  filter (fun s => negb (length (tokens s) <? 3)) trimmed.

(** What makes [blocks] the maximal runs of [s]: they make up [s], none is
    empty, each is of one class, and neighbours are of different classes. *)
Fixpoint alternating (blocks : list (bool * str)) : bool :=
  match blocks with
  | r :: ((r' :: _) as rest) => negb (Bool.eqb (fst r) (fst r')) && alternating rest
  | _ => true
  end.

Definition maximal_runs (p : char -> bool) (s : str)
           (blocks : list (bool * str)) : Prop :=
  concat (map snd blocks) = s
  /\ Forall (fun r => snd r <> []
                      /\ forallb (fun c => Bool.eqb (p c) (fst r)) (snd r) = true)
            blocks
  /\ alternating blocks = true.

(** The sentences stand in the text one after the other. *)
Inductive in_order : list str -> str -> Prop :=
| in_order_nil text : in_order [] text
| in_order_cons s rest before after :
    in_order rest after -> in_order (s :: rest) (before ++ s ++ after).

(** No two neighbouring code points are both whitespace. *)
Fixpoint no_space_run (s : str) : bool :=
  match s with
  | c :: (c' :: _) as rest => negb (isspace c && isspace c') && no_space_run rest
  | _ => true
  end.

End Spec.

(* ===================================================================== *)
(** * Stand-ins for the collaborators, to run the model on examples *)
(* ===================================================================== *)

Module Demo.
Import Py.

(** Positions [0 .. n-1] ordered by ascending score, equal scores in
    position order. *)
Fixpoint insert_index (scores : list Z) (i : nat) (sorted : list nat)
  : list nat :=
  match sorted with
  | [] => [i]
  | j :: rest =>
      if (nth i scores 0 <? nth j scores 0)%Z then i :: sorted
      else j :: insert_index scores i rest
  end.

Definition stable_argsort (scores : list Z) : list nat :=
  fold_left (fun acc i => insert_index scores i acc)
            (seq 0 (length scores)) [].

(** An ASCII-only [\w] table; a sentence is embedded as its length, which
    is also its similarity score; the clusterer labels a row by its
    parity, a row below 10 being noise under HDBSCAN. *)
Definition stub : Collaborators := {|
  uni_alnum := fun _ => false;
  row := Z;
  score := Z;
  score_ltb := Z.ltb;
  encode := map (fun s => Z.of_nat (length s));
  HDBSCAN_AVAILABLE := true;
  fit_predict := fun c rows =>
    match c with
    | HDBSCAN _ _ =>
        map (fun r => if (r <? 10)%Z then (-1)%Z else (r mod 2)%Z) rows
    | KMeans _ _ _ => map (fun r => (r mod 2)%Z) rows
    end;
  centroid_similarity := fun rows => Ok rows;
  argsort := stable_argsort
|}.


End Demo.

(* ===================================================================== *)
(** * Notions used to state the properties *)
(* ===================================================================== *)

Module Notions.
Import Py TextProcessor.

(** Every whitespace code point is the plain space. *)
Definition plain_spaces (s : str) : Prop :=
  Forall (fun c => isspace c = true -> c = 32%N) s.

(** The first code point, if there is one, is not whitespace. *)
Definition starts_tight (s : str) : Prop :=
  match s with [] => True | c :: _ => isspace c = false end.

(** [f] applied to the last element only. *)
Fixpoint map_last (A : Type) (f : A -> A) (l : list A) : list A :=
  match l with
  | [] => []
  | [x] => [f x]
  | x :: rest => x :: map_last f rest
  end.

(** The label the loop files a sentence under, [m] being [max(labels)]. *)
Definition relabel (m : Z) (label : Z) : Z :=
  if (label =? -1)%Z then (m + 1)%Z else label.

(** One turn of the loop on an already relabelled pair. *)
Definition add_sentence (clusters : dict) (p : Z * str) : dict :=
  append_at (fst p) (snd p)
            (if contains (fst p) clusters then clusters
             else clusters ++ [(fst p, [])]).

(** The sentences filed under [k], in the order of the text. *)
Definition select (k : Z) (pairs : list (Z * str)) : list str :=
  map snd (filter (fun p => (fst p =? k)%Z) pairs).

(** The distinct labels in the order in which they are first met. *)
Fixpoint first_seen (ks : list Z) : list Z :=
  match ks with
  | [] => []
  | k :: rest => k :: filter (fun j => negb (j =? k)%Z) (first_seen rest)
  end.

(** What the loop builds from an empty dict. *)
Definition grouped (pairs : list (Z * str)) : dict :=
  map (fun k => (k, select k pairs)) (first_seen (map fst pairs)).

(** A dict entry with the sentences that [pairs] still files under it. *)
Definition extend (pairs : list (Z * str)) (kv : Z * list str) : Z * list str :=
  (fst kv, snd kv ++ select (fst kv) pairs).

(** [t] has at least as many sentences as [u]. *)
Definition at_least (t u : topic) : Prop := sentence_count u <= sentence_count t.

(** A text is given one label only. *)
Definition one_label (pairs : list (Z * str)) : Prop :=
  forall l1 l2 s, In (l1, s) pairs -> In (l2, s) pairs -> l1 = l2.

(** The same as a test. *)
Definition one_label_per_text (pairs : list (Z * str)) : bool :=
  forallb (fun p =>
    forallb (fun q => implb (str_eqb (snd p) (snd q)) (fst p =? fst q)%Z) pairs)
    pairs.

(** What a topic owes to the dict entry it is made from. *)
Definition topic_of (kv : Z * list str) (t : topic) : Prop :=
  id t = fst kv /\ sentence_count t = length (snd kv)
  /\ length (bullets t) <= 5.

Section WithCollaborators.
Context {C : Collaborators}.

(** The score at position [i] is not strictly below the one at [j]. *)
Definition not_below (scores : list score) (i j : nat) : Prop :=
  forall a b, nth_error scores i = Some a -> nth_error scores j = Some b ->
              score_ltb a b = false.

(** What [scores.argsort()] promises: every position once, no position
    before one of a strictly smaller score. *)
Definition argsort_spec (scores : list score) (order : list nat) : Prop :=
  Permutation order (seq 0 (length scores))
  /\ StronglySorted (fun i j => not_below scores j i) order.

(** What the module relies on from its collaborators: the encoder
    returns one row per sentence, a clusterer one label per row, the
    similarity kernel one score per row of a matrix that is not empty, and
    [argsort] positions of the array it was given. *)
Definition collaborators_behave : Prop :=
  (forall sentences, length (encode sentences) = length sentences)
  /\ (forall c rows, length (fit_predict c rows) = length rows)
  /\ (forall rows, rows <> [] ->
        exists scores, centroid_similarity rows = Ok scores
                       /\ length scores = length rows)
  /\ (forall scores, Forall (fun i => i < length scores) (argsort scores)).

(** The labels the clusterer of a run returns (none below two sentences). *)
Definition run_labels (sentences : list str) : list Z :=
  let embeddings := generate_embeddings sentences in
  match fst (cluster_sentences sentences embeddings None) with
  | c :: _ => fit_predict c embeddings
  | [] => []
  end.

End WithCollaborators.
End Notions.

(* ===================================================================== *)
(** * Notions used for the further properties *)
(* ===================================================================== *)

Module Tokens.
Import Py.

(** A token of [str.split]: not empty and free of whitespace. *)
Definition token (w : str) : Prop :=
  w <> [] /\ forallb (fun c => negb (isspace c)) w = true.

(** The number of positions at which a token starts; [in_word] tells that
    the previous code point was no whitespace. *)
Fixpoint starts (in_word : bool) (s : str) : nat :=
  match s with
  | [] => 0
  | c :: rest =>
      if isspace c then starts false rest
      else (if in_word then 0 else 1) + starts true rest
  end.

End Tokens.

Module Shape.
Import Py TextProcessor.

(** A cluster as the grouping loop leaves it: not empty, and made of
    sentences of the text. *)
Definition filled (sentences : list str) (kv : Z * list str) : Prop :=
  snd kv <> [] /\ incl (snd kv) sentences.

(** A topic that stands for some sentences of the text: it counts at
    least one sentence, shows at most five bullets (all of its sentences
    when it has five or fewer), every bullet is a sentence of the text,
    and its title is made from one. *)
Definition drawn_from (sentences : list str) (t : topic) : Prop :=
  1 <= sentence_count t
  /\ length (bullets t) <= 5
  /\ (sentence_count t <= 5 -> length (bullets t) = sentence_count t)
  /\ incl (bullets t) sentences
  /\ exists s, In s sentences /\ title t = _shorten_sentence s 6.

(** A word character, the plain space, or one of [, - .]. *)
Definition printable {C : Collaborators} (c : char) : bool :=
  isword uni_alnum c || (c =? 32)%N || (c =? 44)%N || (c =? 45)%N
  || (c =? 46)%N.

End Shape.

(* ===================================================================== *)
(** * ocr_engine.py *)
(* ===================================================================== *)

Module OCR.
Import Py.

(** A call that either returns or raises an [Exception]; of the exception
    only [str(e)] is used. *)
Inductive attempt (A : Type) :=
| Done (a : A)
| Failed (message : str).
Arguments Done {A} a.
Arguments Failed {A} message.

Definition and_then {A B} (m : attempt A) (k : A -> attempt B) : attempt B :=
  match m with
  | Done a => k a
  | Failed e => Failed e
  end.

(** What the engine imports and does not define: PIL's images and
    filters, pytesseract, and the float arithmetic of the confidence
    average.  An entry of [data['conf']] is a string or a number,
    depending on the pytesseract version; of it the source uses the
    comparison with ['-1'] and [int()]. *)
Class Backend := {
  image : Type;
  conf_entry : Type;
  number : Type;
  (** [Image.open(image_path)] *)
  image_open : str -> attempt image;
  (** [image.mode] *)
  mode : image -> str;
  (** [image.convert('L')] *)
  convert : str -> image -> attempt image;
  (** [ImageEnhance.Contrast(image).enhance(factor)] and the same for
      [Sharpness], the factor in tenths *)
  enhance_contrast : Z -> image -> attempt image;
  enhance_sharpness : Z -> image -> attempt image;
  (** [image.filter(ImageFilter.MedianFilter(size=size))] *)
  median_filter : Z -> image -> attempt image;
  (** [pytesseract.image_to_string(image, lang=lang, config=config)] *)
  image_to_string : image -> str -> str -> attempt str;
  (** [pytesseract.image_to_data(image, lang=lang, config=config,
      output_type=Output.DICT)['conf']] *)
  image_to_data_conf : image -> str -> str -> attempt (list conf_entry);
  (** [conf != '-1'] and [int(conf)] *)
  differs_from_minus_one : conf_entry -> bool;
  to_int : conf_entry -> attempt Z;
  (** an [int] as a number, [a / b] and [round(x, 2)] *)
  of_int : Z -> number;
  true_div : Z -> Z -> number;
  round2 : number -> number
}.

(** The dict that [extract_text] returns; the key ['error'] is there on
    failure only. *)
Record extraction {B : Backend} := {
  text : str;
  confidence : number;
  word_count : nat;
  source : str;
  error : option str
}.

Section Engine.
Context {B : Backend}.

(** [config.OCR_CONFIG] *)
Definition OCR_CONFIG : str := lit "--oem 3 --psm 3".

(** [self.language] *)
Variable language : str.

Definition preprocess_image (img : image) : attempt image :=
  and_then (if negb (str_eqb (mode img) (lit "L"))
            then convert (lit "L") img else Done img) (fun img =>
  and_then (enhance_contrast 20 img) (fun img =>
  and_then (enhance_sharpness 15 img) (fun img =>
  median_filter 3 img))).

(** [[int(conf) for conf in data['conf'] if conf != '-1']] *)
Fixpoint confidences (conf : list conf_entry) : attempt (list Z) :=
  match conf with
  | [] => Done []
  | c :: rest =>
      if differs_from_minus_one c
      then and_then (to_int c) (fun n =>
           and_then (confidences rest) (fun ns => Done (n :: ns)))
      else confidences rest
  end.

Definition extract_text (image_path : str) (preprocess : bool)
  : extraction :=
  match
    and_then (image_open image_path) (fun img =>
    and_then (if preprocess then preprocess_image img else Done img)
             (fun img =>
    and_then (image_to_string img language OCR_CONFIG) (fun text =>
    and_then (image_to_data_conf img language OCR_CONFIG) (fun conf =>
    and_then (confidences conf) (fun confidences =>
    let avg_confidence :=
      match confidences with
      | [] => of_int 0
      | _ => true_div (fold_left Z.add confidences 0%Z)
                      (Z.of_nat (length confidences))
      end in
    Done {| text := strip text;
            confidence := round2 avg_confidence;
            word_count := length (split text);
            source := image_path;
            error := None |})))))
  with
  | Done result => result
  | Failed e =>
      {| text := []; confidence := of_int 0; word_count := 0;
         source := image_path; error := Some e |}
  end.

(** The loop of [batch_extract]; the log lines apart, it collects the
    results in the order of the paths. *)
Definition batch_extract (image_paths : list str) (preprocess : bool)
  : list extraction :=
  fold_left (fun results path => results ++ [extract_text path preprocess])
            image_paths [].

(** ["\n\n".join([r['text'] for r in results if r['text']])] *)
Definition get_combined_text (results : list extraction) : str :=
  join [10%N; 10%N]
       (map text (filter (fun r => match text r with [] => false | _ => true end)
                         results)).

End Engine.

(** [sum([r['word_count'] for r in results])] of [app.py]. *)
Definition total_words {B : Backend} (results : list extraction) : nat :=
  fold_left Nat.add (map word_count results) 0.

(** A stand-in backend, to run the engine on examples: the picture at a
    path shows the path itself, followed by a line feed; there is no
    picture at the empty path; every word is recognised with confidence
    90. *)
Definition stub_backend : Backend := {|
  image := str;
  conf_entry := Z;
  number := Z;
  image_open := fun path =>
    match path with
    | [] => Failed (lit "cannot identify image file")
    | _ => Done path
    end;
  mode := fun _ => lit "RGB";
  convert := fun _ img => Done img;
  enhance_contrast := fun _ img => Done img;
  enhance_sharpness := fun _ img => Done img;
  median_filter := fun _ img => Done img;
  image_to_string := fun img _ _ => Done (img ++ [10%N]);
  image_to_data_conf := fun img _ _ => Done (map (fun _ => 90%Z) (split img));
  differs_from_minus_one := fun _ => true;
  to_int := fun c => Done c;
  of_int := fun n => n;
  true_div := Z.div;
  round2 := fun x => x
|}.

End OCR.

(* ===================================================================== *)
(** * slide_generator.py *)
(* ===================================================================== *)

(** Formatting an [int] in an f-string, and [str.split('\n')]. *)
Module Fmt.
Import Py.

Fixpoint digits (u : Decimal.uint) : str :=
  match u with
  | Decimal.Nil => []
  | Decimal.D0 u => 48%N :: digits u
  | Decimal.D1 u => 49%N :: digits u
  | Decimal.D2 u => 50%N :: digits u
  | Decimal.D3 u => 51%N :: digits u
  | Decimal.D4 u => 52%N :: digits u
  | Decimal.D5 u => 53%N :: digits u
  | Decimal.D6 u => 54%N :: digits u
  | Decimal.D7 u => 55%N :: digits u
  | Decimal.D8 u => 56%N :: digits u
  | Decimal.D9 u => 57%N :: digits u
  end.

(** [f"{n}"] for a non-negative [int]. *)
Definition decimal (n : nat) : str := digits (Nat.to_uint n).

(** [s.split('\n')]: the pieces between line feeds, empty ones included. *)
Fixpoint split_lines (s : str) : list str :=
  match s with
  | [] => [[]]
  | c :: rest =>
      if (c =? 10)%N then [] :: split_lines rest
      else
        match split_lines rest with
        | line :: lines => (c :: line) :: lines
        | [] => [[c]]
        end
  end.

End Fmt.

Module Slides.
Import Py TextProcessor.

(** ** The [data] dict

    The generators read it with [data.get('topics', [])] and
    [data.get('total_sentences', 0)], so either key may be missing. *)
Record data := {
  data_topics : option (list topic);
  data_total_sentences : option nat
}.

Definition get_topics (d : data) : list topic :=
  match data_topics d with Some ts => ts | None => [] end.

Definition get_total_sentences (d : data) : nat :=
  match data_total_sentences d with Some n => n | None => 0 end.

(** The dict that [process_text] returns, as [app.py] hands it on. *)
Definition of_processed (r : processed) : data :=
  {| data_topics := Some (topics r);
     data_total_sentences := Some (total_sentences r) |}.

(** [f"Generated {len(data.get('topics', []))} topics from
    {data.get('total_sentences', 0)} sentences"] *)
Definition summary_text (d : data) : str :=
  lit "Generated " ++ Fmt.decimal (length (get_topics d))
  ++ lit " topics from " ++ Fmt.decimal (get_total_sentences d)
  ++ lit " sentences".

(** ** class Theme

    Of the theme config the generators read [config['colors']['title']]
    and [config['colors']['text']] only. *)
Record theme_config := {
  config_name : str;
  colors : option (list (string * str));
  fonts : option (list (string * str));
  sizes : option (list (string * Z))
}.

Definition _get_default_theme : theme_config :=
  {| config_name := lit "clean";
     colors := Some [("background"%string, lit "#FFFFFF");
                     ("title"%string, lit "#1a1a1a");
                     ("text"%string, lit "#333333");
                     ("accent"%string, lit "#0066cc")];
     fonts := Some [("title"%string, lit "Helvetica-Bold");
                    ("heading"%string, lit "Helvetica-Bold");
                    ("body"%string, lit "Helvetica")];
     sizes := Some [("title"%string, 28%Z); ("heading"%string, 24%Z);
                    ("body"%string, 14%Z)] |}.

(** [_load_theme]; [theme_file] is the parsed content of
    [THEMES_DIR / f"{theme_name}.json"] when that file exists. *)
Definition _load_theme (theme_file : option theme_config) : theme_config :=
  match theme_file with
  | None => _get_default_theme
  | Some config => config
  end.

(** What a generator does: it returns, or raises [KeyError] for a key the
    theme lacks, or the [ValueError] with which reportlab rejects the
    markup of a paragraph text. *)
Inductive outcome (A : Type) :=
| Built (a : A)
| KeyError (key : string)
| MarkupValueError (text : str).
Arguments Built {A} a.
Arguments KeyError {A} key.
Arguments MarkupValueError {A} text.

Definition and_then {A B} (m : outcome A) (k : A -> outcome B) : outcome B :=
  match m with
  | Built a => k a
  | KeyError key => KeyError key
  | MarkupValueError text => MarkupValueError text
  end.

Definition lookup {A} (key : string) (d : list (string * A)) : outcome A :=
  match find (fun kv => String.eqb (fst kv) key) d with
  | Some kv => Built (snd kv)
  | None => KeyError key
  end.

(** [self.theme.config['colors'][key]] *)
Definition theme_color (config : theme_config) (key : string) : outcome str :=
  match colors config with
  | None => KeyError "colors"
  | Some cs => lookup key cs
  end.

(** ** class PDFGenerator *)

Inductive alignment := TA_CENTER | PP_ALIGN_CENTER.

Record ParagraphStyle := {
  style_name : string;
  parent : string;
  fontSize : Z;
  textColor : str;
  spaceAfter : Z;
  style_alignment : option alignment;
  leftIndent : option Z
}.

(** The flowables of the story; a [Spacer] has its width in points and
    its height in tenths of an inch. *)
Inductive flowable :=
| Spacer (width : Z) (height : Z)
| Paragraph (text : str) (style : ParagraphStyle)
| PageBreak.

(** The two characters of ["• "]. *)
Definition bullet_mark : str := [8226%N; 32%N].

(** The three custom styles. *)
Definition title_style (color : str) : ParagraphStyle :=
  {| style_name := "CustomTitle"; parent := "Title"; fontSize := 32;
     textColor := color; spaceAfter := 30;
     style_alignment := Some TA_CENTER; leftIndent := None |}.

Definition heading_style (color : str) : ParagraphStyle :=
  {| style_name := "CustomHeading"; parent := "Heading1"; fontSize := 24;
     textColor := color; spaceAfter := 20;
     style_alignment := None; leftIndent := None |}.

Definition body_style (color : str) : ParagraphStyle :=
  {| style_name := "CustomBody"; parent := "BodyText"; fontSize := 14;
     textColor := color; spaceAfter := 10;
     style_alignment := None; leftIndent := Some 20%Z |}.

(** What the generator gets from reportlab: [Paragraph(text, style)]
    parses [text] as markup when the paragraph is made, and raises
    [ValueError] when the parser rejects it. *)
Class Reportlab := {
  (** whether the paragraph parser accepts the text *)
  well_formed : str -> bool
}.

Section PDF.
Context {R : Reportlab}.

(** [Paragraph(text, style)] *)
Definition new_paragraph (text : str) (style : ParagraphStyle) : outcome flowable :=
  if well_formed text then Built (Paragraph text style)
  else MarkupValueError text.

(** The story that [PDFGenerator.generate] hands to [doc.build];
    [today] is [datetime.now().strftime('%B %d, %Y')]. *)
Definition pdf_story (config : theme_config) (today : str) (d : data)
  : outcome (list flowable) :=
  and_then (theme_color config "title") (fun color =>
  let title_style := title_style color in
  and_then (theme_color config "title") (fun color =>
  let heading_style := heading_style color in
  and_then (theme_color config "text") (fun color =>
  let body_style := body_style color in
  let story := [] in
  let story := story ++ [Spacer 1 20] in
  and_then (new_paragraph (lit "<b>AI-Generated Slide Deck</b>") title_style)
           (fun p =>
  let story := story ++ [p] in
  and_then (new_paragraph (lit "Generated on " ++ today) body_style) (fun p =>
  let story := story ++ [p] in
  let story := story ++ [PageBreak] in
  and_then
    (fold_left (fun so_far topic =>
       and_then so_far (fun story =>
       let story := story ++ [Spacer 1 5] in
       and_then (new_paragraph (lit "<b>" ++ title topic ++ lit "</b>")
                           heading_style) (fun p =>
       let story := story ++ [p] in
       let story := story ++ [Spacer 1 3] in
       and_then
         (fold_left (fun so_far bullet =>
            and_then so_far (fun story =>
            and_then (new_paragraph (bullet_mark ++ bullet) body_style) (fun p =>
            Built (story ++ [p]))))
            (bullets topic) (Built story)) (fun story =>
       Built (story ++ [PageBreak])))))
       (get_topics d) (Built story)) (fun story =>
  let story := story ++ [Spacer 1 20] in
  and_then (new_paragraph (lit "<b>Summary</b>") title_style) (fun p =>
  let story := story ++ [p] in
  let story := story ++ [Spacer 1 3] in
  and_then (new_paragraph (summary_text d) body_style) (fun p =>
  Built (story ++ [p]))))))))).

End PDF.

(** ** class PPTXGenerator

    The part of python-pptx that the generator uses.  Lengths are in
    tenths of an inch, font sizes in points.  A new text box has a text
    frame with one empty paragraph; assigning [text_frame.text] replaces
    the paragraphs by one per line of the text; [add_paragraph] appends an
    empty paragraph. *)
Record paragraph := {
  p_text : str;
  font_size : option Z;
  font_bold : option bool;
  p_alignment : option alignment;
  level : option Z;
  space_after : option Z
}.

Definition empty_paragraph : paragraph :=
  {| p_text := []; font_size := None; font_bold := None;
     p_alignment := None; level := None; space_after := None |}.

Record text_frame := {
  word_wrap : option bool;
  paragraphs : list paragraph
}.

Record textbox := {
  left : Z; top : Z; width : Z; height : Z;
  frame : text_frame
}.

Record slide := {
  layout : nat;
  shapes : list textbox
}.

Record presentation := {
  slide_width : Z;
  slide_height : Z;
  slides : list slide
}.

Definition new_frame : text_frame :=
  {| word_wrap := None; paragraphs := [empty_paragraph] |}.

(** [text_frame.text = s] *)
Definition set_frame_text (s : str) (f : text_frame) : text_frame :=
  {| word_wrap := word_wrap f;
     paragraphs :=
       map (fun line =>
              {| p_text := line; font_size := None; font_bold := None;
                 p_alignment := None; level := None; space_after := None |})
           (Fmt.split_lines s) |}.

(** [text_frame.add_paragraph()] *)
Definition add_paragraph (f : text_frame) : text_frame :=
  {| word_wrap := word_wrap f;
     paragraphs := paragraphs f ++ [empty_paragraph] |}.

(** [p = text_frame.paragraphs[i]] followed by assignments into [p],
    which [change] stands for. *)
Definition with_paragraph (i : nat) (change : paragraph -> paragraph)
           (f : text_frame) : result text_frame :=
  bind (getitem (paragraphs f) i) (fun p =>
  Ok {| word_wrap := word_wrap f;
        paragraphs := firstn i (paragraphs f) ++ [change p]
                      ++ skipn (S i) (paragraphs f) |}).

(** A text box with [text_frame.text = s] and the font of its first
    paragraph set. *)
Definition heading_box (left top width height : Z) (s : str)
           (size : Z) (bold : option bool) (align : option alignment)
  : result textbox :=
  let f := set_frame_text s new_frame in
  bind (with_paragraph 0 (fun p =>
          {| p_text := p_text p; font_size := Some size;
             font_bold := match bold with Some b => Some b
                                     | None => font_bold p end;
             p_alignment := match align with Some a => Some a
                                        | None => p_alignment p end;
             level := level p; space_after := space_after p |}) f)
       (fun f =>
  Ok {| left := left; top := top; width := width; height := height;
        frame := f |}).

(** The loop [for i, bullet in enumerate(topic['bullets'])]; [i] is the
    position of the first of [bullets]. *)
Fixpoint bullet_loop (i : nat) (bullets : list str) (f : text_frame)
  : result text_frame :=
  match bullets with
  | [] => Ok f
  | bullet :: rest =>
      let f := if 0 <? i then add_paragraph f else f in
      bind (with_paragraph i (fun p =>
              {| p_text := bullet; font_size := Some 18%Z;
                 font_bold := font_bold p; p_alignment := p_alignment p;
                 level := Some 0%Z; space_after := Some 12%Z |}) f)
           (fun f => bullet_loop (S i) rest f)
  end.

Definition topic_slide (t : topic) : result slide :=
  bind (heading_box 5 5 90 8 (title t) 32 (Some true) None) (fun title_box =>
  let text_frame :=
    {| word_wrap := Some true; paragraphs := paragraphs new_frame |} in
  bind (bullet_loop 0 (bullets t) text_frame) (fun text_frame =>
  Ok {| layout := 6;
        shapes := [title_box;
                   {| left := 10; top := 15; width := 80; height := 50;
                      frame := text_frame |}] |})).

(** The presentation that [PPTXGenerator.generate] saves. *)
Definition pptx_deck (today : str) (d : data) : result presentation :=
  bind (heading_box 10 25 80 10 (lit "AI-Generated Slide Deck") 44
                    (Some true) (Some PP_ALIGN_CENTER)) (fun title_box =>
  bind (heading_box 10 40 80 5 (lit "Generated on " ++ today) 18
                    None (Some PP_ALIGN_CENTER)) (fun subtitle_box =>
  let slides := [{| layout := 6; shapes := [title_box; subtitle_box] |}] in
  bind (fold_left (fun acc topic =>
                     bind acc (fun slides =>
                     bind (topic_slide topic) (fun s => Ok (slides ++ [s]))))
                  (get_topics d) (Ok slides)) (fun slides =>
  bind (heading_box 10 20 80 10 (lit "Summary") 40
                    (Some true) (Some PP_ALIGN_CENTER)) (fun title_box =>
  bind (heading_box 20 35 60 10 (summary_text d) 20
                    None (Some PP_ALIGN_CENTER)) (fun summary_box =>
  Ok {| slide_width := 100; slide_height := 75;
        slides := slides ++ [{| layout := 6;
                                shapes := [title_box; summary_box] |}] |}))))).

(** ** class MarkdownGenerator *)

(** The list [lines] before it is joined. *)
Definition md_lines (today : str) (d : data) : list str :=
  let lines := [] in
  let lines := lines ++ [lit "# AI-Generated Slide Deck"] in
  let lines := lines ++ [[]] in
  let lines := lines ++ [lit "*Generated on " ++ today ++ lit "*"] in
  let lines := lines ++ [[]] in
  let lines := lines ++ [lit "---"] in
  let lines := lines ++ [[]] in
  let lines :=
    fold_left (fun lines topic =>
      let lines := lines ++ [lit "## " ++ title topic] in
      let lines := lines ++ [[]] in
      let lines :=
        fold_left (fun lines bullet => lines ++ [lit "- " ++ bullet])
                  (bullets topic) lines in
      let lines := lines ++ [[]] in
      let lines := lines ++ [lit "---"] in
      lines ++ [[]]) (get_topics d) lines in
  let lines := lines ++ [lit "## Summary"] in
  let lines := lines ++ [[]] in
  lines ++ [summary_text d].

(** What is written to the file: ['\n'.join(lines)]. *)
Definition md_text (today : str) (d : data) : str :=
  join [10%N] (md_lines today d).

(** ** class SlideGenerator *)

Inductive document :=
| PdfFile (story : list flowable)
| PptxFile (prs : presentation)
| MarkdownFile (content : str).

(** What [generate_all] does: the files it has written, in order, and
    then either the dict it returns or the exception it raises.  [today]
    and [timestamp] are the two [strftime] readings of the clock, and
    [output_file name] is [str(OUTPUT_DIR / name)].  A file is recorded
    with what the generator hands to the library call that writes it
    ([doc.build(story)], [prs.save], [f.write]); laying out and writing
    are the libraries' and the file system's part, and are not
    modelled. *)
Inductive ending :=
| Returned (outputs : list (string * str))
| RaisedKeyError (key : string)
| Raised (e : exn).

Definition generate_all {R : Reportlab} (config : theme_config)
           (output_file : str -> str)
           (today timestamp : str) (d : data) (base_name : str)
  : list (str * document) * ending :=
  let filename := base_name ++ lit "_" ++ timestamp in
  let pdf_path := output_file (filename ++ lit ".pdf") in
  match pdf_story config today d with
  | KeyError k => ([], RaisedKeyError k)
  | MarkupValueError _ => ([], Raised ValueError)
  | Built story =>
  let written := [(pdf_path, PdfFile story)] in
  let pptx_path := output_file (filename ++ lit ".pptx") in
  match pptx_deck today d with
  | Raise e => (written, Raised e)
  | Ok prs =>
  let written := written ++ [(pptx_path, PptxFile prs)] in
  let md_path := output_file (filename ++ lit ".md") in
  let written := written ++ [(md_path, MarkdownFile (md_text today d))] in
  (written, Returned [("pdf"%string, pdf_path); ("pptx"%string, pptx_path);
                      ("md"%string, md_path)])
  end end.

End Slides.

(** Counting the slides of a deck. *)
Module Decks.
Import Py TextProcessor Slides.

Definition no_line_feed (s : str) : bool :=
  forallb (fun c => negb (c =? 10)%N) s.

(** Neither the title nor a bullet holds a line feed. *)
Definition one_line_topic (t : topic) : bool :=
  no_line_feed (title t) && forallb no_line_feed (bullets t).

Fixpoint starts_with (prefix s : str) : bool :=
  match prefix, s with
  | [], _ => true
  | p :: prefix, c :: s => (p =? c)%N && starts_with prefix s
  | _ :: _, [] => false
  end.

(** The lines ["---"] that separate the slides of a Markdown deck, its
    second-level headings, and its bullet lines. *)
Definition separators (lines : list str) : nat :=
  length (filter (str_eqb (lit "---")) lines).

Definition headings (lines : list str) : nat :=
  length (filter (starts_with (lit "## ")) lines).

Definition bullet_lines (lines : list str) : nat :=
  length (filter (starts_with (lit "- ")) lines).

(** The page breaks and the paragraphs of a story. *)
Definition page_breaks (story : list flowable) : nat :=
  length (filter (fun f => match f with PageBreak => true | _ => false end)
                 story).

Definition paragraph_texts (story : list flowable) : list str :=
  flat_map (fun f => match f with Paragraph text _ => [text] | _ => [] end)
           story.

(** The texts of the paragraphs of a text box. *)
Definition box_texts (b : textbox) : list str :=
  map p_text (paragraphs (frame b)).

(** The lines that the Markdown generator writes for one topic, and the
    flowables that the PDF generator adds for it. *)
Definition md_section (t : topic) : list str :=
  [lit "## " ++ title t; []]
  ++ map (fun b => lit "- " ++ b) (bullets t)
  ++ [[]; lit "---"; []].

Definition pdf_section (heading body : ParagraphStyle) (t : topic)
  : list flowable :=
  [Spacer 1 5;
   Paragraph (lit "<b>" ++ title t ++ lit "</b>") heading;
   Spacer 1 3]
  ++ map (fun b => Paragraph (bullet_mark ++ b) body) (bullets t)
  ++ [PageBreak].

(** The texts of which the PDF generator makes paragraphs, in the order
    in which it makes them. *)
Definition pdf_texts (today : str) (d : data) : list str :=
  [lit "<b>AI-Generated Slide Deck</b>"; lit "Generated on " ++ today]
  ++ flat_map (fun t => (lit "<b>" ++ title t ++ lit "</b>")
                          :: map (fun b => bullet_mark ++ b) (bullets t))
              (get_topics d)
  ++ [lit "<b>Summary</b>"; summary_text d].

(** The text holds none of [& < >]. *)
Definition markup_free (s : str) : bool :=
  forallb (fun c => negb ((c =? 38) || (c =? 60) || (c =? 62))%N) s.

(** What is relied on from the paragraph parser: a text without markup
    characters is accepted, alone and in bold. *)
Definition accepts_plain_text {R : Reportlab} : Prop :=
  forall x, markup_free x = true ->
            well_formed x = true
            /\ well_formed (lit "<b>" ++ x ++ lit "</b>") = true.

(** A stand-in for the parser, to run the generator on examples: it
    accepts a text without markup characters, alone or in bold, and
    nothing else. *)
Definition stub_reportlab : Reportlab := {|
  well_formed := fun text =>
    markup_free text
    || (starts_with (lit "<b>") text
        && let rest := skipn 3 text in
           let n := length rest - 4 in
           markup_free (firstn n rest) && str_eqb (skipn n rest) (lit "</b>"))
|}.

(** A slide with two text boxes: the title of the topic, and its bullets
    one per paragraph (one empty paragraph when it has none). *)
Definition shows (t : topic) (s : slide) : Prop :=
  exists title_box content,
    shapes s = [title_box; content]
    /\ box_texts title_box = Fmt.split_lines (title t)
    /\ box_texts content = match bullets t with [] => [[]] | bs => bs end.

(** All bullets of the topics. *)
Definition all_bullets (ts : list topic) : list str :=
  flat_map bullets ts.

(** The number of slides of a written deck: the pages that the page
    breaks of a story make, the slides of a presentation, the parts that
    the separator lines of a Markdown file make. *)
Definition slide_total (doc : document) : nat :=
  match doc with
  | PdfFile story => page_breaks story + 1
  | PptxFile prs => length (slides prs)
  | MarkdownFile content => separators (Fmt.split_lines content) + 1
  end.

End Decks.

(* ===================================================================== *)
(** * Finding Tesseract: [detect_tesseract_path] of config.py and the two
      checks of ocr_engine.py *)
(* ===================================================================== *)

Module Setup.
Import Py OCR.

(** The machine the program runs on: [platform.system()],
    [os.getenv("USERNAME")], [shutil.which("tesseract")],
    [os.path.exists], and [pytesseract.get_tesseract_version()] for the
    command that [pytesseract.pytesseract.tesseract_cmd] names. *)
Class Host := {
  system : str;
  USERNAME : option str;
  which_tesseract : option str;
  path_exists : str -> bool;
  get_tesseract_version : str -> attempt str
}.

Section OnHost.
Context {H : Host}.

(** [if x:] for a string or [None]. *)
Definition truthy (x : option str) : bool :=
  match x with
  | Some (_ :: _) => true
  | _ => false
  end.

Definition common_paths : list str :=
  if str_eqb system (lit "Windows") then
    [lit "C:\Program Files\Tesseract-OCR\tesseract.exe";
     lit "C:\Program Files (x86)\Tesseract-OCR\tesseract.exe";
     lit "C:\Users\"
     ++ match USERNAME with Some name => name | None => lit "None" end
     ++ lit "\AppData\Local\Tesseract-OCR\tesseract.exe"]
  else if str_eqb system (lit "Darwin") then
    [lit "/usr/local/bin/tesseract"; lit "/opt/homebrew/bin/tesseract"]
  else
    [lit "/usr/bin/tesseract"; lit "/usr/local/bin/tesseract"].

(** The loop [for path in common_paths]. *)
Fixpoint first_existing (paths : list str) : option str :=
  match paths with
  | [] => None
  | path :: rest => if path_exists path then Some path else first_existing rest
  end.

Definition detect_tesseract_path : option str :=
  let tesseract_cmd := which_tesseract in
  if truthy tesseract_cmd then tesseract_cmd
  else first_existing common_paths.

Definition TESSERACT_CMD : option str := detect_tesseract_path.

(** [pytesseract.pytesseract.tesseract_cmd] after ocr_engine.py is
    imported: pytesseract's default unless [TESSERACT_CMD] is set. *)
Definition tesseract_cmd : str :=
  match TESSERACT_CMD with
  | Some (c :: cmd) => c :: cmd
  | _ => lit "tesseract"
  end.

(** [f"{TESSERACT_CMD}"] *)
Definition show_cmd : str :=
  match TESSERACT_CMD with
  | Some cmd => cmd
  | None => lit "None"
  end.

(** [OCREngine._check_tesseract]: returns, or raises [RuntimeError] with
    this message. *)
Definition _check_tesseract : attempt unit :=
  match get_tesseract_version tesseract_cmd with
  | Done _ => Done tt
  | Failed _ =>
      Failed (lit "Tesseract not found. Please install Tesseract OCR:"
              ++ [10%N]
              ++ lit "Windows: https://github.com/UB-Mannheim/tesseract/wiki"
              ++ [10%N]
              ++ lit "Mac: brew install tesseract" ++ [10%N]
              ++ lit "Linux: sudo apt-get install tesseract-ocr")
  end.

Definition check_tesseract_installation : bool * str :=
  if negb (truthy TESSERACT_CMD) then
    (false,
     lit "Tesseract OCR not found. Please install:" ++ [10%N; 10%N]
     ++ lit "**Windows**: Download from https://github.com/UB-Mannheim/tesseract/wiki"
     ++ [10%N]
     ++ lit "**Mac**: `brew install tesseract`" ++ [10%N]
     ++ lit "**Linux**: `sudo apt-get install tesseract-ocr`")
  else
    match get_tesseract_version tesseract_cmd with
    | Done version =>
        (true, lit "Tesseract " ++ version ++ lit " found at: " ++ show_cmd)
    | Failed e => (false, lit "Tesseract found but not working: " ++ e)
    end.

End OnHost.

(** A Linux machine with Tesseract 5 at [/usr/bin/tesseract] but not on
    the search path. *)
Definition linux_host : Host := {|
  system := lit "Linux";
  USERNAME := None;
  which_tesseract := None;
  path_exists := fun p => str_eqb p (lit "/usr/bin/tesseract");
  get_tesseract_version := fun cmd =>
    if str_eqb cmd (lit "/usr/bin/tesseract") then Done (lit "5.3.0")
    else Failed (lit "tesseract is not installed or it's not in your PATH")
|}.

End Setup.

(* ===================================================================== *)
(** * Facts about the string primitives *)
(* ===================================================================== *)

Module PyFacts.
Import Py.

Section Strip.
Variable p : char -> bool.

Lemma lstrip_by_head c r s : lstrip_by p s = c :: r -> p c = false.
Proof.
  induction s as [|x s IH]; simpl; [discriminate|].
  destruct (p x) eqn:E; auto.
  intros H; injection H as -> _; exact E.
Qed.

Lemma lstrip_by_suffix s : exists pre, s = pre ++ lstrip_by p s.
Proof.
  induction s as [|x s [pre IH]]; simpl.
  - now exists [].
  - destruct (p x).
    + exists (x :: pre). simpl. now f_equal.
    + now exists [].
Qed.

Lemma lstrip_by_noop s :
  match s with [] => True | c :: _ => p c = false end -> lstrip_by p s = s.
Proof. destruct s as [|c s]; simpl; auto. now intros ->. Qed.

Lemma rstrip_by_cons c s :
  rstrip_by p (c :: s) =
  match rstrip_by p s with
  | [] => if p c then [] else [c]
  | r => c :: r
  end.
Proof. reflexivity. Qed.

(** [rstrip_by] removes a suffix made of [p] only. *)
Lemma rstrip_by_prefix s :
  exists suf, s = rstrip_by p s ++ suf /\ forallb p suf = true.
Proof.
  induction s as [|c s (suf & IH & Hp)].
  - now exists [].
  - rewrite rstrip_by_cons. destruct (rstrip_by p s) as [|y r] eqn:E.
    + simpl in IH. subst suf. destruct (p c) eqn:Ec.
      * exists (c :: s). simpl. now rewrite Ec.
      * exists s. now split.
    + exists suf. split; [|exact Hp]. simpl. now rewrite IH at 1.
Qed.

Lemma rstrip_by_last s pre c : rstrip_by p s = pre ++ [c] -> p c = false.
Proof.
  revert pre; induction s as [|x s IH]; intros pre.
  - destruct pre; discriminate.
  - rewrite rstrip_by_cons. destruct (rstrip_by p s) as [|y r] eqn:E.
    + destruct (p x) eqn:Ex.
      * destruct pre; discriminate.
      * destruct pre as [|? [|? ?]]; try discriminate.
        intros H; injection H as <-; exact Ex.
    + destruct pre as [|z pre]; [discriminate|].
      intros H; injection H as _ H. now apply (IH pre).
Qed.

Lemma rstrip_by_idem s : rstrip_by p (rstrip_by p s) = rstrip_by p s.
Proof.
  induction s as [|c s IH]; [reflexivity|].
  rewrite rstrip_by_cons. destruct (rstrip_by p s) as [|y r] eqn:E.
  - destruct (p c) eqn:Ec; simpl; now rewrite ?Ec.
  - rewrite rstrip_by_cons, IH. reflexivity.
Qed.

(** Stripping on the right keeps the first code point, if any is kept. *)
Lemma rstrip_by_head s :
  match rstrip_by p s with
  | [] => True
  | c :: _ => exists r, s = c :: r
  end.
Proof.
  destruct s as [|x s]; [exact I|].
  rewrite rstrip_by_cons. destruct (rstrip_by p s); [destruct (p x)|]; simpl; eauto.
Qed.

Lemma rstrip_by_noop s :
  (forall pre c, s = pre ++ [c] -> p c = false) -> rstrip_by p s = s.
Proof.
  induction s as [|x s IH]; intros H; [reflexivity|].
  rewrite rstrip_by_cons. destruct s as [|y s].
  - simpl. now rewrite (H [] x eq_refl).
  - rewrite IH.
    + reflexivity.
    + intros pre c E. apply (H (x :: pre) c). simpl. now rewrite E.
Qed.

Lemma Forall_lstrip_by (Q : char -> Prop) s :
  Forall Q s -> Forall Q (lstrip_by p s).
Proof.
  destruct (lstrip_by_suffix s) as [pre E]. intros H.
  rewrite E in H. now apply Forall_app in H.
Qed.

Lemma Forall_rstrip_by (Q : char -> Prop) s :
  Forall Q s -> Forall Q (rstrip_by p s).
Proof.
  destruct (rstrip_by_prefix s) as (suf & E & _). intros H.
  rewrite E in H. now apply Forall_app in H.
Qed.

End Strip.

Lemma strip_head s c r : strip s = c :: r -> isspace c = false.
Proof.
  unfold strip. intros H.
  pose proof (rstrip_by_head isspace (lstrip_by isspace s)) as Hh.
  rewrite H in Hh. destruct Hh as [r' Hr]. now apply lstrip_by_head in Hr.
Qed.

Lemma strip_last s pre c : strip s = pre ++ [c] -> isspace c = false.
Proof. unfold strip. apply rstrip_by_last. Qed.

Lemma strip_idem s : strip (strip s) = strip s.
Proof.
  unfold strip at 1. rewrite lstrip_by_noop.
  - unfold strip. apply rstrip_by_idem.
  - destruct (strip s) eqn:E; [exact I|]. now apply strip_head in E.
Qed.

Lemma Forall_strip (Q : char -> Prop) s : Forall Q s -> Forall Q (strip s).
Proof. intros H. now apply Forall_rstrip_by, Forall_lstrip_by. Qed.

End PyFacts.

(* ===================================================================== *)
(** * [clean_text] *)
(* ===================================================================== *)

Module CleanFacts.
Import Py PyFacts TextProcessor Notions.

Lemma sub_space_runs_plain b s : plain_spaces (Re.sub_space_runs b s).
Proof.
  revert b; induction s as [|c s IH]; intros b; simpl.
  - constructor.
  - destruct (isspace c) eqn:E.
    + destruct b; [apply IH|]. constructor; [reflexivity|apply IH].
    + constructor; [|apply IH]. intros H. congruence.
Qed.

Lemma sub_space_runs_tight s : starts_tight (Re.sub_space_runs true s).
Proof.
  induction s as [|c s IH]; simpl; [exact I|].
  destruct (isspace c) eqn:E; [exact IH|exact E].
Qed.

Lemma sub_space_runs_no_run b s :
  Spec.no_space_run (Re.sub_space_runs b s) = true.
Proof.
  revert b; induction s as [|c s IH]; intros b; [reflexivity|].
  simpl. destruct (isspace c) eqn:E.
  - destruct b; [apply IH|].
    pose proof (sub_space_runs_tight s) as Ht. specialize (IH true).
    destruct (Re.sub_space_runs true s) as [|d r]; [reflexivity|].
    simpl in Ht. change (Spec.no_space_run (32%N :: d :: r))
      with (negb (isspace 32%N && isspace d) && Spec.no_space_run (d :: r)).
    rewrite Ht, IH. reflexivity.
  - specialize (IH false).
    destruct (Re.sub_space_runs false s) as [|d r]; [reflexivity|].
    change (Spec.no_space_run (c :: d :: r))
      with (negb (isspace c && isspace d) && Spec.no_space_run (d :: r)).
    rewrite E, IH. reflexivity.
Qed.

(** A text without whitespace runs whose whitespace is plain is left as
    it is by the first substitution. *)
Lemma sub_space_runs_fixed b s :
  (b = true -> starts_tight s) ->
  Spec.no_space_run s = true -> plain_spaces s ->
  Re.sub_space_runs b s = s.
Proof.
  revert b; induction s as [|c s IH]; intros b Hb Hrun Hplain; [reflexivity|].
  simpl. inversion Hplain as [|? ? Hc Hs]; subst.
  assert (Hrun' : Spec.no_space_run s = true).
  { destruct s; [reflexivity|]. simpl in Hrun.
    apply andb_true_iff in Hrun. apply Hrun. }
  destruct (isspace c) eqn:E.
  - destruct b.
    + specialize (Hb eq_refl). simpl in Hb. congruence.
    + rewrite (Hc eq_refl). f_equal. apply IH; auto.
      intros _. destruct s as [|d s]; [exact I|]. simpl in *.
      rewrite E in Hrun. destruct (isspace d); [discriminate|reflexivity].
  - f_equal. apply IH; auto. discriminate.
Qed.

Lemma no_space_run_app a b :
  Spec.no_space_run (a ++ b) = true ->
  Spec.no_space_run a = true /\ Spec.no_space_run b = true.
Proof.
  induction a as [|c a IH]; intros H; [now split|].
  destruct a as [|d a].
  - split; [reflexivity|]. destruct b; [reflexivity|].
    simpl in H. apply andb_true_iff in H. apply H.
  - change (negb (isspace c && isspace d)
            && Spec.no_space_run ((d :: a) ++ b) = true) in H.
    apply andb_true_iff in H. destruct H as [H1 H2].
    destruct (IH H2) as [Ha Hb]. split; [|exact Hb].
    change (negb (isspace c && isspace d) && Spec.no_space_run (d :: a) = true).
    now rewrite H1, Ha.
Qed.

Lemma no_space_run_strip s :
  Spec.no_space_run s = true -> Spec.no_space_run (strip s) = true.
Proof.
  intros H. unfold strip.
  destruct (lstrip_by_suffix isspace s) as [pre E].
  rewrite E in H. apply no_space_run_app in H. destruct H as [_ H].
  destruct (rstrip_by_prefix isspace (lstrip_by isspace s)) as (suf & E' & _).
  rewrite E' in H. apply no_space_run_app in H. apply H.
Qed.

Section WithTables.
Context {C : Collaborators}.

Lemma kept_sub_space_runs b s :
  forallb (Re.kept uni_alnum) s = true ->
  forallb (Re.kept uni_alnum) (Re.sub_space_runs b s) = true.
Proof.
  revert b; induction s as [|c s IH]; intros b H; [reflexivity|].
  simpl in H. apply andb_true_iff in H. destruct H as [Hc Hs].
  simpl. destruct (isspace c).
  - destruct b; [now apply IH|]. simpl. now apply IH.
  - simpl. rewrite Hc. now apply IH.
Qed.

Lemma filter_all (A : Type) (f : A -> bool) (l : list A) :
  forallb f l = true -> filter f l = l.
Proof.
  induction l as [|x l IH]; simpl; [reflexivity|].
  intros H. apply andb_true_iff in H. destruct H as [-> H].
  f_equal. now apply IH.
Qed.

Lemma clean_text_plain s : plain_spaces (clean_text s).
Proof.
  unfold clean_text, Re.sub_not_kept. apply Forall_strip.
  pose proof (sub_space_runs_plain false s) as H.
  unfold plain_spaces in *. rewrite Forall_forall in *.
  intros c Hc. apply filter_In in Hc. now apply H.
Qed.

Lemma clean_text_kept s : Forall (fun c => Re.kept uni_alnum c = true) (clean_text s).
Proof.
  unfold clean_text, Re.sub_not_kept. apply Forall_strip.
  rewrite Forall_forall. intros c Hc. now apply filter_In in Hc.
Qed.

(** On a text made of kept code points only, the second substitution
    removes nothing. *)
Lemma clean_text_of_kept s :
  forallb (Re.kept uni_alnum) s = true ->
  clean_text s = strip (Re.sub_space_runs false s).
Proof.
  intros H. unfold clean_text, Re.sub_not_kept.
  now rewrite filter_all by now apply kept_sub_space_runs.
Qed.

End WithTables.

End CleanFacts.

(** C10, as the code has it.  The output of [clean_text] holds only word
    characters, the plain space and [. , ! ? -], and neither starts nor
    ends with whitespace.  When the input itself holds no character that
    the second substitution removes, the output moreover has no run of
    whitespace and [clean_text] leaves it unchanged.  (A removed character
    that stood between two spaces leaves both spaces behind, so neither
    holds for every input.) *)
Theorem clean_text_normal_form {C : Collaborators} (s : Py.str) :
  Forall (fun c => Py.isword uni_alnum c || (c =? 32)%N || Re.kept_punct c = true)
         (TextProcessor.clean_text s)
  /\ (forall c r, TextProcessor.clean_text s = c :: r -> Py.isspace c = false)
  /\ (forall pre c, TextProcessor.clean_text s = pre ++ [c] -> Py.isspace c = false)
  /\ (forallb (Re.kept uni_alnum) s = true ->
      Spec.no_space_run (TextProcessor.clean_text s) = true
      /\ TextProcessor.clean_text (TextProcessor.clean_text s)
         = TextProcessor.clean_text s).
Proof.
  split; [|split; [|split]].
  - pose proof (CleanFacts.clean_text_plain s) as Hp.
    pose proof (CleanFacts.clean_text_kept s) as Hk.
    unfold Notions.plain_spaces in Hp. rewrite Forall_forall in *.
    intros c Hc. specialize (Hp c Hc). specialize (Hk c Hc).
    unfold Re.kept in Hk. destruct (Py.isword uni_alnum c); [reflexivity|].
    destruct (Py.isspace c) eqn:E.
    + rewrite (Hp eq_refl). reflexivity.
    + simpl in Hk. rewrite Hk. apply orb_true_r.
  - intros c r. apply PyFacts.strip_head.
  - intros pre c. apply PyFacts.strip_last.
  - intros Hs. rewrite (CleanFacts.clean_text_of_kept s Hs).
    set (u := Py.strip (Re.sub_space_runs false s)).
    assert (Hrun : Spec.no_space_run u = true)
      by apply CleanFacts.no_space_run_strip, CleanFacts.sub_space_runs_no_run.
    split; [exact Hrun|].
    assert (Hkept : forallb (Re.kept uni_alnum) u = true).
    { unfold u. rewrite <- (CleanFacts.clean_text_of_kept s Hs).
      apply forallb_forall. apply Forall_forall, CleanFacts.clean_text_kept. }
    rewrite (CleanFacts.clean_text_of_kept u Hkept).
    rewrite CleanFacts.sub_space_runs_fixed.
    + apply PyFacts.strip_idem.
    + discriminate.
    + exact Hrun.
    + apply PyFacts.Forall_strip, CleanFacts.sub_space_runs_plain.
Qed.

(** C10 at ["a - b"]: all of its characters are kept, so the cleaned text
    has no whitespace run and is a fixed point. *)
Lemma clean_text_normal_form_witness :
  Spec.no_space_run (TextProcessor.clean_text (C := Demo.stub) (Py.lit "a  -  b ")) = true
  /\ TextProcessor.clean_text (C := Demo.stub)
       (TextProcessor.clean_text (C := Demo.stub) (Py.lit "a  -  b "))
     = TextProcessor.clean_text (C := Demo.stub) (Py.lit "a  -  b ").
Proof.
  exact (proj2 (proj2 (proj2
    (clean_text_normal_form (C := Demo.stub) (Py.lit "a  -  b ")))) eq_refl).
Defined.

(** C10 as stated fails at ["a @ b"]: removing [@] leaves the two spaces
    around it, so the output has a whitespace run, and cleaning it again
    gives a different text. *)
Lemma clean_text_not_idempotent :
  (forall C : Collaborators,
     TextProcessor.clean_text (Py.lit "a @ b") = Py.lit "a  b")
  /\ (forall C : Collaborators,
        TextProcessor.clean_text (Py.lit "a  b") = Py.lit "a b")
  /\ Spec.no_space_run (Py.lit "a  b") = false
  /\ Py.lit "a  b" <> Py.lit "a b".
Proof.
  repeat split; try reflexivity. discriminate.
Qed.

(* ===================================================================== *)
(** * [split_sentences] after [clean_text], against the specification *)
(* ===================================================================== *)

Module SegmentFacts.
Import Py PyFacts TextProcessor Notions.

Lemma isspace_not_sentence_end c : isspace c = true -> Re.sentence_end c = false.
Proof.
  unfold Re.sentence_end. intros H.
  destruct (N.eqb_spec c 46) as [->|_]; [discriminate|].
  destruct (N.eqb_spec c 33) as [->|_]; [discriminate|].
  destruct (N.eqb_spec c 63) as [->|_]; [discriminate|reflexivity].
Qed.

Lemma split_sentence_ends_nonempty b t : Re.split_sentence_ends b t <> [].
Proof.
  revert b; induction t as [|c t IH]; intros b; simpl; [discriminate|].
  destruct (Re.sentence_end c).
  - destruct b; [apply IH|discriminate].
  - destruct (Re.split_sentence_ends false t); discriminate.
Qed.

Lemma split_sentence_ends_cons b c t :
  Re.split_sentence_ends b (c :: t) =
  if Re.sentence_end c then
    if b then Re.split_sentence_ends true t
    else [] :: Re.split_sentence_ends true t
  else
    match Re.split_sentence_ends false t with
    | piece :: pieces => (c :: piece) :: pieces
    | [] => [[c]]
    end.
Proof. reflexivity. Qed.

(** A text that is not empty does not split into the single empty piece. *)
Lemma split_sentence_ends_not_blank c t :
  Re.split_sentence_ends false (c :: t) <> [[]].
Proof.
  simpl. destruct (Re.sentence_end c).
  - pose proof (split_sentence_ends_nonempty true t).
    destruct (Re.split_sentence_ends true t); congruence.
  - destruct (Re.split_sentence_ends false t); discriminate.
Qed.

Lemma lstrip_space_cons c s : isspace c = true -> strip (c :: s) = strip s.
Proof. unfold strip. simpl. now intros ->. Qed.

(** Trimming the text on the left only trims the first piece. *)
Lemma split_after_lstrip t :
  map strip (Re.split_sentence_ends false (lstrip_by isspace t))
  = map strip (Re.split_sentence_ends false t).
Proof.
  induction t as [|c t IH]; [reflexivity|].
  simpl lstrip_by. destruct (isspace c) eqn:E; [|reflexivity].
  rewrite IH. simpl. rewrite (isspace_not_sentence_end c E).
  pose proof (split_sentence_ends_nonempty false t) as Hne.
  destruct (Re.split_sentence_ends false t) as [|piece pieces]; [congruence|].
  simpl. now rewrite lstrip_space_cons.
Qed.

Lemma map_last_cons (A : Type) (f : A -> A) x l :
  l <> [] -> map_last f (x :: l) = x :: map_last f l.
Proof. destruct l; [congruence|reflexivity]. Qed.

Lemma map_last_single_inv (A : Type) (f : A -> A) l y :
  map_last f l = [y] -> exists x, l = [x] /\ f x = y.
Proof.
  destruct l as [|x [|x' l]]; simpl; try discriminate.
  - intros H; injection H as <-. now exists x.
  - destruct l; discriminate.
Qed.

(** Trimming the text on the right only trims the last piece. *)
Lemma split_after_rstrip b t :
  Re.split_sentence_ends b (rstrip_by isspace t)
  = map_last (rstrip_by isspace) (Re.split_sentence_ends b t).
Proof.
  revert b; induction t as [|c t IH]; intros b; [reflexivity|].
  rewrite rstrip_by_cons, (split_sentence_ends_cons b c t).
  destruct (rstrip_by isspace t) as [|y r] eqn:Er.
  - (* nothing but whitespace follows *)
    assert (Hone : forall b', exists x,
               Re.split_sentence_ends b' t = [x] /\ rstrip_by isspace x = []).
    { intros b'. apply map_last_single_inv. symmetry. apply IH. }
    destruct (isspace c) eqn:Ec.
    + rewrite (isspace_not_sentence_end c Ec).
      destruct (Hone false) as (x & -> & Hx). simpl.
      now rewrite Hx, Ec.
    + destruct (Re.sentence_end c) eqn:Ed.
      * destruct (Hone true) as (x & -> & Hx).
        destruct b; simpl; now rewrite Ed, Hx.
      * destruct (Hone false) as (x & -> & Hx). simpl. now rewrite Ed, Hx, Ec.
  - rewrite split_sentence_ends_cons. destruct (Re.sentence_end c).
    + rewrite (IH true). destruct b; [reflexivity|].
      now rewrite map_last_cons by apply split_sentence_ends_nonempty.
    + pose proof (IH false) as IHf. rewrite IHf.
      pose proof (split_sentence_ends_nonempty false t) as Hne.
      destruct (Re.split_sentence_ends false t) as [|piece pieces]; [congruence|].
      destruct pieces as [|p pieces]; [|reflexivity].
      simpl. destruct (rstrip_by isspace piece) eqn:Ep; [|reflexivity].
      exfalso. simpl in IHf. rewrite Ep in IHf.
      now apply split_sentence_ends_not_blank in IHf.
Qed.

Lemma lstrip_rstrip_comm p s :
  lstrip_by p (rstrip_by p s) = rstrip_by p (lstrip_by p s).
Proof.
  induction s as [|c s IH]; [reflexivity|].
  rewrite rstrip_by_cons. simpl lstrip_by at 2.
  destruct (p c) eqn:Ec.
  - rewrite <- IH. destruct (rstrip_by p s); simpl; now rewrite ?Ec.
  - rewrite rstrip_by_cons.
    destruct (rstrip_by p s); simpl; now rewrite Ec.
Qed.

Lemma strip_rstrip s : strip (rstrip_by isspace s) = strip s.
Proof.
  unfold strip. now rewrite lstrip_rstrip_comm, rstrip_by_idem.
Qed.

Lemma map_strip_map_last l :
  map strip (map_last (rstrip_by isspace) l) = map strip l.
Proof.
  induction l as [|x l IH]; [reflexivity|].
  destruct l as [|y l].
  - simpl. now rewrite strip_rstrip.
  - rewrite map_last_cons by discriminate.
    rewrite (map_cons strip x), (map_cons strip x (y :: l)).
    f_equal. exact IH.
Qed.

(** Trimming the whole text before splitting is not seen once every piece
    is trimmed. *)
Lemma split_after_strip t :
  map strip (Re.split_sentence_ends false (strip t))
  = map strip (Re.split_sentence_ends false t).
Proof.
  unfold strip at 2.
  now rewrite split_after_rstrip, map_strip_map_last, split_after_lstrip.
Qed.

(** Dropping the pieces that trim to nothing is subsumed by any later
    filter that rejects the empty string. *)
Lemma filter_after_nonempty (q : str -> bool) l :
  q [] = false ->
  filter q (map strip (filter (fun s => nonempty (strip s)) l))
  = filter q (map strip l).
Proof.
  intros Hq. induction l as [|x l IH]; [reflexivity|].
  simpl. destruct (strip x) as [|c r] eqn:E; simpl.
  - now rewrite Hq.
  - rewrite E, IH. reflexivity.
Qed.

End SegmentFacts.

(* ===================================================================== *)
(** * The steps of the specification and the calls of the code *)
(* ===================================================================== *)

Module SpecFacts.
Import Py PyFacts TextProcessor.

(** ** Maximal runs *)

Lemma runs_cons p c rest :
  Spec.runs p (c :: rest) =
  match Spec.runs p rest with
  | (b, block) :: more =>
      if Bool.eqb (p c) b then (b, c :: block) :: more
      else (p c, [c]) :: (b, block) :: more
  | [] => [(p c, [c])]
  end.
Proof. reflexivity. Qed.

(** The first block is the block of the first code point. *)
Lemma runs_head p c rest :
  exists block more, Spec.runs p (c :: rest) = (p c, c :: block) :: more.
Proof.
  rewrite runs_cons. destruct (Spec.runs p rest) as [|[b block] more]; [eauto|].
  destruct (Bool.eqb (p c) b) eqn:E; [|eauto].
  apply Bool.eqb_prop in E. subst b. eauto.
Qed.

Lemma runs_nil_inv p s : Spec.runs p s = [] -> s = [].
Proof.
  destruct s as [|c rest]; [reflexivity|].
  destruct (runs_head p c rest) as (block & more & ->). discriminate.
Qed.

Lemma runs_ext p q s : (forall c, p c = q c) -> Spec.runs p s = Spec.runs q s.
Proof.
  intros H. induction s as [|c rest IH]; [reflexivity|].
  now rewrite !runs_cons, IH, H.
Qed.

Lemma runs_maximal p s : Spec.maximal_runs p s (Spec.runs p s).
Proof.
  unfold Spec.maximal_runs. induction s as [|c rest (IH1 & IH2 & IH3)].
  - repeat split. constructor.
  - rewrite runs_cons. destruct (Spec.runs p rest) as [|[b block] more] eqn:E.
    + apply runs_nil_inv in E. subst rest. repeat split.
      constructor; [|constructor]. split; [discriminate|].
      simpl. now rewrite Bool.eqb_reflx.
    + simpl in IH1. pose proof (Forall_inv IH2) as [Hne Hall].
      pose proof (Forall_inv_tail IH2) as Hmore.
      simpl in Hne, Hall. destruct (Bool.eqb (p c) b) eqn:Eb.
      * split; [simpl; now rewrite IH1|]. split.
        -- constructor; [|exact Hmore]. split; [discriminate|].
           simpl. now rewrite Eb, Hall.
        -- exact IH3.
      * split; [simpl; now rewrite IH1|]. split.
        -- constructor; [|exact IH2]. split; [discriminate|].
           simpl. now rewrite Bool.eqb_reflx.
        -- change (negb (Bool.eqb (p c) b)
                   && Spec.alternating ((b, block) :: more) = true).
           now rewrite Eb, IH3.
Qed.

(** The maximal runs are determined by these properties. *)
Lemma maximal_runs_unique p s : forall blocks,
  Spec.maximal_runs p s blocks -> blocks = Spec.runs p s.
Proof.
  induction s as [|c rest IH]; intros blocks (Hcat & Hall & Halt).
  - destruct blocks as [|[b blk] more]; [reflexivity|].
    pose proof (Forall_inv Hall) as [Hne _]. simpl in Hne, Hcat.
    destruct blk; [congruence|discriminate].
  - destruct blocks as [|[b blk] more]; [discriminate|].
    pose proof (Forall_inv Hall) as [Hne Hcls].
    pose proof (Forall_inv_tail Hall) as Hmore.
    simpl in Hne, Hcls, Hcat.
    destruct blk as [|c0 blk']; [congruence|].
    simpl in Hcat. injection Hcat as -> Hrest.
    simpl in Hcls. apply andb_true_iff in Hcls. destruct Hcls as [Hc Hblk'].
    apply Bool.eqb_prop in Hc. rewrite runs_cons.
    destruct blk' as [|c2 blk''].
    + assert (Hm : more = Spec.runs p rest).
      { apply IH. split; [exact Hrest|]. split; [exact Hmore|].
        destruct more as [|r more']; [reflexivity|].
        simpl in Halt. apply andb_true_iff in Halt. apply Halt. }
      rewrite <- Hm. destruct more as [|[b' blk2] more']; [now rewrite Hc|].
      simpl in Halt. apply andb_true_iff in Halt. destruct Halt as [Hd _].
      rewrite Hc. apply negb_true_iff in Hd. now rewrite Hd.
    + assert (Hm : (b, c2 :: blk'') :: more = Spec.runs p rest).
      { apply IH. split; [exact Hrest|]. split; [|exact Halt].
        constructor; [|exact Hmore]. split; [discriminate|exact Hblk']. }
      rewrite <- Hm, Hc, Bool.eqb_reflx. reflexivity.
Qed.

(** ** Collapsing whitespace *)

Lemma sub_space_runs_runs s :
  let f := fun r : bool * str => if fst r then [32%N] else snd r in
  Re.sub_space_runs false s = concat (map f (Spec.runs isspace s))
  /\ Re.sub_space_runs true s
     = concat (map f match Spec.runs isspace s with
                     | (true, _) :: more => more
                     | blocks => blocks
                     end).
Proof.
  intros f. induction s as [|c rest [IHf IHt]]; [split; reflexivity|].
  rewrite runs_cons. cbn [Re.sub_space_runs].
  destruct (isspace c) eqn:Ec.
  - rewrite IHt.
    destruct (Spec.runs isspace rest) as [|[[|] block] more]; split; reflexivity.
  - rewrite IHf.
    destruct (Spec.runs isspace rest) as [|[[|] block] more]; split; reflexivity.
Qed.

Lemma collapse_sub_space_runs s : Spec.collapse s = Re.sub_space_runs false s.
Proof. symmetry. apply sub_space_runs_runs. Qed.

(** ** The characters that are kept, and the delimiters *)

Lemma allowed_kept {C : Collaborators} c : Spec.allowed c = Re.kept uni_alnum c.
Proof.
  unfold Spec.allowed, Re.kept, Re.kept_punct. simpl existsb.
  now rewrite orb_false_r, !orb_assoc.
Qed.

Lemma delimiter_sentence_end c : Spec.delimiter c = Re.sentence_end c.
Proof.
  unfold Spec.delimiter, Re.sentence_end. simpl existsb.
  now rewrite orb_false_r, !orb_assoc.
Qed.

(** ** Splitting *)

(** The first piece of the split is the first block when that is no run
    of delimiters, and empty otherwise; the other pieces that are not
    empty are the other blocks outside the delimiters. *)
Lemma split_sentence_ends_runs t :
  (exists pieces,
      Re.split_sentence_ends false t
      = match Spec.runs Re.sentence_end t with
        | (false, block) :: _ => block
        | _ => []
        end :: pieces
      /\ filter nonempty pieces
         = Spec.outside match Spec.runs Re.sentence_end t with
                        | (false, _) :: more => more
                        | blocks => blocks
                        end)
  /\ filter nonempty (Re.split_sentence_ends true t)
     = Spec.outside (Spec.runs Re.sentence_end t).
Proof.
  induction t as [|c t ((pieces & E & Hp) & IHt)].
  - split; [exists []; split; reflexivity|reflexivity].
  - rewrite !SegmentFacts.split_sentence_ends_cons, runs_cons.
    destruct (Re.sentence_end c) eqn:Ec.
    + split.
      * exists (Re.split_sentence_ends true t). rewrite IHt.
        destruct (Spec.runs Re.sentence_end t) as [|[[|] block] more];
          split; reflexivity.
      * rewrite IHt.
        destruct (Spec.runs Re.sentence_end t) as [|[[|] block] more];
          reflexivity.
    + rewrite E.
      assert (H : exists pieces',
                 (c :: match Spec.runs Re.sentence_end t with
                       | (false, block) :: _ => block
                       | _ => []
                       end) :: pieces
                 = match
                     match Spec.runs Re.sentence_end t with
                     | (b, block) :: more =>
                         if Bool.eqb false b then (b, c :: block) :: more
                         else (false, [c]) :: (b, block) :: more
                     | [] => [(false, [c])]
                     end
                   with
                   | (false, block) :: _ => block
                   | _ => []
                   end :: pieces'
                 /\ filter nonempty pieces'
                    = Spec.outside
                        match
                          match Spec.runs Re.sentence_end t with
                          | (b, block) :: more =>
                              if Bool.eqb false b then (b, c :: block) :: more
                              else (false, [c]) :: (b, block) :: more
                          | [] => [(false, [c])]
                          end
                        with
                        | (false, _) :: more => more
                        | blocks => blocks
                        end).
      { exists pieces. rewrite Hp.
        destruct (Spec.runs Re.sentence_end t) as [|[[|] block] more];
          split; reflexivity. }
      split; [exact H|].
      cbn [filter nonempty]. rewrite Hp.
      destruct (Spec.runs Re.sentence_end t) as [|[[|] block] more];
        reflexivity.
Qed.

Lemma fragments_split t :
  Spec.fragments t = filter nonempty (Re.split_sentence_ends false t).
Proof.
  unfold Spec.fragments.
  rewrite (runs_ext _ _ t delimiter_sentence_end).
  destruct (split_sentence_ends_runs t) as ((pieces & -> & Hp) & _).
  pose proof (runs_maximal Re.sentence_end t) as (_ & Hall & _).
  destruct (Spec.runs Re.sentence_end t) as [|[[|] block] more].
  - simpl. now rewrite Hp.
  - simpl. now rewrite Hp.
  - inversion Hall as [|? ? [Hne _] _]; subst. simpl in Hne.
    destruct block; [congruence|]. simpl. now rewrite Hp.
Qed.

(** ** Trimming *)

Lemma drop_spaces_lstrip s : Spec.drop_spaces s = lstrip_by isspace s.
Proof. induction s as [|c s IH]; simpl; [reflexivity|now rewrite IH]. Qed.

Lemma lstrip_by_snoc p l c :
  lstrip_by p (l ++ [c]) =
  match lstrip_by p l with
  | [] => if p c then [] else [c]
  | r => r ++ [c]
  end.
Proof.
  induction l as [|x l IH]; [reflexivity|].
  simpl. destruct (p x); [exact IH|reflexivity].
Qed.

Lemma rstrip_by_rev p s : rstrip_by p s = rev (lstrip_by p (rev s)).
Proof.
  induction s as [|c s IH]; [reflexivity|].
  rewrite rstrip_by_cons. simpl rev. rewrite lstrip_by_snoc.
  assert (E : lstrip_by p (rev s) = rev (rstrip_by p s))
    by (rewrite IH; now rewrite rev_involutive).
  rewrite E. destruct (rstrip_by p s) as [|y r].
  - simpl. now destruct (p c).
  - destruct (rev (y :: r)) eqn:Er.
    + apply (f_equal (@length char)) in Er. rewrite length_rev in Er.
      discriminate.
    + rewrite <- Er, rev_app_distr, rev_involutive. reflexivity.
Qed.

Lemma trim_strip s : Spec.trim s = strip s.
Proof.
  unfold Spec.trim, strip.
  now rewrite !drop_spaces_lstrip, rstrip_by_rev.
Qed.

(** What is trimmed off stands around what is left. *)
Lemma trim_part s : exists before after, s = before ++ Spec.trim s ++ after.
Proof.
  rewrite trim_strip. unfold strip.
  destruct (lstrip_by_suffix isspace s) as (before & Hb).
  destruct (rstrip_by_prefix isspace (lstrip_by isspace s)) as (after & Ha & _).
  exists before, after. rewrite <- Ha. exact Hb.
Qed.

(** ** Tokens *)

Lemma split_runs s : split s = Spec.tokens s.
Proof.
  unfold Spec.tokens. induction s as [|c rest IH]; [reflexivity|].
  cbn [split]. destruct (isspace c) eqn:Ec.
  - rewrite IH, runs_cons.
    destruct (Spec.runs isspace rest) as [|[[|] block] more];
      rewrite ?Ec; reflexivity.
  - destruct rest as [|c' rest']; [now rewrite runs_cons; simpl; rewrite Ec|].
    rewrite IH. rewrite (runs_cons isspace c (c' :: rest')).
    destruct (runs_head isspace c' rest') as (block & more & ->).
    rewrite Ec. destruct (isspace c'); reflexivity.
Qed.

(** ** Order *)

Lemma in_order_prefix l : forall before text,
  Spec.in_order l text -> Spec.in_order l (before ++ text).
Proof.
  intros before text H. destruct H as [text|s rest b a Hrest].
  - constructor.
  - rewrite app_assoc. now constructor.
Qed.

Lemma in_order_tail s l text :
  Spec.in_order (s :: l) text -> Spec.in_order l text.
Proof.
  intros H. inversion H as [|? ? b a Hrest]; subst.
  rewrite app_assoc. now apply in_order_prefix.
Qed.

Lemma in_order_outside blocks :
  Spec.in_order (Spec.outside blocks) (concat (map snd blocks)).
Proof.
  induction blocks as [|[[|] block] more IH]; [constructor| |].
  - simpl concat. now apply in_order_prefix.
  - change (Spec.in_order (block :: Spec.outside more)
                          ([] ++ block ++ concat (map snd more))).
    now constructor.
Qed.

(** Taking a part of every sentence and leaving sentences out keeps the
    order. *)
Lemma in_order_map_filter (f : str -> str) (q : str -> bool) :
  (forall s, exists before after, s = before ++ f s ++ after) ->
  forall l text,
    Spec.in_order l text -> Spec.in_order (filter q (map f l)) text.
Proof.
  intros Hf l text H. induction H as [text|s rest b a Hrest IH]; [constructor|].
  cbn [map filter]. destruct (q (f s)).
  - destruct (Hf s) as (before & after & Hs). rewrite Hs at 2.
    rewrite <- !app_assoc, (app_assoc b before).
    constructor. now apply in_order_prefix.
  - rewrite app_assoc. now apply in_order_prefix.
Qed.

(** ** The segmenter *)

Lemma filter_skips_empty (q : str -> bool) l :
  q [] = false ->
  filter q (map strip (filter nonempty l)) = filter q (map strip l).
Proof.
  intros Hq. induction l as [|x l IH]; [reflexivity|].
  destruct x as [|c x]; cbn [filter nonempty map].
  - change (strip []) with (@nil char). now rewrite Hq.
  - now rewrite IH.
Qed.

Section WithCollaborators.
Context {C : Collaborators}.

Lemma segment_pipeline raw :
  Spec.segment raw
  = filter (fun s => 3 <=? length (split s))
           (map strip (Re.split_sentence_ends false
                         (filter (Re.kept uni_alnum)
                                 (Re.sub_space_runs false raw)))).
Proof.
  unfold Spec.segment, Spec.strip_chars. cbv zeta.
  rewrite collapse_sub_space_runs, (filter_ext _ _ allowed_kept).
  rewrite fragments_split.
  rewrite (map_ext _ _ trim_strip).
  rewrite (filter_ext (fun s => negb (length (Spec.tokens s) <? 3))
                      (fun s => 3 <=? length (split s))).
  - now apply filter_skips_empty.
  - intros s. rewrite split_runs. symmetry. apply Nat.leb_antisym.
Qed.

Lemma segment_in_order raw :
  Spec.in_order (Spec.segment raw) (Spec.strip_chars (Spec.collapse raw)).
Proof.
  unfold Spec.segment. cbv zeta.
  apply in_order_map_filter; [exact trim_part|].
  unfold Spec.fragments.
  pose proof (runs_maximal Spec.delimiter
                (Spec.strip_chars (Spec.collapse raw))) as (E & _).
  rewrite <- E at 2. apply in_order_outside.
Qed.

End WithCollaborators.
End SpecFacts.

(** C6.  [split_sentences] after [clean_text] returns what the steps of
    Section 4.1 give when each is carried out as it is worded, on the
    maximal runs of the text: every run of whitespace replaced by one
    space, the characters outside word characters, whitespace and
    [. , ! ? -] removed, the fragments between the runs of [. ! ?] taken,
    each trimmed, and those of fewer than three tokens dropped.  The
    sentences stand in the cleaned text one after the other, in the order
    in which they are returned.  Every returned sentence has at least three
    tokens, and ["Hi there."] yields no sentence. *)
Theorem segmenter_follows_spec {C : Collaborators} :
  (forall raw : Py.str,
      TextProcessor.split_sentences (TextProcessor.clean_text raw)
      = Spec.segment raw)
  /\ (forall p s blocks,
         Spec.maximal_runs p s blocks <-> blocks = Spec.runs p s)
  /\ (forall raw : Py.str,
         Spec.in_order
           (TextProcessor.split_sentences (TextProcessor.clean_text raw))
           (Spec.strip_chars (Spec.collapse raw)))
  /\ (forall raw : Py.str,
         Forall (fun s => 3 <= length (Py.split s))
                (TextProcessor.split_sentences (TextProcessor.clean_text raw)))
  /\ TextProcessor.split_sentences (TextProcessor.clean_text (Py.lit "Hi there."))
     = []
  /\ TextProcessor.split_sentences
       (TextProcessor.clean_text
          (Py.lit "Revenue grew" ++ [9%N; 10%N; 32%N]
           ++ Py.lit "sharply!!  Costs   also (grew)?! No way."))
     = [Py.lit "Revenue grew sharply"; Py.lit "Costs also grew"].
Proof.
  assert (Hseg : forall raw : Py.str,
             TextProcessor.split_sentences (TextProcessor.clean_text raw)
             = Spec.segment raw).
  { intros raw.
    unfold TextProcessor.split_sentences, TextProcessor.clean_text,
      Re.sub_not_kept.
    rewrite SegmentFacts.filter_after_nonempty by reflexivity.
    rewrite SegmentFacts.split_after_strip.
    symmetry. apply SpecFacts.segment_pipeline. }
  split; [exact Hseg|]. split; [|split; [|split; [|split]]].
  - intros p s blocks. split.
    + apply SpecFacts.maximal_runs_unique.
    + intros ->. apply SpecFacts.runs_maximal.
  - intros raw. rewrite Hseg. apply SpecFacts.segment_in_order.
  - intros raw. apply Forall_forall. intros s Hs.
    unfold TextProcessor.split_sentences in Hs.
    apply filter_In in Hs. destruct Hs as [_ Hs].
    now apply Nat.leb_le in Hs.
  - reflexivity.
  - reflexivity.
Qed.

(* ===================================================================== *)
(** * [_shorten_sentence] *)
(* ===================================================================== *)

(** C5.  With at most six tokens, [_shorten_sentence] returns the sentence
    with its trailing [. , ! ?] stripped: what is cut off is a suffix made
    of these characters only, and what is left does not end in one.  With
    more than six tokens it returns the first six tokens joined by single
    spaces, followed by the ellipsis ["..."]. *)
Theorem shorten_sentence_cases (sentence : Py.str) :
  let words := Py.split sentence in
  let title := TextProcessor._shorten_sentence sentence 6 in
  (length words <= 6 ->
   title = Py.rstrip (Py.lit ".,!?") sentence
   /\ (exists cut, sentence = title ++ cut
                   /\ forallb (fun c => existsb (N.eqb c) (Py.lit ".,!?")) cut = true)
   /\ (forall pre c, title = pre ++ [c] ->
                     existsb (N.eqb c) (Py.lit ".,!?") = false))
  /\ (6 < length words ->
      title = Py.join (Py.lit " ") (firstn 6 words) ++ Py.lit "..."
      /\ length (firstn 6 words) = 6).
Proof.
  intros words title. subst title. unfold TextProcessor._shorten_sentence.
  fold words. split; intros Hlen.
  - replace (Z.of_nat (length words) <=? 6)%Z with true
      by (symmetry; apply Z.leb_le; lia).
    split; [reflexivity|]. unfold Py.rstrip. split.
    + destruct (PyFacts.rstrip_by_prefix
                  (fun c => existsb (N.eqb c) (Py.lit ".,!?")) sentence)
        as (cut & E & Hcut).
      exists cut. now split.
    + intros pre c. apply PyFacts.rstrip_by_last.
  - replace (Z.of_nat (length words) <=? 6)%Z with false
      by (symmetry; apply Z.leb_gt; lia).
    unfold Py.slice_to. replace (6 <? 0)%Z with false by reflexivity.
    rewrite Z.min_l by lia. change (Z.to_nat 6) with 6.
    split; [reflexivity|]. apply firstn_length_le. lia.
Qed.

(** C5 on a five-token and on an eight-token sentence. *)
Lemma shorten_sentence_cases_witness :
  TextProcessor._shorten_sentence (Py.lit "Costs also grew a lot!?") 6
  = Py.lit "Costs also grew a lot"
  /\ TextProcessor._shorten_sentence
       (Py.lit "one two  three four five six seven eight.") 6
     = Py.lit "one two three four five six...".
Proof.
  split.
  - exact (proj1 (proj1 (shorten_sentence_cases (Py.lit "Costs also grew a lot!?"))
                        ltac:(vm_compute; lia))).
  - exact (proj1 (proj2 (shorten_sentence_cases
                           (Py.lit "one two  three four five six seven eight."))
                        ltac:(vm_compute; lia))).
Defined.

(* ===================================================================== *)
(** * [cluster_sentences]: the grouping loop in closed form *)
(* ===================================================================== *)

Module ClusterFacts.
Import Py TextProcessor Notions.

Lemma skipn_nth_error (A : Type) (l : list A) i x :
  nth_error l i = Some x -> skipn i l = x :: skipn (S i) l.
Proof.
  revert i; induction l as [|y l IH]; intros [|i] H; try discriminate.
  - now injection H as ->.
  - simpl in H. apply IH in H. exact H.
Qed.

Lemma group_loop_fold all m :
  max_of all = Ok m ->
  forall labels sentences idx clusters,
    length labels + idx = length sentences ->
    group_loop all sentences idx labels clusters
    = Ok (fold_left add_sentence
                    (combine (map (relabel m) labels) (skipn idx sentences))
                    clusters).
Proof.
  intros Hm. induction labels as [|label labels IH]; intros sentences idx clusters Hlen.
  - reflexivity.
  - simpl in Hlen. simpl group_loop. rewrite Hm.
    assert (Hl : (if (label =? -1)%Z
                  then bind (Ok m) (fun m0 => Ok (m0 + 1)%Z)
                  else Ok label) = Ok (relabel m label)).
    { unfold relabel. now destruct (label =? -1)%Z. }
    rewrite Hl. simpl bind.
    destruct (nth_error sentences idx) as [s|] eqn:Es.
    + unfold getitem. rewrite Es. simpl bind.
      rewrite IH by lia. rewrite (skipn_nth_error _ _ Es). reflexivity.
    + apply nth_error_None in Es. lia.
Qed.

(** ** Every sentence is filed exactly once *)

Lemma append_at_concat label s clusters :
  contains label clusters = true ->
  Permutation (concat (map snd (append_at label s clusters)))
              (s :: concat (map snd clusters)).
Proof.
  induction clusters as [|[k v] clusters IH]; simpl; [discriminate|].
  destruct (k =? label)%Z; simpl.
  - intros _. rewrite <- app_assoc. simpl.
    rewrite <- Permutation_middle. reflexivity.
  - intros H. rewrite (IH H). symmetry. apply Permutation_middle.
Qed.

Lemma contains_app label a b :
  contains label (a ++ b) = contains label a || contains label b.
Proof. apply existsb_app. Qed.

Lemma add_sentence_concat clusters p :
  Permutation (concat (map snd (add_sentence clusters p)))
              (snd p :: concat (map snd clusters)).
Proof.
  unfold add_sentence. destruct (contains (fst p) clusters) eqn:E.
  - now apply append_at_concat.
  - rewrite append_at_concat.
    + rewrite map_app, concat_app. simpl. now rewrite app_nil_r.
    + rewrite contains_app. simpl. rewrite Z.eqb_refl. now rewrite orb_true_r.
Qed.

Lemma fold_add_sentence_concat pairs clusters :
  Permutation (concat (map snd (fold_left add_sentence pairs clusters)))
              (concat (map snd clusters) ++ map snd pairs).
Proof.
  revert clusters; induction pairs as [|p pairs IH]; intros clusters; simpl.
  - now rewrite app_nil_r.
  - rewrite IH, add_sentence_concat. simpl.
    apply Permutation_middle.
Qed.

(** ** The dict the loop builds *)

Lemma select_cons_same l s rest : select l ((l, s) :: rest) = s :: select l rest.
Proof. unfold select. simpl. now rewrite Z.eqb_refl. Qed.

Lemma select_cons_other k l s rest :
  (l =? k)%Z = false -> select k ((l, s) :: rest) = select k rest.
Proof. unfold select. simpl. now intros ->. Qed.

Lemma contains_In k acc : contains k acc = true <-> In k (map fst acc).
Proof.
  unfold contains. rewrite existsb_exists, in_map_iff. split.
  - intros (kv & Hin & E). apply Z.eqb_eq in E. now exists kv.
  - intros (kv & E & Hin). exists kv. split; [exact Hin|]. now apply Z.eqb_eq.
Qed.

Lemma contains_not_In k acc : contains k acc = false <-> ~ In k (map fst acc).
Proof.
  rewrite <- contains_In. destruct (contains k acc); split; congruence.
Qed.

Lemma map_fst_append_at l s acc : map fst (append_at l s acc) = map fst acc.
Proof.
  induction acc as [|[k v] acc IH]; [reflexivity|].
  simpl. destruct (k =? l)%Z; simpl; [reflexivity|now rewrite IH].
Qed.

Lemma contains_append_at k l s acc :
  contains k (append_at l s acc) = contains k acc.
Proof.
  destruct (contains k acc) eqn:E.
  - apply contains_In. rewrite map_fst_append_at. now apply contains_In.
  - apply contains_not_In. rewrite map_fst_append_at. now apply contains_not_In.
Qed.

Lemma append_at_fresh l s v acc :
  contains l acc = false ->
  append_at l s (acc ++ [(l, v)]) = acc ++ [(l, v ++ [s])].
Proof.
  induction acc as [|[k w] acc IH]; simpl.
  - now rewrite Z.eqb_refl.
  - destruct (k =? l)%Z; simpl; [discriminate|]. intros H. now rewrite IH.
Qed.

Lemma extend_other l s rest acc :
  contains l acc = false ->
  map (extend ((l, s) :: rest)) acc = map (extend rest) acc.
Proof.
  intros Hc. apply map_ext_in. intros [k v] Hin. unfold extend. simpl.
  rewrite select_cons_other; [reflexivity|].
  apply Z.eqb_neq. intros ->. apply contains_not_In in Hc. apply Hc.
  apply in_map_iff. now exists (k, v).
Qed.

Lemma append_at_extend l s rest acc :
  NoDup (map fst acc) -> contains l acc = true ->
  map (extend rest) (append_at l s acc) = map (extend ((l, s) :: rest)) acc.
Proof.
  induction acc as [|[k v] acc IH]; simpl; [discriminate|].
  intros Hnd Hc. inversion Hnd as [|? ? Hk Hacc]; subst.
  destruct (k =? l)%Z eqn:E.
  - apply Z.eqb_eq in E. subst k. simpl.
    rewrite extend_other by now apply contains_not_In.
    f_equal. unfold extend. simpl.
    now rewrite select_cons_same, <- app_assoc.
  - simpl in Hc. simpl. rewrite IH by assumption. f_equal.
    unfold extend. simpl. rewrite select_cons_other; [reflexivity|].
    now rewrite Z.eqb_sym.
Qed.

Lemma filter_filter (A : Type) (f g : A -> bool) l :
  filter f (filter g l) = filter (fun x => g x && f x) l.
Proof.
  induction l as [|x l IH]; [reflexivity|].
  simpl. destruct (g x); simpl; [destruct (f x)|]; now rewrite IH.
Qed.

Lemma NoDup_add_sentence acc p :
  NoDup (map fst acc) -> NoDup (map fst (add_sentence acc p)).
Proof.
  intros H. unfold add_sentence. rewrite map_fst_append_at.
  destruct (contains (fst p) acc) eqn:E; [exact H|].
  rewrite map_app. simpl. apply NoDup_app; [exact H|repeat constructor; auto|].
  intros x Hx [<-|[]]. apply contains_not_In in E. auto.
Qed.

Lemma fold_add_sentence_closed pairs :
  forall acc, NoDup (map fst acc) ->
    fold_left add_sentence pairs acc
    = map (extend pairs) acc
      ++ map (fun k => (k, select k pairs))
             (filter (fun k => negb (contains k acc))
                     (first_seen (map fst pairs))).
Proof.
  induction pairs as [|[l s] rest IH]; intros acc Hnd.
  - simpl. rewrite app_nil_r. symmetry. rewrite <- (map_id acc) at 2.
    apply map_ext. intros [k v]. unfold extend. simpl. now rewrite app_nil_r.
  - simpl fold_left. rewrite IH by now apply NoDup_add_sentence.
    unfold add_sentence. simpl fst. simpl snd. simpl map at 4. simpl first_seen.
    destruct (contains l acc) eqn:Ec.
    + rewrite append_at_extend by assumption. f_equal.
      simpl filter. rewrite Ec. simpl. rewrite filter_filter.
      rewrite (filter_ext (fun k => negb (contains k (append_at l s acc)))
                          (fun x => negb (x =? l)%Z && negb (contains x acc))).
      * apply map_ext_in. intros k Hk. apply filter_In in Hk.
        destruct Hk as [_ Hk]. apply andb_true_iff in Hk. destruct Hk as [Hk _].
        rewrite select_cons_other; [reflexivity|].
        rewrite Z.eqb_sym. now destruct (k =? l)%Z.
      * intros k. rewrite contains_append_at.
        destruct (k =? l)%Z eqn:E; [|reflexivity].
        apply Z.eqb_eq in E. subst k. now rewrite Ec.
    + rewrite append_at_fresh by assumption.
      rewrite map_app, <- app_assoc. rewrite extend_other by assumption.
      f_equal. simpl filter. rewrite Ec. simpl.
      unfold extend at 1. simpl. rewrite select_cons_same. f_equal.
      rewrite filter_filter.
      rewrite (filter_ext (fun k => negb (contains k (acc ++ [(l, [] ++ [s])])))
                          (fun x => negb (x =? l)%Z && negb (contains x acc))).
      * apply map_ext_in. intros k Hk. apply filter_In in Hk.
        destruct Hk as [_ Hk]. apply andb_true_iff in Hk. destruct Hk as [Hk _].
        rewrite select_cons_other; [reflexivity|].
        rewrite Z.eqb_sym. now destruct (k =? l)%Z.
      * intros k. rewrite contains_app. simpl. rewrite orb_false_r.
        rewrite (Z.eqb_sym l k).
        destruct (k =? l)%Z, (contains k acc); reflexivity.
Qed.

Lemma filter_true (A : Type) (l : list A) : filter (fun _ => true) l = l.
Proof. induction l; simpl; congruence. Qed.

(** From an empty dict the loop builds [grouped]. *)
Lemma fold_add_sentence_grouped pairs :
  fold_left add_sentence pairs [] = grouped pairs.
Proof.
  rewrite fold_add_sentence_closed by constructor.
  simpl. unfold grouped. now rewrite filter_true.
Qed.

Lemma map_fst_combine (A B : Type) (a : list A) (b : list B) :
  length a = length b -> map fst (combine a b) = a.
Proof.
  revert b; induction a as [|x a IH]; intros [|y b] H; try discriminate.
  - reflexivity.
  - simpl. f_equal. apply IH. now injection H.
Qed.

Lemma map_snd_combine (A B : Type) (a : list A) (b : list B) :
  length a = length b -> map snd (combine a b) = b.
Proof.
  revert b; induction a as [|x a IH]; intros [|y b] H; try discriminate.
  - reflexivity.
  - simpl. f_equal. apply IH. now injection H.
Qed.

Lemma first_seen_In k ks : In k (first_seen ks) <-> In k ks.
Proof.
  induction ks as [|j ks IH]; simpl; [tauto|].
  rewrite filter_In, IH. destruct (Z.eq_dec j k) as [->|Hne].
  - tauto.
  - split; [tauto|]. intros [H|H]; [tauto|]. right. split; [exact H|].
    apply negb_true_iff, Z.eqb_neq. congruence.
Qed.

Lemma first_seen_NoDup ks : NoDup (first_seen ks).
Proof.
  induction ks as [|j ks IH]; simpl; constructor.
  - rewrite filter_In. intros [_ H]. now rewrite Z.eqb_refl in H.
  - now apply NoDup_filter.
Qed.

Lemma grouped_keys pairs : map fst (grouped pairs) = first_seen (map fst pairs).
Proof.
  unfold grouped. rewrite map_map. simpl. apply map_id.
Qed.

Lemma grouped_In k v pairs :
  In (k, v) (grouped pairs) <-> In k (map fst pairs) /\ v = select k pairs.
Proof.
  unfold grouped. rewrite in_map_iff. split.
  - intros (j & E & Hj). injection E as -> <-. split; [|reflexivity].
    now apply first_seen_In.
  - intros [Hk ->]. exists k. split; [reflexivity|]. now apply first_seen_In.
Qed.

Lemma fold_max_ge rest : forall l, (l <= fold_left Z.max rest l)%Z
                                   /\ Forall (fun x => (x <= fold_left Z.max rest l)%Z) rest.
Proof.
  induction rest as [|x rest IH]; intros l; simpl.
  - split; [lia|constructor].
  - destruct (IH (Z.max l x)) as [H1 H2]. split; [lia|].
    constructor; [lia|exact H2].
Qed.

Lemma max_of_bound labels m :
  max_of labels = Ok m -> Forall (fun x => (x <= m)%Z) labels.
Proof.
  destruct labels as [|l rest]; simpl; [discriminate|].
  intros H. injection H as <-. destruct (fold_max_ge rest l). now constructor.
Qed.

Lemma max_of_nonempty (l : Z) rest : exists m, max_of (l :: rest) = Ok m.
Proof. simpl. eauto. Qed.

(** Under [relabel], the key [m + 1] collects exactly the noise. *)
Lemma select_noise m labels : forall sentences,
  Forall (fun x => (x <= m)%Z) labels ->
  select (m + 1) (combine (map (relabel m) labels) sentences)
  = select (-1) (combine labels sentences).
Proof.
  induction labels as [|l labels IH]; intros [|s sentences] Hb; try reflexivity.
  inversion Hb as [|? ? Hl Hrest]; subst. simpl combine.
  unfold relabel at 1. destruct (l =? -1)%Z eqn:E.
  - apply Z.eqb_eq in E. subst l.
    rewrite !select_cons_same. f_equal. now apply IH.
  - rewrite !select_cons_other; [now apply IH|exact E|apply Z.eqb_neq; lia].
Qed.

(** A regular label keeps its sentences. *)
Lemma select_regular m k labels : forall sentences,
  Forall (fun x => (x <= m)%Z) labels -> k <> (m + 1)%Z -> k <> (-1)%Z ->
  select k (combine (map (relabel m) labels) sentences)
  = select k (combine labels sentences).
Proof.
  induction labels as [|l labels IH]; intros [|s sentences] Hb Hk Hk'; try reflexivity.
  inversion Hb as [|? ? Hl Hrest]; subst. simpl combine.
  unfold relabel at 1. destruct (l =? -1)%Z eqn:E.
  - apply Z.eqb_eq in E. subst l.
    rewrite !select_cons_other; [now apply IH| |]; apply Z.eqb_neq; congruence.
  - destruct (l =? k)%Z eqn:El.
    + apply Z.eqb_eq in El. subst l. rewrite !select_cons_same. f_equal. now apply IH.
    + rewrite !select_cons_other by assumption. now apply IH.
Qed.

Section WithCollaborators.
Context {C : Collaborators}.

(** With two sentences or more and one label per sentence, the method
    returns the closed form of the loop. *)
Lemma cluster_sentences_grouped sentences embeddings n_clusters c :
  2 <= length sentences ->
  fst (cluster_sentences sentences embeddings n_clusters) = [c] ->
  length (fit_predict c embeddings) = length sentences ->
  exists m,
    max_of (fit_predict c embeddings) = Ok m
    /\ snd (cluster_sentences sentences embeddings n_clusters)
       = Ok (grouped (combine (map (relabel m) (fit_predict c embeddings))
                              sentences)).
Proof.
  intros Hn Hc Hlen. unfold cluster_sentences in *.
  destruct (length sentences <? 2) eqn:E; [apply Nat.ltb_lt in E; lia|].
  simpl in Hc. injection Hc as Hc. simpl snd. rewrite Hc.
  destruct (fit_predict c embeddings) as [|l rest] eqn:El;
    [simpl in Hlen; lia|].
  destruct (max_of_nonempty l rest) as [m Hm]. exists m. split; [exact Hm|].
  rewrite (@group_loop_fold _ _ Hm) by (rewrite Nat.add_0_r; exact Hlen).
  simpl skipn. now rewrite fold_add_sentence_grouped.
Qed.

End WithCollaborators.

End ClusterFacts.



(** C8.  When the clusterer returns one label per sentence, the sentences
    labelled [-1] are filed, in text order, under the single key
    [max(labels) + 1], which is no label of the clusterer; no key occurs
    twice, and every input sentence is in some cluster. *)
Theorem noise_kept_in_extra_cluster {C : Collaborators}
        (sentences : list Py.str) (embeddings : list row)
        (n_clusters : option Z) (c : clusterer) :
  2 <= length sentences ->
  fst (TextProcessor.cluster_sentences sentences embeddings n_clusters) = [c] ->
  length (fit_predict c embeddings) = length sentences ->
  let labels := fit_predict c embeddings in
  let noise := Notions.select (-1) (combine labels sentences) in
  exists m clusters,
    TextProcessor.max_of labels = Py.Ok m
    /\ snd (TextProcessor.cluster_sentences sentences embeddings n_clusters)
       = Py.Ok clusters
    /\ ~ In (m + 1)%Z labels
    /\ NoDup (map fst clusters)
    /\ (In (-1)%Z labels -> In ((m + 1)%Z, noise) clusters)
    /\ (forall s, In s sentences ->
                  exists k v, In (k, v) clusters /\ In s v).
Proof.
  intros Hn Hc Hlen labels noise.
  destruct (ClusterFacts.cluster_sentences_grouped _ _ _ Hn Hc Hlen)
    as (m & Hm & Hres).
  fold labels in Hm, Hres, Hlen.
  exists m, (Notions.grouped
               (combine (map (Notions.relabel m) labels) sentences)).
  pose proof (ClusterFacts.max_of_bound _ Hm) as Hb.
  assert (Hlen' : length (map (Notions.relabel m) labels) = length sentences)
    by now rewrite length_map.
  split; [exact Hm|]. split; [exact Hres|]. split; [|split; [|split]].
  - intros Hin. rewrite Forall_forall in Hb. specialize (Hb _ Hin). lia.
  - rewrite ClusterFacts.grouped_keys. apply ClusterFacts.first_seen_NoDup.
  - intros Hin. apply ClusterFacts.grouped_In. split.
    + rewrite ClusterFacts.map_fst_combine by exact Hlen'.
      apply in_map_iff. exists (-1)%Z. split; [reflexivity|exact Hin].
    + unfold noise. symmetry. now apply ClusterFacts.select_noise.
  - intros s Hs.
    rewrite <- (ClusterFacts.map_snd_combine _ _ Hlen') in Hs.
    apply in_map_iff in Hs. destruct Hs as ([k s'] & E & Hin). simpl in E. subst s'.
    exists k, (Notions.select k
                 (combine (map (Notions.relabel m) labels) sentences)).
    split.
    + apply ClusterFacts.grouped_In. split; [|reflexivity].
      apply in_map_iff. now exists (k, s).
    + unfold Notions.select. apply in_map_iff. exists (k, s).
      split; [reflexivity|]. apply filter_In. split; [exact Hin|].
      apply Z.eqb_refl.
Qed.

(** C8 on four sentences of which HDBSCAN (the stand-in) labels the first
    and the last as noise: labels [-1; 0; 1; -1], so the noise goes under
    key 2. *)
Lemma noise_kept_in_extra_cluster_witness :
  let C := Demo.stub in
  let sentences := [Py.lit "a b c"; Py.lit "Revenue grew sharply";
                    Py.lit "Costs also grew"; Py.lit "x y z"] in
  let embeddings := TextProcessor.generate_embeddings sentences in
  let labels := fit_predict (HDBSCAN 2 "euclidean") embeddings in
  exists m clusters,
    TextProcessor.max_of labels = Py.Ok m
    /\ snd (TextProcessor.cluster_sentences sentences embeddings None)
       = Py.Ok clusters
    /\ ~ In (m + 1)%Z labels
    /\ NoDup (map fst clusters)
    /\ (In (-1)%Z labels ->
        In ((m + 1)%Z, Notions.select (-1) (combine labels sentences))
           clusters)
    /\ (forall s, In s sentences ->
                  exists k v, In (k, v) clusters /\ In s v).
Proof.
  intros C sentences embeddings labels.
  exact (@noise_kept_in_extra_cluster C sentences embeddings None
           (HDBSCAN 2 "euclidean") ltac:(simpl; lia) eq_refl eq_refl).
Defined.

(* ===================================================================== *)
(** * Title and bullet synthesis *)
(* ===================================================================== *)

Module SynthesisFacts.
Import Py TextProcessor Notions.

Lemma traverse_getitem (A : Type) (d : A) (xs : list A) (idxs : list nat) :
  Forall (fun i => i < length xs) idxs ->
  traverse (getitem xs) idxs = Ok (map (fun i => nth i xs d) idxs).
Proof.
  induction 1 as [|i idxs Hi _ IH]; [reflexivity|].
  simpl. unfold getitem at 1.
  destruct (nth_error xs i) as [x|] eqn:E.
  - simpl. rewrite IH. simpl. now rewrite (nth_error_nth _ _ d E).
  - apply nth_error_None in E. lia.
Qed.

Lemma traverse_raise (A B : Type) (f : A -> result B) pre x post e :
  (forall y, In y pre -> exists b, f y = Ok b) ->
  f x = Raise e ->
  traverse f (pre ++ x :: post) = Raise e.
Proof.
  intros Hpre Hx. induction pre as [|y pre IH]; simpl.
  - now rewrite Hx.
  - destruct (Hpre y (or_introl eq_refl)) as [b ->]. simpl.
    rewrite IH; [reflexivity|]. intros z Hz. apply Hpre. now right.
Qed.

(** A lookup beyond the list makes the comprehension raise. *)
Lemma traverse_getitem_raise (A : Type) (xs : list A) (idxs : list nat) :
  Exists (fun i => length xs <= i) idxs ->
  traverse (getitem xs) idxs = Raise IndexError.
Proof.
  induction idxs as [|i idxs IH]; intros H; [inversion H|].
  simpl. unfold getitem at 1.
  destruct (nth_error xs i) as [x|] eqn:E; [|reflexivity].
  simpl. inversion H as [? ? Hi|? ? Hrest]; subst.
  - apply nth_error_None in Hi. congruence.
  - now rewrite (IH Hrest).
Qed.

Lemma StronglySorted_app_inv (A : Type) (R : A -> A -> Prop) a b :
  StronglySorted R (a ++ b) ->
  StronglySorted R a /\ StronglySorted R b
  /\ (forall x y, In x a -> In y b -> R x y).
Proof.
  induction a as [|x a IH]; simpl; intros H.
  - repeat split; [constructor|exact H|intros ? ? []].
  - inversion H as [|? ? Hs Hall]; subst.
    destruct (IH Hs) as (Ha & Hb & Hab).
    apply Forall_app in Hall. destruct Hall as [Hxa Hxb].
    repeat split; [now constructor|exact Hb|].
    intros x' y [<-|Hx'] Hy; [|now apply Hab].
    rewrite Forall_forall in Hxb. now apply Hxb.
Qed.

Lemma StronglySorted_snoc (A : Type) (R : A -> A -> Prop) l x :
  StronglySorted R l -> Forall (fun y => R y x) l ->
  StronglySorted R (l ++ [x]).
Proof.
  induction 1 as [|y l Hs IH Hy]; intros Hall; simpl.
  - repeat constructor.
  - inversion Hall; subst. constructor; [now apply IH|].
    apply Forall_app. split; [exact Hy|now repeat constructor].
Qed.

Lemma StronglySorted_rev (A : Type) (R : A -> A -> Prop) l :
  StronglySorted R l -> StronglySorted (fun x y => R y x) (rev l).
Proof.
  induction 1 as [|x l Hs IH Hx]; simpl; [constructor|].
  apply StronglySorted_snoc; [exact IH|].
  apply Forall_rev. exact Hx.
Qed.

Lemma slice_from_last (A : Type) (k : Z) (xs : list A) :
  (1 <= k <= Z.of_nat (length xs))%Z ->
  slice_from (- k) xs = skipn (length xs - Z.to_nat k) xs.
Proof.
  intros H. unfold slice_from.
  replace (- k <? 0)%Z with true by (symmetry; apply Z.ltb_lt; lia).
  f_equal. lia.
Qed.

Section WithCollaborators.
Context {C : Collaborators}.

Lemma argmax_from_bound scores : forall best_idx best idx,
  best_idx < idx ->
  argmax_from best_idx best idx scores < idx + length scores.
Proof.
  induction scores as [|x rest IH]; intros best_idx best idx H; simpl.
  - lia.
  - destruct (score_ltb best x).
    + specialize (IH idx x (S idx)). lia.
    + specialize (IH best_idx best (S idx)). lia.
Qed.

Lemma argmax_bound scores i : argmax scores = Ok i -> i < length scores.
Proof.
  destruct scores as [|x rest]; simpl; [discriminate|].
  intros H. injection H as <-.
  pose proof (@argmax_from_bound rest 0 x 1). lia.
Qed.

(** [process_text] past its early return. *)
Lemma process_text_nonempty text :
  split_sentences (clean_text text) <> [] ->
  process_text text =
  let sentences := split_sentences (clean_text text) in
  let embeddings := generate_embeddings sentences in
  bind (snd (cluster_sentences sentences embeddings None)) (fun clusters =>
  bind (traverse (make_topic sentences embeddings) clusters) (fun topics =>
  Ok {| topics := sort_topics topics;
        slide_count := length (sort_topics topics) + 2;
        total_sentences := length sentences |})).
Proof.
  intros H. unfold process_text.
  destruct (split_sentences (clean_text text)); [congruence|reflexivity].
Qed.

End WithCollaborators.
End SynthesisFacts.

(** C4, as the code has it.  A cluster of at most [max_bullets] sentences
    is returned unchanged.  For [1 <= max_bullets < len(sentences)], one
    score per sentence and an [argsort] that orders every position by
    ascending score, [rank_bullets] returns exactly [max_bullets]
    sentences, at distinct positions, in an order in which no sentence
    scores strictly below a later one, and no sentence left out scores
    strictly above a selected one.  The default [max_bullets] is 5. *)
Theorem rank_bullets_top {C : Collaborators}
        (sentences : list Py.str) (embeddings : list row) (max_bullets : Z) :
  Config.MAX_BULLETS_PER_SLIDE = 5%Z
  /\ ((Z.of_nat (length sentences) <= max_bullets)%Z ->
      TextProcessor.rank_bullets sentences embeddings max_bullets
      = Py.Ok sentences)
  /\ (forall scores,
         (1 <= max_bullets < Z.of_nat (length sentences))%Z ->
         centroid_similarity embeddings = Py.Ok scores ->
         length scores = length sentences ->
         Notions.argsort_spec scores (argsort scores) ->
         exists top,
           TextProcessor.rank_bullets sentences embeddings max_bullets
           = Py.Ok (map (fun i => nth i sentences []) top)
           /\ Z.of_nat (length top) = max_bullets
           /\ NoDup top
           /\ Forall (fun i => i < length sentences) top
           /\ StronglySorted (Notions.not_below scores) top
           /\ (forall i j, In i top -> j < length sentences -> ~ In j top ->
                           Notions.not_below scores i j)).
Proof.
  split; [reflexivity|]. unfold TextProcessor.rank_bullets. split.
  - intros H. apply Z.leb_le in H. now rewrite H.
  - intros scores Hk Hsim Hlen [Hperm Hsorted].
    replace (Z.of_nat (length sentences) <=? max_bullets)%Z with false
      by (symmetry; apply Z.leb_gt; lia).
    rewrite Hsim. simpl Py.bind.
    set (order := argsort scores) in *.
    assert (Hlo : length order = length sentences).
    { rewrite (Permutation_length Hperm), length_seq. exact Hlen. }
    rewrite SynthesisFacts.slice_from_last by lia.
    set (cut := length order - Z.to_nat max_bullets).
    assert (Hsplit : order = firstn cut order ++ skipn cut order)
      by (symmetry; apply firstn_skipn).
    assert (Hnd : NoDup order).
    { apply (Permutation_NoDup (Permutation_sym Hperm)), seq_NoDup. }
    assert (Hin : forall i, In i order <-> i < length sentences).
    { intros i. split; intros Hi.
      - apply (Permutation_in _ Hperm) in Hi. apply in_seq in Hi. lia.
      - apply (Permutation_in _ (Permutation_sym Hperm)). apply in_seq. lia. }
    rewrite Hsplit in Hsorted, Hnd.
    apply SynthesisFacts.StronglySorted_app_inv in Hsorted.
    destruct Hsorted as (_ & Hlast & Hcross).
    exists (rev (skipn cut order)).
    assert (Hsub : forall i, In i (rev (skipn cut order)) -> In i order).
    { intros i Hi. apply in_rev in Hi. rewrite Hsplit. apply in_or_app. now right. }
    split; [|split; [|split; [|split; [|split]]]].
    + apply SynthesisFacts.traverse_getitem. apply Forall_forall.
      intros i Hi. now apply Hin, Hsub.
    + rewrite length_rev, length_skipn. unfold cut. lia.
    + apply NoDup_rev. now apply NoDup_app_remove_l in Hnd.
    + apply Forall_forall. intros i Hi. now apply Hin, Hsub.
    + now apply SynthesisFacts.StronglySorted_rev in Hlast.
    + intros i j Hi Hj Hnot. apply Hcross.
      * apply Hin in Hj. rewrite Hsplit in Hj. apply in_app_or in Hj.
        destruct Hj as [Hj|Hj]; [exact Hj|]. exfalso. apply Hnot.
        now apply in_rev in Hj.
      * now apply in_rev in Hi.
Qed.

(** C4 on seven sentences scored 3 9 1 7 5 8 2 with [max_bullets = 5]:
    the bullets are the sentences at positions 1 5 3 4 0. *)
Lemma rank_bullets_top_witness :
  let C := Demo.stub in
  let sentences := [Py.lit "s0"; Py.lit "s1"; Py.lit "s2"; Py.lit "s3";
                    Py.lit "s4"; Py.lit "s5"; Py.lit "s6"] in
  let scores := [3; 9; 1; 7; 5; 8; 2]%Z in
  exists top,
    TextProcessor.rank_bullets sentences scores 5
    = Py.Ok (map (fun i => nth i sentences []) top)
    /\ Z.of_nat (length top) = 5%Z
    /\ NoDup top
    /\ Forall (fun i => i < length sentences) top
    /\ StronglySorted (Notions.not_below scores) top
    /\ (forall i j, In i top -> j < length sentences -> ~ In j top ->
                    Notions.not_below scores i j).
Proof.
  intros C sentences scores.
  refine (proj2 (proj2 (@rank_bullets_top C sentences scores 5)) scores
                _ eq_refl eq_refl _).
  - simpl. lia.
  - split.
    + apply NoDup_Permutation.
      * repeat (constructor; [simpl; intuition discriminate|]). constructor.
      * apply seq_NoDup.
      * intros x. simpl. tauto.
    + repeat constructor; intros a b Ha Hb; cbv in Ha, Hb;
        injection Ha as <-; injection Hb as <-; reflexivity.
Defined.

(** C4 as stated fails at [max_bullets = 0]: the slice [[-0:]] is the
    whole array, so both sentences of a two-sentence cluster come back. *)
Lemma rank_bullets_zero_bullets :
  TextProcessor.rank_bullets (C := Demo.stub)
    [Py.lit "a b c"; Py.lit "d e f g"] [5; 7]%Z 0
  = Py.Ok [Py.lit "d e f g"; Py.lit "a b c"].
Proof. reflexivity. Qed.

(** C9, as the code has it.  A malformed cluster is not rejected as such.
    An empty cluster has the title ["Topic"] and no bullets; one sentence
    gives its shortened text as title and at most [max_bullets] sentences
    are returned as bullets, whatever the matrix is.  With two sentences
    or more [generate_topic_title] raises exactly when the similarity
    kernel raises, when it returns no score ([argmax] of an empty array),
    or when the best position is none of the sentence list ([IndexError]);
    with more than [max_bullets] sentences [rank_bullets] raises exactly
    when the kernel raises or one of the selected positions is none of the
    sentence list.  [make_topic] raises exactly when the selection of the
    rows, the title or the bullets raises, and [process_text] raises what
    the first such cluster raised. *)
Theorem synthesis_on_malformed_cluster {C : Collaborators}
        (sentences : list Py.str) (embeddings : list row) (max_bullets : Z) :
  let title := TextProcessor.generate_topic_title sentences embeddings in
  let bullets := TextProcessor.rank_bullets sentences embeddings max_bullets in
  (sentences = [] -> title = Py.Ok (Py.lit "Topic"))
  /\ (forall s, sentences = [s] ->
                title = Py.Ok (TextProcessor._shorten_sentence s 6))
  /\ ((Z.of_nat (length sentences) <= max_bullets)%Z ->
      bullets = Py.Ok sentences)
  /\ (2 <= length sentences ->
      (forall e, centroid_similarity embeddings = Py.Raise e ->
                 title = Py.Raise e)
      /\ (centroid_similarity embeddings = Py.Ok [] ->
          title = Py.Raise Py.ValueError)
      /\ (forall scores i,
             centroid_similarity embeddings = Py.Ok scores ->
             TextProcessor.argmax scores = Py.Ok i ->
             (length sentences <= i -> title = Py.Raise Py.IndexError)
             /\ (forall s, nth_error sentences i = Some s ->
                           title = Py.Ok (TextProcessor._shorten_sentence s 6))))
  /\ ((max_bullets < Z.of_nat (length sentences))%Z ->
      (forall e, centroid_similarity embeddings = Py.Raise e ->
                 bullets = Py.Raise e)
      /\ (forall scores,
             centroid_similarity embeddings = Py.Ok scores ->
             let top := rev (Py.slice_from (- max_bullets) (argsort scores)) in
             (Exists (fun i => length sentences <= i) top ->
              bullets = Py.Raise Py.IndexError)
             /\ (Forall (fun i => i < length sentences) top ->
                 bullets = Py.Ok (map (fun i => nth i sentences []) top))))
  /\ (forall all_sentences all_embeddings cluster_id,
         let positions := TextProcessor.indices_in sentences 0 all_sentences in
         let made :=
           TextProcessor.make_topic all_sentences all_embeddings
                                    (cluster_id, sentences) in
         (Exists (fun i => length all_embeddings <= i) positions ->
          made = Py.Raise Py.IndexError)
         /\ (Py.traverse (Py.getitem all_embeddings) positions
             = Py.Ok embeddings ->
             (forall e, title = Py.Raise e -> made = Py.Raise e)
             /\ (forall t e,
                    title = Py.Ok t ->
                    TextProcessor.rank_bullets sentences embeddings
                      Config.MAX_BULLETS_PER_SLIDE = Py.Raise e ->
                    made = Py.Raise e)
             /\ (forall t bs,
                    title = Py.Ok t ->
                    TextProcessor.rank_bullets sentences embeddings
                      Config.MAX_BULLETS_PER_SLIDE = Py.Ok bs ->
                    made = Py.Ok {| TextProcessor.id := cluster_id;
                                    TextProcessor.title := t;
                                    TextProcessor.bullets := bs;
                                    TextProcessor.sentence_count :=
                                      length sentences |})))
  /\ (forall text clusters before entry after e,
         let all_sentences :=
           TextProcessor.split_sentences (TextProcessor.clean_text text) in
         let all_embeddings :=
           TextProcessor.generate_embeddings all_sentences in
         all_sentences <> [] ->
         snd (TextProcessor.cluster_sentences all_sentences all_embeddings None)
         = Py.Ok clusters ->
         clusters = before ++ entry :: after ->
         (forall y, In y before ->
                    exists t,
                      TextProcessor.make_topic all_sentences all_embeddings y
                      = Py.Ok t) ->
         TextProcessor.make_topic all_sentences all_embeddings entry
         = Py.Raise e ->
         TextProcessor.process_text text = Py.Raise e).
Proof.
  intros title bullets.
  split; [intros ->; reflexivity|].
  split; [intros s ->; reflexivity|].
  split.
  { intros Hk. subst bullets. unfold TextProcessor.rank_bullets.
    apply Z.leb_le in Hk. now rewrite Hk. }
  split.
  { intros Hn. subst title.
    destruct sentences as [|s1 [|s2 rest]]; simpl in Hn; try lia.
    unfold TextProcessor.generate_topic_title.
    split; [intros e ->; reflexivity|].
    split; [intros ->; reflexivity|].
    intros scores i -> Ha. simpl Py.bind. rewrite Ha. simpl Py.bind.
    unfold Py.getitem. split.
    - intros Hi. apply nth_error_None in Hi. now rewrite Hi.
    - intros s ->. reflexivity. }
  split.
  { intros Hk. subst bullets. unfold TextProcessor.rank_bullets.
    replace (Z.of_nat (length sentences) <=? max_bullets)%Z with false
      by (symmetry; apply Z.leb_gt; lia).
    split; [intros e ->; reflexivity|].
    intros scores ->. simpl Py.bind. split.
    - apply SynthesisFacts.traverse_getitem_raise.
    - apply SynthesisFacts.traverse_getitem. }
  split.
  { intros all_sentences all_embeddings cluster_id positions made.
    subst made. unfold TextProcessor.make_topic. fold positions. split.
    - intros Hex.
      now rewrite (SynthesisFacts.traverse_getitem_raise _ Hex).
    - intros ->. simpl Py.bind. fold title. split; [|split].
      + intros e ->. reflexivity.
      + intros t e -> ->. reflexivity.
      + intros t bs -> ->. reflexivity. }
  intros text clusters before entry after e all_sentences all_embeddings
         Hne Hcl Hsplit Hbefore Hentry.
  subst all_embeddings. subst all_sentences.
  rewrite SynthesisFacts.process_text_nonempty by exact Hne.
  cbv zeta. rewrite Hcl. simpl Py.bind. rewrite Hsplit.
  now rewrite (SynthesisFacts.traverse_raise _ _ _ _ Hbefore Hentry).
Qed.

(** C9 on six sentences with a matrix of seven rows scored
    [7; 1; 2; 3; 4; 5; 6]: the best row is the first, so there is a title,
    but the five best positions are 0, 6, 5, 4, 3 and position 6 is none
    of the six sentences: [rank_bullets] raises [IndexError]. *)
Lemma synthesis_on_malformed_cluster_witness :
  let C := Demo.stub in
  let sentences := [Py.lit "s0"; Py.lit "s1"; Py.lit "s2"; Py.lit "s3";
                    Py.lit "s4"; Py.lit "s5"] in
  let embeddings := [7; 1; 2; 3; 4; 5; 6]%Z in
  TextProcessor.generate_topic_title sentences embeddings
  = Py.Ok (Py.lit "s0")
  /\ TextProcessor.rank_bullets sentences embeddings 5
     = Py.Raise Py.IndexError.
Proof.
  intros C sentences embeddings.
  destruct (@synthesis_on_malformed_cluster C sentences embeddings 5)
    as (_ & _ & _ & Htitle & Hbullets & _).
  split.
  - destruct (Htitle ltac:(simpl; lia)) as (_ & _ & Hbest).
    exact (proj2 (Hbest embeddings 0 eq_refl eq_refl) (Py.lit "s0") eq_refl).
  - destruct (Hbullets ltac:(simpl; lia)) as (_ & Hsel).
    apply (proj1 (Hsel embeddings eq_refl)).
    vm_compute. right. left. vm_compute. lia.
Defined.

(** C9 as stated fails: an empty cluster gets the title ["Topic"] and an
    empty bullet list, and a one-sentence cluster with a three-row matrix
    gets its title and its bullet, all without an exception. *)
Lemma synthesis_accepts_malformed_cluster :
  (forall (C : Collaborators) (embeddings : list row),
      TextProcessor.generate_topic_title [] embeddings = Py.Ok (Py.lit "Topic")
      /\ TextProcessor.rank_bullets [] embeddings Config.MAX_BULLETS_PER_SLIDE
         = Py.Ok [])
  /\ TextProcessor.generate_topic_title (C := Demo.stub)
       [Py.lit "a b c."] [1; 2; 9]%Z
     = Py.Ok (Py.lit "a b c")
  /\ TextProcessor.rank_bullets (C := Demo.stub)
       [Py.lit "a b c."] [1; 2; 9]%Z Config.MAX_BULLETS_PER_SLIDE
     = Py.Ok [Py.lit "a b c."].
Proof.
  split; [intros C embeddings; split; reflexivity|]. split; reflexivity.
Qed.

(* ===================================================================== *)
(** * [process_text] *)
(* ===================================================================== *)

Module ProcessFacts.
Import Py TextProcessor ClusterFacts Notions.

(** ** The stable sort of the topics *)

Lemma insert_topic_perm t l : Permutation (insert_topic t l) (t :: l).
Proof.
  induction l as [|u l IH]; simpl; [reflexivity|].
  destruct (sentence_count t <? sentence_count u); [|reflexivity].
  rewrite IH. apply perm_swap.
Qed.

Lemma sort_topics_perm l : Permutation (sort_topics l) l.
Proof.
  induction l as [|t l IH]; simpl; [reflexivity|].
  change (fold_right insert_topic [] l) with (sort_topics l).
  rewrite insert_topic_perm. now constructor.
Qed.

Lemma sort_topics_length l : length (sort_topics l) = length l.
Proof. apply Permutation_length, sort_topics_perm. Qed.

Lemma insert_topic_sorted t l :
  StronglySorted at_least l -> StronglySorted at_least (insert_topic t l).
Proof.
  induction 1 as [|u l Hs IH Hu]; simpl; [repeat constructor|].
  destruct (sentence_count t <? sentence_count u) eqn:E.
  - constructor; [exact IH|].
    apply (Permutation_Forall (Permutation_sym (insert_topic_perm t l))).
    constructor; [|exact Hu]. apply Nat.ltb_lt in E. unfold at_least. lia.
  - apply Nat.ltb_ge in E. constructor; [now constructor|].
    constructor; [exact E|].
    eapply Forall_impl; [|exact Hu]. unfold at_least. intros; lia.
Qed.

Lemma sort_topics_sorted l : StronglySorted at_least (sort_topics l).
Proof.
  induction l as [|t l IH]; simpl; [constructor|].
  now apply insert_topic_sorted.
Qed.

(** Among the topics of one size, the sort changes nothing. *)
Lemma insert_topic_stable n t l :
  StronglySorted at_least l ->
  filter (fun u => sentence_count u =? n) (insert_topic t l)
  = filter (fun u => sentence_count u =? n) (t :: l).
Proof.
  induction 1 as [|u l Hs IH Hu]; [reflexivity|].
  simpl insert_topic. destruct (sentence_count t <? sentence_count u) eqn:E;
    [|reflexivity].
  apply Nat.ltb_lt in E. simpl filter at 1. rewrite IH. simpl.
  destruct (sentence_count u =? n) eqn:Eu, (sentence_count t =? n) eqn:Et;
    try reflexivity.
  apply Nat.eqb_eq in Eu, Et. lia.
Qed.

Lemma sort_topics_stable n l :
  filter (fun u => sentence_count u =? n) (sort_topics l)
  = filter (fun u => sentence_count u =? n) l.
Proof.
  induction l as [|t l IH]; [reflexivity|].
  simpl sort_topics. change (fold_right insert_topic [] l) with (sort_topics l).
  rewrite insert_topic_stable by apply sort_topics_sorted.
  simpl. now rewrite IH.
Qed.

(** ** Comprehensions that cannot raise *)

Lemma traverse_ok (A B : Type) (f : A -> result B) (P : A -> B -> Prop) l :
  (forall x, In x l -> exists y, f x = Ok y /\ P x y) ->
  exists ys, traverse f l = Ok ys /\ Forall2 P l ys.
Proof.
  induction l as [|x l IH]; intros H.
  - exists []. split; [reflexivity|constructor].
  - destruct (H x (or_introl eq_refl)) as (y & Hy & Hp).
    destruct IH as (ys & Hys & Hall); [intros z Hz; apply H; now right|].
    exists (y :: ys). simpl. rewrite Hy. simpl. rewrite Hys.
    split; [reflexivity|now constructor].
Qed.

Lemma traverse_getitem_ok (A : Type) (xs : list A) idxs :
  Forall (fun i => i < length xs) idxs ->
  exists ys, traverse (getitem xs) idxs = Ok ys /\ length ys = length idxs.
Proof.
  intros H.
  destruct (@traverse_ok _ _ (getitem xs) (fun _ _ => True) idxs) as (ys & E & F).
  - intros i Hi. rewrite Forall_forall in H. specialize (H i Hi).
    unfold getitem. destruct (nth_error xs i) eqn:En; [eauto|].
    apply nth_error_None in En. lia.
  - exists ys. split; [exact E|]. symmetry. exact (Forall2_length F).
Qed.

(** ** The rows picked for a cluster *)

Lemma indices_in_range v sentences : forall idx,
  Forall (fun i => i < idx + length sentences) (indices_in v idx sentences).
Proof.
  induction sentences as [|s sentences IH]; intros idx; simpl; [constructor|].
  specialize (IH (S idx)).
  assert (H : Forall (fun i => i < idx + S (length sentences))
                     (indices_in v (S idx) sentences)).
  { eapply Forall_impl; [|exact IH]. simpl. intros; lia. }
  destruct (existsb (str_eqb s) v); [constructor; [lia|exact H]|exact H].
Qed.

Lemma indices_in_length k v pairs : forall idx,
  (forall p, In p pairs -> existsb (str_eqb (snd p)) v = (fst p =? k)%Z) ->
  length (indices_in v idx (map snd pairs)) = length (select k pairs).
Proof.
  unfold select.
  induction pairs as [|p pairs IH]; intros idx H; [reflexivity|].
  simpl. rewrite (H p (or_introl eq_refl)).
  destruct (fst p =? k)%Z; simpl; rewrite IH; auto; intros q Hq; apply H; now right.
Qed.

Lemma str_eqb_eq a b : str_eqb a b = true <-> a = b.
Proof.
  unfold str_eqb. destruct (list_eq_dec N.eq_dec a b); split; congruence.
Qed.

Lemma one_label_per_text_spec pairs :
  one_label_per_text pairs = true -> one_label pairs.
Proof.
  unfold one_label_per_text, one_label. intros H l1 l2 s H1 H2.
  rewrite forallb_forall in H. specialize (H _ H1).
  rewrite forallb_forall in H. specialize (H _ H2). simpl in H.
  replace (str_eqb s s) with true in H by (symmetry; now apply str_eqb_eq).
  simpl in H. now apply Z.eqb_eq.
Qed.

Lemma in_combine_map (f : Z -> Z) labels : forall (sentences : list str) l' s,
  In (l', s) (combine (map f labels) sentences) ->
  exists l, l' = f l /\ In (l, s) (combine labels sentences).
Proof.
  induction labels as [|l labels IH]; intros [|s0 sentences] l' s; simpl; try tauto.
  intros [E|H].
  - injection E as <- <-. exists l. auto.
  - destruct (IH _ _ _ H) as (l0 & -> & Hin). exists l0. auto.
Qed.

Lemma one_label_map f labels sentences :
  one_label (combine labels sentences) ->
  one_label (combine (map f labels) sentences).
Proof.
  intros H l1 l2 s H1 H2.
  apply in_combine_map in H1, H2.
  destruct H1 as (a & -> & Ha), H2 as (b & -> & Hb).
  f_equal. exact (H _ _ _ Ha Hb).
Qed.

(** Under [one_label], the rows picked for a cluster of [grouped] are as
    many as its sentences. *)
Lemma indices_in_grouped k pairs :
  one_label pairs ->
  length (indices_in (select k pairs) 0 (map snd pairs))
  = length (select k pairs).
Proof.
  intros H. apply indices_in_length. intros [l s] Hp. simpl.
  destruct (l =? k)%Z eqn:E.
  - apply Z.eqb_eq in E. subst l. apply existsb_exists. exists s. split.
    + unfold select. apply in_map_iff. exists (k, s). split; [reflexivity|].
      apply filter_In. split; [exact Hp|apply Z.eqb_refl].
    + now apply str_eqb_eq.
  - destruct (existsb (str_eqb s) (select k pairs)) eqn:Ex; [|reflexivity].
    apply existsb_exists in Ex. destruct Ex as (s' & Hs' & Es).
    apply str_eqb_eq in Es. subst s'.
    unfold select in Hs'. apply in_map_iff in Hs'.
    destruct Hs' as ([l' s'] & Es & Hf). simpl in Es. subst s'.
    apply filter_In in Hf. destruct Hf as [Hin Hk]. simpl in Hk.
    apply Z.eqb_eq in Hk. subst l'. apply Z.eqb_neq in E.
    now specialize (H _ _ _ Hp Hin).
Qed.

Lemma in_skipn_in (A : Type) n (l : list A) x : In x (skipn n l) -> In x l.
Proof.
  intros H. rewrite <- (firstn_skipn n l). apply in_or_app. now right.
Qed.

Section WithCollaborators.
Context {C : Collaborators}.

Lemma generate_embeddings_length sentences :
  collaborators_behave ->
  length (generate_embeddings sentences) = length sentences.
Proof.
  intros (He & _). destruct sentences; [reflexivity|]. apply He.
Qed.

Lemma title_ok v rows :
  collaborators_behave -> v <> [] -> length rows = length v ->
  exists title, generate_topic_title v rows = Ok title.
Proof.
  intros (_ & _ & Hsim & _) Hv Hlen.
  destruct v as [|s1 [|s2 rest]]; [congruence|simpl; eauto|].
  unfold generate_topic_title.
  destruct (Hsim rows) as (scores & -> & Hs).
  { intros ->. discriminate. }
  simpl bind. destruct (argmax scores) as [i|e] eqn:Ea.
  - simpl bind. apply SynthesisFacts.argmax_bound in Ea.
    unfold getitem. destruct (nth_error (s1 :: s2 :: rest) i) eqn:En;
      [simpl; eauto|].
    apply nth_error_None in En. lia.
  - destruct scores; [simpl in Hs, Hlen; lia|discriminate].
Qed.

Lemma bullets_ok v rows :
  collaborators_behave -> length rows = length v ->
  exists bullets,
    rank_bullets v rows Config.MAX_BULLETS_PER_SLIDE = Ok bullets
    /\ length bullets <= 5.
Proof.
  intros (_ & _ & Hsim & Hsort) Hlen. unfold rank_bullets.
  change Config.MAX_BULLETS_PER_SLIDE with 5%Z.
  destruct (Z.of_nat (length v) <=? 5)%Z eqn:E.
  - exists v. split; [reflexivity|]. apply Z.leb_le in E. lia.
  - apply Z.leb_gt in E.
    destruct (Hsim rows) as (scores & -> & Hs).
    { intros ->. simpl in Hlen. lia. }
    simpl bind.
    destruct (@traverse_getitem_ok _ v
                (rev (slice_from (-5) (argsort scores)))) as (bs & Hb & Hl).
    + apply Forall_forall. intros i Hi. apply in_rev in Hi.
      unfold slice_from in Hi. apply in_skipn_in in Hi.
      specialize (Hsort scores). rewrite Forall_forall in Hsort.
      specialize (Hsort i Hi). lia.
    + exists bs. split; [exact Hb|].
      rewrite Hl, length_rev. unfold slice_from. rewrite length_skipn.
      simpl. lia.
Qed.

(** A cluster that is not empty and gets as many rows as it has
    sentences yields its topic. *)
Lemma make_topic_ok sentences embeddings k v :
  collaborators_behave ->
  length embeddings = length sentences ->
  v <> [] ->
  length (indices_in v 0 sentences) = length v ->
  exists t, make_topic sentences embeddings (k, v) = Ok t
            /\ id t = k /\ sentence_count t = length v
            /\ length (bullets t) <= 5.
Proof.
  intros HB He Hv Hidx. unfold make_topic.
  destruct (@traverse_getitem_ok _ embeddings (indices_in v 0 sentences))
    as (rows & -> & Hrows).
  { rewrite He. apply (indices_in_range v sentences 0). }
  simpl bind. rewrite Hidx in Hrows.
  destruct (@title_ok v rows HB Hv Hrows) as (title & ->). simpl bind.
  destruct (@bullets_ok v rows HB Hrows) as (bs & -> & Hbs). simpl bind.
  eexists. split; [reflexivity|]. simpl. auto.
Qed.

Lemma cluster_sentences_clusterer sentences embeddings n_clusters :
  2 <= length sentences ->
  exists c, fst (cluster_sentences sentences embeddings n_clusters) = [c].
Proof.
  intros H. unfold cluster_sentences. apply Nat.ltb_ge in H. rewrite H.
  simpl. eauto.
Qed.

(** The dict of a run: one cluster below two sentences, the closed form
    of the loop otherwise. *)
Lemma clusters_shape sentences embeddings n_clusters :
  (forall c rows, length (fit_predict c rows) = length rows) ->
  length embeddings = length sentences ->
  (length sentences < 2
   /\ cluster_sentences sentences embeddings n_clusters
      = ([], Ok [(0%Z, sentences)]))
  \/ (2 <= length sentences
      /\ exists c m,
          fst (cluster_sentences sentences embeddings n_clusters) = [c]
          /\ max_of (fit_predict c embeddings) = Ok m
          /\ snd (cluster_sentences sentences embeddings n_clusters)
             = Ok (grouped (combine (map (relabel m) (fit_predict c embeddings))
                                    sentences))).
Proof.
  intros Hfit He. destruct (Nat.lt_ge_cases (length sentences) 2) as [H|H].
  - left. split; [exact H|]. unfold cluster_sentences.
    apply Nat.ltb_lt in H. now rewrite H.
  - right. split; [exact H|].
    destruct (@cluster_sentences_clusterer sentences embeddings n_clusters H)
      as [c Hc].
    destruct (@cluster_sentences_grouped _ sentences embeddings n_clusters c
                H Hc) as (m & Hm & Hres).
    + now rewrite Hfit.
    + exists c, m. auto.
Qed.

Lemma clusters_partition sentences embeddings n_clusters :
  (forall c rows, length (fit_predict c rows) = length rows) ->
  length embeddings = length sentences ->
  exists clusters,
    snd (cluster_sentences sentences embeddings n_clusters) = Ok clusters
    /\ Permutation (concat (map snd clusters)) sentences.
Proof.
  intros Hfit He.
  destruct (@clusters_shape sentences embeddings n_clusters Hfit He)
    as [[_ E]|(_ & c & m & Hc & Hm & E)].
  - exists [(0%Z, sentences)]. rewrite E. split; [reflexivity|].
    simpl. now rewrite app_nil_r.
  - eexists. split; [exact E|].
    rewrite <- fold_add_sentence_grouped.
    rewrite fold_add_sentence_concat. simpl.
    rewrite map_snd_combine; [reflexivity|].
    now rewrite length_map, Hfit.
Qed.

(** With collaborators that behave and one label per text, a text with a
    sentence is processed without an exception. *)
Lemma process_text_ok text :
  let sentences := split_sentences (clean_text text) in
  let embeddings := generate_embeddings sentences in
  collaborators_behave ->
  one_label_per_text (combine (run_labels sentences) sentences) = true ->
  sentences <> [] ->
  exists clusters made,
    snd (cluster_sentences sentences embeddings None) = Ok clusters
    /\ Forall2 topic_of clusters made
    /\ process_text text
       = Ok {| topics := sort_topics made;
               slide_count := length (sort_topics made) + 2;
               total_sentences := length sentences |}.
Proof.
  intros sentences embeddings HB Hone Hne.
  pose proof (@generate_embeddings_length sentences HB) as He.
  fold embeddings in He.
  assert (Hfit : forall c rows, length (fit_predict c rows) = length rows)
    by apply HB.
  assert (Hmade : forall clusters,
             snd (cluster_sentences sentences embeddings None) = Ok clusters ->
             (forall k v, In (k, v) clusters ->
                          v <> [] /\ length (indices_in v 0 sentences) = length v) ->
             exists made,
               Forall2 topic_of clusters made
               /\ process_text text
                  = Ok {| topics := sort_topics made;
                          slide_count := length (sort_topics made) + 2;
                          total_sentences := length sentences |}).
  { intros clusters Hcl Hgood.
    destruct (@traverse_ok _ _ (make_topic sentences embeddings) topic_of clusters)
      as (made & Hmade & Hall).
    - intros [k v] Hin. destruct (Hgood k v Hin) as [Hv Hidx].
      destruct (@make_topic_ok sentences embeddings k v HB He Hv Hidx)
        as (t & Ht & H1 & H2 & H3).
      exists t. split; [exact Ht|]. now repeat split.
    - exists made. split; [exact Hall|].
      rewrite SynthesisFacts.process_text_nonempty by exact Hne.
      cbv zeta. fold sentences. fold embeddings. rewrite Hcl. simpl bind.
      rewrite Hmade. reflexivity. }
  destruct (@clusters_shape sentences embeddings None Hfit He)
    as [[Hlt E]|(Hge & c & m & Hc & Hm & E)].
  - exists [(0%Z, sentences)].
    destruct (Hmade [(0%Z, sentences)]) as (made & H1 & H2).
    + now rewrite E.
    + intros k v [Hin|[]]. injection Hin as _ <-. split; [exact Hne|].
      destruct sentences as [|s [|s' rest]]; simpl in Hlt; try lia; [congruence|].
      simpl. replace (str_eqb s s) with true by (symmetry; now apply str_eqb_eq).
      reflexivity.
    + exists made. rewrite E. auto.
  - set (labels := fit_predict c embeddings) in *.
    set (pairs := combine (map (relabel m) labels) sentences) in *.
    assert (Hlen : length (map (relabel m) labels) = length sentences).
    { rewrite length_map. unfold labels. now rewrite Hfit. }
    assert (Hrun : run_labels sentences = labels).
    { unfold run_labels. fold embeddings. now rewrite Hc. }
    rewrite Hrun in Hone. apply one_label_per_text_spec in Hone.
    apply (one_label_map (relabel m)) in Hone. fold pairs in Hone.
    destruct (Hmade (grouped pairs) E) as (made & H1 & H2).
    + intros k v Hin. apply grouped_In in Hin. destruct Hin as [Hk ->].
      split.
      * apply in_map_iff in Hk. destruct Hk as ([k' s] & Ek & Hin).
        simpl in Ek. subst k'. intros Hnil.
        assert (Hs : In s (select k pairs)).
        { unfold select. apply in_map_iff. exists (k, s). split; [reflexivity|].
          apply filter_In. split; [exact Hin|apply Z.eqb_refl]. }
        rewrite Hnil in Hs. exact Hs.
      * rewrite <- (map_snd_combine _ _ Hlen) at 1. fold pairs.
        now apply indices_in_grouped.
    + exists (grouped pairs), made. auto.
Qed.

End WithCollaborators.
End ProcessFacts.

(** ** The stand-in collaborators behave *)

Module DemoFacts.
Import Py Notions.

Lemma insert_index_Forall (P : nat -> Prop) scores i acc :
  P i -> Forall P acc -> Forall P (Demo.insert_index scores i acc).
Proof.
  intros Hi. induction 1 as [|j acc Hj Hacc IH]; simpl.
  - now repeat constructor.
  - destruct (nth i scores 0 <? nth j scores 0)%Z; repeat constructor; auto.
Qed.

Lemma stable_argsort_range scores :
  Forall (fun i => i < length scores) (Demo.stable_argsort scores).
Proof.
  unfold Demo.stable_argsort.
  assert (H : forall l acc,
             Forall (fun i => i < length scores) l ->
             Forall (fun i => i < length scores) acc ->
             Forall (fun i => i < length scores)
                    (fold_left (fun acc i => Demo.insert_index scores i acc) l acc)).
  { induction l as [|i l IH]; intros acc Hl Hacc; simpl; [exact Hacc|].
    inversion Hl; subst. apply IH; [assumption|].
    now apply insert_index_Forall. }
  apply H; [|constructor]. apply Forall_forall. intros i Hi.
  apply in_seq in Hi. lia.
Qed.

Lemma stub_behaves : Notions.collaborators_behave (C := Demo.stub).
Proof.
  repeat split.
  - intros sentences. apply length_map.
  - intros [? ?|? ? ?] rows; apply length_map.
  - intros rows _. exists rows. split; reflexivity.
  - apply stable_argsort_range.
Qed.

End DemoFacts.

(** The slide count on both return paths.  When the text yields no
    sentence (the empty and the whitespace-only text among them),
    [process_text] returns no topic, [total_sentences = 0] and
    [slide_count = 0].  When it yields a sentence, every result has
    [slide_count = len(topics) + 2], and with collaborators that behave
    and one label per sentence text there is a result. *)
Theorem process_text_slide_count {C : Collaborators} (text : Py.str) :
  let sentences :=
    TextProcessor.split_sentences (TextProcessor.clean_text text) in
  (sentences = [] ->
   TextProcessor.process_text text
   = Py.Ok {| TextProcessor.topics := [];
              TextProcessor.slide_count := 0;
              TextProcessor.total_sentences := 0 |})
  /\ (forall r,
         sentences <> [] -> TextProcessor.process_text text = Py.Ok r ->
         TextProcessor.slide_count r = length (TextProcessor.topics r) + 2)
  /\ (sentences <> [] ->
      Notions.collaborators_behave ->
      Notions.one_label_per_text
        (combine (Notions.run_labels sentences) sentences) = true ->
      exists r,
        TextProcessor.process_text text = Py.Ok r
        /\ TextProcessor.slide_count r = length (TextProcessor.topics r) + 2).
Proof.
  intros sentences. split; [|split].
  - intros H. unfold TextProcessor.process_text. fold sentences. now rewrite H.
  - intros r Hne Hr. subst sentences.
    rewrite SynthesisFacts.process_text_nonempty in Hr by exact Hne.
    cbv zeta in Hr.
    destruct (snd (TextProcessor.cluster_sentences _ _ None)) as [clusters|e];
      [|discriminate].
    simpl Py.bind in Hr.
    destruct (Py.traverse _ clusters) as [made|e]; [|discriminate].
    simpl in Hr. injection Hr as <-. reflexivity.
  - intros Hne HB Hone.
    destruct (@ProcessFacts.process_text_ok C text HB Hone Hne)
      as (clusters & made & _ & _ & Hr).
    eexists. split; [exact Hr|reflexivity].
Qed.

(** The slide count on the three-sentence example of the specification. *)
Lemma process_text_slide_count_witness :
  exists r,
    TextProcessor.process_text (C := Demo.stub)
      (Py.lit "Revenue grew sharply. Costs also grew. Profit margins held.")
    = Py.Ok r
    /\ TextProcessor.slide_count r = length (TextProcessor.topics r) + 2.
Proof.
  refine (proj2 (proj2 (@process_text_slide_count Demo.stub
            (Py.lit "Revenue grew sharply. Costs also grew. Profit margins held.")))
            _ DemoFacts.stub_behaves _).
  - vm_compute. discriminate.
  - vm_compute. reflexivity.
Defined.

(** C1 at the empty and at a whitespace-only text: the early return gives
    [slide_count = 0], where the main path counts [len(topics) + 2] ("+1
    for title, +1 for summary") and the claim expects 2. *)
Lemma process_text_empty_slide_count :
  (forall C : Collaborators,
      TextProcessor.process_text (Py.lit "")
      = Py.Ok {| TextProcessor.topics := [];
                 TextProcessor.slide_count := 0;
                 TextProcessor.total_sentences := 0 |})
  /\ (forall C : Collaborators,
         TextProcessor.process_text (Py.lit "   ")
         = Py.Ok {| TextProcessor.topics := [];
                    TextProcessor.slide_count := 0;
                    TextProcessor.total_sentences := 0 |}).
Proof. split; intros C; reflexivity. Qed.

(** ** Counting and ordering the topics *)

Module TopicFacts.
Import Py TextProcessor ProcessFacts Notions.

Lemma list_sum_perm l l' : Permutation l l' -> list_sum l = list_sum l'.
Proof.
  induction 1; simpl; lia.
Qed.

Lemma length_concat_sum (A : Type) (l : list (list A)) :
  length (concat l) = list_sum (map (@length A) l).
Proof.
  induction l as [|x l IH]; [reflexivity|].
  simpl. now rewrite length_app, IH.
Qed.

Lemma topic_sizes clusters made :
  Forall2 topic_of clusters made ->
  map sentence_count made = map (fun kv => length (snd kv)) clusters.
Proof.
  induction 1 as [|kv t clusters made (_ & H & _) _ IH]; [reflexivity|].
  simpl. now rewrite H, IH.
Qed.

Lemma topic_ids_of_size n clusters made :
  Forall2 topic_of clusters made ->
  map id (filter (fun t => sentence_count t =? n) made)
  = map fst (filter (fun kv => length (snd kv) =? n) clusters).
Proof.
  induction 1 as [|kv t clusters made (Hid & Hc & _) _ IH]; [reflexivity|].
  simpl. rewrite Hc. destruct (length (snd kv) =? n); simpl; now rewrite ?Hid, IH.
Qed.

Lemma traverse_inv (A B : Type) (f : A -> result B) l : forall ys,
  traverse f l = Ok ys -> Forall2 (fun x y => f x = Ok y) l ys.
Proof.
  induction l as [|x l IH]; simpl; intros ys H.
  - injection H as <-. constructor.
  - destruct (f x) as [y|e] eqn:Ex; [|discriminate]. simpl in H.
    destruct (traverse f l) as [ys'|e]; [|discriminate]. simpl in H.
    injection H as <-. constructor; [exact Ex|now apply IH].
Qed.

Section WithCollaborators.
Context {C : Collaborators}.

Lemma rank_bullets_length v rows bs :
  rank_bullets v rows Config.MAX_BULLETS_PER_SLIDE = Ok bs -> length bs <= 5.
Proof.
  unfold rank_bullets. change Config.MAX_BULLETS_PER_SLIDE with 5%Z.
  destruct (Z.of_nat (length v) <=? 5)%Z eqn:E.
  - intros H. injection H as <-. apply Z.leb_le in E. lia.
  - destruct (centroid_similarity rows) as [scores|e]; [|discriminate].
    simpl bind. intros H. apply traverse_inv in H.
    rewrite <- (Forall2_length H), length_rev.
    unfold slice_from. rewrite length_skipn. simpl. lia.
Qed.

(** A topic that is made is made from its dict entry. *)
Lemma make_topic_inv sentences embeddings kv t :
  make_topic sentences embeddings kv = Ok t -> topic_of kv t.
Proof.
  destruct kv as [k v]. unfold make_topic.
  destruct (traverse _ _) as [rows|e]; [|discriminate]. simpl bind.
  destruct (generate_topic_title v rows) as [title|e]; [|discriminate].
  simpl bind.
  destruct (rank_bullets v rows Config.MAX_BULLETS_PER_SLIDE) as [bs|e] eqn:Eb;
    [|discriminate].
  simpl bind. intros H. injection H as <-.
  repeat split. simpl. now apply rank_bullets_length in Eb.
Qed.

(** What a result on the main path is made of. *)
Lemma process_text_inv text r :
  let sentences := split_sentences (clean_text text) in
  let embeddings := generate_embeddings sentences in
  sentences <> [] -> process_text text = Ok r ->
  exists clusters made,
    snd (cluster_sentences sentences embeddings None) = Ok clusters
    /\ Forall2 topic_of clusters made
    /\ r = {| topics := sort_topics made;
              slide_count := length (sort_topics made) + 2;
              total_sentences := length sentences |}.
Proof.
  intros sentences embeddings Hne Hr. subst embeddings sentences.
  rewrite SynthesisFacts.process_text_nonempty in Hr by exact Hne.
  cbv zeta in Hr.
  destruct (snd (cluster_sentences _ _ None)) as [clusters|e]; [|discriminate].
  simpl bind in Hr.
  destruct (traverse _ clusters) as [made|e] eqn:Em; [|discriminate].
  simpl in Hr. injection Hr as <-.
  exists clusters, made. split; [reflexivity|]. split; [|reflexivity].
  apply traverse_inv in Em.
  eapply Forall2_impl; [|exact Em].
  intros kv t. apply make_topic_inv.
Qed.

End WithCollaborators.
End TopicFacts.

(** C2.  [total_sentences] of every result is the length of
    [split_sentences(clean_text(text))].  With one label per embedding
    row, the sentences of all clusters returned by [cluster_sentences],
    taken together, are a rearrangement of the sentence list (none is
    dropped, none is filed twice), and the [sentence_count] values of the
    topics of every result sum to [total_sentences].  With collaborators
    that behave and one label per sentence text there is a result. *)
Theorem process_text_counts {C : Collaborators} (text : Py.str) :
  let sentences :=
    TextProcessor.split_sentences (TextProcessor.clean_text text) in
  let embeddings := TextProcessor.generate_embeddings sentences in
  (forall r, TextProcessor.process_text text = Py.Ok r ->
             TextProcessor.total_sentences r = length sentences)
  /\ ((forall c rows, length (fit_predict c rows) = length rows) ->
      length embeddings = length sentences ->
      (exists clusters,
          snd (TextProcessor.cluster_sentences sentences embeddings None)
          = Py.Ok clusters
          /\ Permutation (concat (map snd clusters)) sentences)
      /\ (forall r,
             TextProcessor.process_text text = Py.Ok r ->
             list_sum (map TextProcessor.sentence_count (TextProcessor.topics r))
             = TextProcessor.total_sentences r))
  /\ (Notions.collaborators_behave ->
      Notions.one_label_per_text
        (combine (Notions.run_labels sentences) sentences) = true ->
      exists r, TextProcessor.process_text text = Py.Ok r).
Proof.
  intros sentences embeddings.
  assert (Hcase : sentences = [] \/ sentences <> []).
  { destruct (TextProcessor.split_sentences (TextProcessor.clean_text text));
      [now left|right; discriminate]. }
  assert (Hempty : sentences = [] ->
            TextProcessor.process_text text
            = Py.Ok {| TextProcessor.topics := [];
                       TextProcessor.slide_count := 0;
                       TextProcessor.total_sentences := 0 |}).
  { intros Es. unfold TextProcessor.process_text. fold sentences.
    now rewrite Es. }
  split; [|split].
  - intros r Hr. destruct Hcase as [Es|Hne].
    + rewrite (Hempty Es) in Hr. injection Hr as <-. now rewrite Es.
    + destruct (@TopicFacts.process_text_inv C text r Hne Hr)
        as (clusters & made & _ & _ & ->).
      reflexivity.
  - intros Hfit He.
    destruct (@ProcessFacts.clusters_partition C sentences embeddings None
                Hfit He) as (clusters & Hcl & Hperm).
    split; [now exists clusters|].
    intros r Hr. destruct Hcase as [Es|Hne].
    + rewrite (Hempty Es) in Hr. now injection Hr as <-.
    + destruct (@TopicFacts.process_text_inv C text r Hne Hr)
        as (clusters' & made & Hcl' & Hall & ->).
      fold sentences embeddings in Hcl'. rewrite Hcl in Hcl'.
      injection Hcl' as <-.
      cbn [TextProcessor.total_sentences TextProcessor.topics]. fold sentences.
      rewrite (TopicFacts.list_sum_perm
                 (Permutation_map _ (ProcessFacts.sort_topics_perm made))).
      rewrite (TopicFacts.topic_sizes Hall).
      rewrite <- (Permutation_length Hperm), TopicFacts.length_concat_sum.
      now rewrite map_map.
  - intros HB Hone. destruct Hcase as [Es|Hne].
    + eexists. exact (Hempty Es).
    + destruct (@ProcessFacts.process_text_ok C text HB Hone Hne)
        as (clusters & made & _ & _ & Hr).
      eexists. exact Hr.
Qed.

(** C2 on the three-sentence example of the specification. *)
Lemma process_text_counts_witness :
  let text :=
    Py.lit "Revenue grew sharply. Costs also grew. Profit margins held." in
  exists r,
    TextProcessor.process_text (C := Demo.stub) text = Py.Ok r
    /\ TextProcessor.total_sentences r
       = length (TextProcessor.split_sentences
                   (TextProcessor.clean_text (C := Demo.stub) text))
    /\ list_sum (map TextProcessor.sentence_count (TextProcessor.topics r))
       = TextProcessor.total_sentences r.
Proof.
  intros text.
  destruct (@process_text_counts Demo.stub text) as (Htotal & Hsum & Hex).
  destruct (Hex DemoFacts.stub_behaves ltac:(vm_compute; reflexivity))
    as [r Hr].
  exists r. split; [exact Hr|]. split; [exact (Htotal r Hr)|].
  refine (proj2 (Hsum _ _) r Hr).
  - intros [? ?|? ? ?] rows; apply length_map.
  - vm_compute. reflexivity.
Defined.

(** C3, as the code has it.  In every result the topics stand by
    descending [sentence_count], and the sort is stable: the topics of one
    size keep the order of the dict returned by [cluster_sentences].  With
    one label per embedding row and at least two sentences, that order is
    the one in which the (relabelled) labels are first met in the label
    sequence, which need not be ascending in the cluster id.  With
    collaborators that behave and one label per sentence text there is a
    result. *)
Theorem topics_order {C : Collaborators} (text : Py.str) :
  let sentences :=
    TextProcessor.split_sentences (TextProcessor.clean_text text) in
  let embeddings := TextProcessor.generate_embeddings sentences in
  (forall r,
      sentences <> [] -> TextProcessor.process_text text = Py.Ok r ->
      exists clusters,
        snd (TextProcessor.cluster_sentences sentences embeddings None)
        = Py.Ok clusters
        /\ StronglySorted Notions.at_least (TextProcessor.topics r)
        /\ (forall n,
               map TextProcessor.id
                   (filter (fun t => TextProcessor.sentence_count t =? n)
                           (TextProcessor.topics r))
               = map fst (filter (fun kv => length (snd kv) =? n) clusters)))
  /\ ((forall c rows, length (fit_predict c rows) = length rows) ->
      length embeddings = length sentences ->
      2 <= length sentences ->
      exists clusters m,
        snd (TextProcessor.cluster_sentences sentences embeddings None)
        = Py.Ok clusters
        /\ TextProcessor.max_of (Notions.run_labels sentences) = Py.Ok m
        /\ map fst clusters
           = Notions.first_seen
               (map (Notions.relabel m)
                    (Notions.run_labels sentences)))
  /\ (Notions.collaborators_behave ->
      Notions.one_label_per_text
        (combine (Notions.run_labels sentences) sentences) = true ->
      sentences <> [] ->
      exists r, TextProcessor.process_text text = Py.Ok r).
Proof.
  intros sentences embeddings. split; [|split].
  - intros r Hne Hr.
    destruct (@TopicFacts.process_text_inv C text r Hne Hr)
      as (clusters & made & Hcl & Hall & ->).
    exists clusters. split; [exact Hcl|].
    cbn [TextProcessor.topics]. split.
    + apply ProcessFacts.sort_topics_sorted.
    + intros n. rewrite ProcessFacts.sort_topics_stable.
      now apply TopicFacts.topic_ids_of_size.
  - intros Hfit He Hn.
    destruct (@ProcessFacts.clusters_shape C sentences embeddings None Hfit He)
      as [[Hlt _]|(_ & c & m & Hc & Hm & E)]; [lia|].
    assert (Hrun : Notions.run_labels sentences = fit_predict c embeddings).
    { unfold Notions.run_labels. fold embeddings. now rewrite Hc. }
    rewrite Hrun. eexists. exists m. split; [exact E|]. split; [exact Hm|].
    rewrite ClusterFacts.grouped_keys, ClusterFacts.map_fst_combine;
      [reflexivity|].
    now rewrite length_map, Hfit.
  - intros HB Hone Hne.
    destruct (@ProcessFacts.process_text_ok C text HB Hone Hne)
      as (clusters & made & _ & _ & Hr).
    eexists. exact Hr.
Qed.

(** C3 on a text whose first two sentences are noise for the stand-in
    HDBSCAN and whose last two form cluster 0 (labels [-1; -1; 0; 0]): the
    dict keys are met in the order 1, 0, and so stand the two topics. *)
Lemma topics_order_witness :
  let C := Demo.stub in
  let text :=
    Py.lit "a b c. d e f. Revenue grew sharply. Costs also grew ok." in
  exists (r : TextProcessor.processed) (clusters : TextProcessor.dict),
    TextProcessor.process_text text = Py.Ok r
    /\ map fst clusters = [1%Z; 0%Z]
    /\ StronglySorted Notions.at_least (TextProcessor.topics r)
    /\ (forall n,
           map TextProcessor.id
               (filter (fun t => TextProcessor.sentence_count t =? n)
                       (TextProcessor.topics r))
           = map fst (filter (fun kv => length (snd kv) =? n) clusters)).
Proof.
  intros C text.
  destruct (@topics_order C text) as (Hsorted & Hkeys & Hex).
  assert (Hne : TextProcessor.split_sentences (TextProcessor.clean_text text)
                <> []) by (vm_compute; discriminate).
  destruct (Hex DemoFacts.stub_behaves ltac:(vm_compute; reflexivity) Hne)
    as [r Hr].
  destruct (Hsorted r Hne Hr) as (clusters & Hcl & Hs & Hties).
  exists r, clusters. split; [exact Hr|]. split; [|split; assumption].
  vm_compute in Hcl. injection Hcl as <-. reflexivity.
Defined.

(** C3 as stated fails on that text: the noise cluster, id 1, is met
    first, so of the two topics of size 2 the one with id 1 comes before
    the one with id 0. *)
Lemma topics_ties_not_by_id :
  match TextProcessor.process_text (C := Demo.stub)
          (Py.lit "a b c. d e f. Revenue grew sharply. Costs also grew ok.")
  with
  | Py.Ok r =>
      map (fun t => (TextProcessor.id t, TextProcessor.sentence_count t))
          (TextProcessor.topics r)
  | Py.Raise _ => []
  end
  = [(1%Z, 2); (0%Z, 2)].
Proof. vm_compute. reflexivity. Qed.

(* ===================================================================== *)
(** * Further properties of the text processor *)
(* ===================================================================== *)

Module TokenFacts.
Import Py Tokens.

Lemma split_cons c rest :
  split (c :: rest) =
  if isspace c then split rest
  else match rest with
       | [] => [[c]]
       | c' :: _ =>
           if isspace c' then [c] :: split rest
           else match split rest with
                | w :: ws => (c :: w) :: ws
                | [] => [[c]]
                end
       end.
Proof. reflexivity. Qed.

(** A text that starts with a token character has a first token. *)
Lemma split_nonspace_nonempty c rest :
  isspace c = false -> split (c :: rest) <> [].
Proof.
  intros E. rewrite split_cons, E. destruct rest as [|c' rest]; [discriminate|].
  destruct (isspace c'); [discriminate|]. destruct (split (c' :: rest)); discriminate.
Qed.

Lemma split_tokens s : Forall token (split s).
Proof.
  induction s as [|c rest IH]; [constructor|].
  rewrite split_cons. destruct (isspace c) eqn:E; [exact IH|].
  assert (Hc : token [c]).
  { split; [discriminate|]. simpl. now rewrite E. }
  destruct rest as [|c' rest']; [constructor; [exact Hc|constructor]|].
  destruct (isspace c') eqn:E'; [constructor; [exact Hc|exact IH]|].
  destruct (split (c' :: rest')) as [|w ws];
    [constructor; [exact Hc|constructor]|].
  inversion IH as [|? ? [Hw1 Hw2] Hws]; subst.
  constructor; [|exact Hws]. split; [discriminate|]. simpl. now rewrite E, Hw2.
Qed.

Lemma starts_cons b c rest :
  starts b (c :: rest) =
  if isspace c then starts false rest
  else (if b then 0 else 1) + starts true rest.
Proof. reflexivity. Qed.

Lemma split_count s : length (split s) = starts false s.
Proof.
  induction s as [|c rest IH]; [reflexivity|].
  rewrite split_cons, starts_cons. destruct (isspace c) eqn:E; [exact IH|].
  destruct rest as [|c' rest']; [reflexivity|].
  rewrite starts_cons in *. destruct (isspace c') eqn:E'.
  - cbn [length]. rewrite IH. reflexivity.
  - pose proof (@split_nonspace_nonempty c' rest' E') as Hne.
    destruct (split (c' :: rest')) as [|w ws]; [congruence|].
    cbn [length] in *. lia.
Qed.

Lemma starts_app_le a : forall b c, starts b a <= starts b (a ++ c).
Proof.
  induction a as [|x a IH]; intros b c; simpl; [lia|].
  destruct (isspace x); [apply IH|]. specialize (IH true c). lia.
Qed.

(** [split] undoes [" ".join] on tokens. *)
Lemma split_token_then_space w rest :
  token w -> split (w ++ 32%N :: rest) = w :: split rest.
Proof.
  intros [Hne Hall]. induction w as [|c w IH]; [congruence|].
  simpl in Hall. apply andb_true_iff in Hall. destruct Hall as [Hc Hw].
  apply negb_true_iff in Hc.
  rewrite <- app_comm_cons, split_cons, Hc. destruct w as [|c2 w'].
  - reflexivity.
  - simpl app. simpl in Hw. apply andb_true_iff in Hw. destruct Hw as [Hc2 Hw'].
    apply negb_true_iff in Hc2. rewrite Hc2.
    change (c2 :: w' ++ 32%N :: rest) with ((c2 :: w') ++ 32%N :: rest).
    rewrite IH; [reflexivity|discriminate|]. simpl.
    now rewrite Hc2, Hw'.
Qed.

Lemma split_token w : token w -> split w = [w].
Proof.
  intros [Hne Hall]. induction w as [|c w IH]; [congruence|].
  simpl in Hall. apply andb_true_iff in Hall. destruct Hall as [Hc Hw].
  apply negb_true_iff in Hc. rewrite split_cons, Hc.
  destruct w as [|c2 w']; [reflexivity|].
  simpl in Hw. assert (Hc2 : isspace c2 = false).
  { apply andb_true_iff in Hw. destruct Hw as [H _]. now apply negb_true_iff in H. }
  rewrite Hc2, IH; [reflexivity|discriminate|exact Hw].
Qed.

Lemma split_join ws : Forall token ws -> split (join [32%N] ws) = ws.
Proof.
  induction 1 as [|w ws Hw Hws IH]; [reflexivity|].
  destruct ws as [|w2 ws'].
  - simpl. now apply split_token.
  - transitivity (w :: split (join [32%N] (w2 :: ws'))).
    + exact (@split_token_then_space w (join [32%N] (w2 :: ws')) Hw).
    + f_equal. exact IH.
Qed.

(** Appending to the joined text is appending to its last word. *)
Lemma join_snoc_app sep ws w tail :
  join sep (ws ++ [w]) ++ tail = join sep (ws ++ [w ++ tail]).
Proof.
  induction ws as [|x ws IH]; [reflexivity|].
  destruct ws as [|y ws'].
  - simpl. now rewrite <- !app_assoc.
  - change (join sep ((x :: y :: ws') ++ [w]))
      with (x ++ sep ++ join sep ((y :: ws') ++ [w])).
    change (join sep ((x :: y :: ws') ++ [w ++ tail]))
      with (x ++ sep ++ join sep ((y :: ws') ++ [w ++ tail])).
    rewrite <- IH. now rewrite <- !app_assoc.
Qed.

Lemma token_app w tail :
  token w -> forallb (fun c => negb (isspace c)) tail = true -> token (w ++ tail).
Proof.
  intros [Hne Hall] Ht. split.
  - destruct w; [congruence|discriminate].
  - rewrite forallb_app. now rewrite Hall, Ht.
Qed.

End TokenFacts.

(** The sentences returned by [split_sentences] are never empty, neither
    start nor end with whitespace, hold none of the sentence ends
    [. ! ?], and have at least three tokens. *)
Theorem split_sentences_shape (text : Py.str) :
  Forall (fun s =>
            s <> []
            /\ Notions.starts_tight s
            /\ (forall pre c, s = pre ++ [c] -> Py.isspace c = false)
            /\ forallb (fun c => negb (Re.sentence_end c)) s = true
            /\ 3 <= length (Py.split s))
         (TextProcessor.split_sentences text).
Proof.
  assert (Hpieces : forall b t,
             Forall (fun p => forallb (fun c => negb (Re.sentence_end c)) p = true)
                    (Re.split_sentence_ends b t)).
  { intros b t; revert b. induction t as [|c t IH]; intros b.
    - now repeat constructor.
    - rewrite SegmentFacts.split_sentence_ends_cons.
      destruct (Re.sentence_end c) eqn:E.
      + destruct b; [apply IH|]. constructor; [reflexivity|apply IH].
      + specialize (IH false).
        destruct (Re.split_sentence_ends false t) as [|p ps];
          [repeat constructor; simpl; now rewrite E|].
        inversion IH; subst. constructor; [|assumption].
        simpl. rewrite E. assumption. }
  apply Forall_forall. intros s Hs.
  unfold TextProcessor.split_sentences in Hs.
  apply filter_In in Hs. destruct Hs as [Hs Htok].
  apply in_map_iff in Hs. destruct Hs as (piece & <- & Hp).
  apply filter_In in Hp. destruct Hp as [Hp Hne].
  split; [|split; [|split; [|split]]].
  - intros E. now rewrite E in Hne.
  - unfold Notions.starts_tight. destruct (Py.strip piece) eqn:E; [exact I|].
    now apply PyFacts.strip_head in E.
  - intros pre c E. now apply PyFacts.strip_last in E.
  - specialize (Hpieces false text). rewrite Forall_forall in Hpieces.
    specialize (Hpieces piece Hp). apply forallb_forall.
    apply Forall_forall.
    apply (@PyFacts.Forall_strip
             (fun c => negb (Re.sentence_end c) = true) piece).
    apply Forall_forall. now apply forallb_forall.
  - now apply Nat.leb_le in Htok.
Qed.

(** A title made by [_shorten_sentence] never has more than six tokens;
    for a sentence of more than six tokens its tokens are the first five
    words and the sixth word with the ellipsis attached. *)
Theorem title_tokens (sentence : Py.str) :
  let words := Py.split sentence in
  let title := TextProcessor._shorten_sentence sentence 6 in
  length (Py.split title) <= 6
  /\ (6 < length words ->
      Py.split title = firstn 5 words ++ [nth 5 words [] ++ Py.lit "..."]).
Proof.
  intros words title.
  assert (Hlong : 6 < length words ->
            Py.split title = firstn 5 words ++ [nth 5 words [] ++ Py.lit "..."]).
  { intros Hlen. subst title. unfold TextProcessor._shorten_sentence.
    fold words.
    replace (Z.of_nat (length words) <=? 6)%Z with false
      by (symmetry; apply Z.leb_gt; lia).
    unfold Py.slice_to. replace (6 <? 0)%Z with false by reflexivity.
    rewrite Z.min_l by lia. change (Z.to_nat 6) with 6.
    assert (H6 : firstn 6 words = firstn 5 words ++ [nth 5 words []]).
    { clear - Hlen. revert Hlen. generalize words. clear words.
      intros l. do 6 (destruct l as [|? l]; [simpl; lia|]). reflexivity. }
    rewrite H6, TokenFacts.join_snoc_app.
    apply TokenFacts.split_join.
    pose proof (TokenFacts.split_tokens sentence) as Htok. fold words in Htok.
    apply Forall_app. split.
    - apply Forall_forall. intros w Hw. rewrite Forall_forall in Htok.
      apply Htok. rewrite <- (firstn_skipn 5 words). apply in_or_app. now left.
    - constructor; [|constructor]. apply TokenFacts.token_app; [|reflexivity].
      rewrite Forall_forall in Htok. apply Htok. apply nth_In. lia. }
  split; [|exact Hlong].
  destruct (Nat.le_gt_cases (length words) 6) as [Hle|Hgt].
  - subst title. unfold TextProcessor._shorten_sentence. fold words.
    replace (Z.of_nat (length words) <=? 6)%Z with true
      by (symmetry; apply Z.leb_le; lia).
    unfold Py.rstrip.
    destruct (PyFacts.rstrip_by_prefix
                (fun c => existsb (N.eqb c) (Py.lit ".,!?")) sentence)
      as (cut & E & _).
    rewrite TokenFacts.split_count.
    pose proof (TokenFacts.starts_app_le
                  (Py.rstrip_by (fun c => existsb (N.eqb c) (Py.lit ".,!?"))
                                sentence) false cut) as Hs.
    rewrite <- E in Hs. unfold words in Hle.
    rewrite TokenFacts.split_count in Hle.
    exact (Nat.le_trans _ _ _ Hs Hle).
  - rewrite (Hlong Hgt), length_app, length_firstn. cbn [length].
    pose proof (Nat.le_min_l 5 (length words)). lia.
Qed.

(** The title of an eight-word sentence. *)
Lemma title_tokens_witness :
  Py.split (TextProcessor._shorten_sentence
              (Py.lit "one two  three four five six seven eight.") 6)
  = [Py.lit "one"; Py.lit "two"; Py.lit "three"; Py.lit "four"; Py.lit "five";
     Py.lit "six..."].
Proof.
  exact (proj2 (title_tokens (Py.lit "one two  three four five six seven eight."))
               ltac:(vm_compute; lia)).
Defined.

Module TitleFacts.
Import Py TextProcessor.

Section WithCollaborators.
Context {C : Collaborators}.

Hypothesis ltb_irrefl : forall a, score_ltb a a = false.
Hypothesis ltb_trans : forall a b c,
  score_ltb a b = true -> score_ltb b c = true -> score_ltb a c = true.
Hypothesis ltb_incomparable : forall a b c,
  score_ltb a b = false -> score_ltb b c = false -> score_ltb a c = false.

(** The running maximum of [argmax]: [best] stands at [best_idx], nothing
    seen so far is above it, and everything before it is below it. *)
Lemma argmax_from_first_max all : forall rest pre best_idx best,
  pre ++ rest = all ->
  nth_error all best_idx = Some best ->
  best_idx < length pre ->
  (forall j a, j < length pre -> nth_error all j = Some a ->
               score_ltb best a = false) ->
  (forall j a, j < best_idx -> nth_error all j = Some a ->
               score_ltb a best = true) ->
  let i := argmax_from best_idx best (length pre) rest in
  exists b, nth_error all i = Some b
            /\ (forall j a, nth_error all j = Some a -> score_ltb b a = false)
            /\ (forall j a, j < i -> nth_error all j = Some a ->
                            score_ltb a b = true).
Proof.
  induction rest as [|x rest IH]; intros pre best_idx best Hall Hbest Hlt Hseen Hbefore.
  - simpl. exists best. split; [exact Hbest|]. split; [|exact Hbefore].
    intros j a Hj. apply (Hseen j a); [|exact Hj].
    rewrite app_nil_r in Hall. subst all.
    apply nth_error_Some. congruence.
  - assert (Hx : nth_error all (length pre) = Some x).
    { subst all. rewrite nth_error_app2 by lia. now rewrite Nat.sub_diag. }
    assert (Hall' : (pre ++ [x]) ++ rest = all) by now rewrite <- app_assoc.
    assert (Hlen : length (pre ++ [x]) = S (length pre))
      by (rewrite length_app; simpl; lia).
    simpl. destruct (score_ltb best x) eqn:E.
    + specialize (IH (pre ++ [x]) (length pre) x Hall' Hx).
      rewrite Hlen in IH. apply IH; [lia| |].
      * intros j a Hj Ha.
        destruct (Nat.eq_dec j (length pre)) as [->|Hne].
        -- rewrite Hx in Ha. injection Ha as <-. apply ltb_irrefl.
        -- destruct (score_ltb x a) eqn:Exa; [|reflexivity].
           pose proof (@ltb_trans _ _ _ E Exa) as Hc.
           rewrite (Hseen j a) in Hc; [discriminate|lia|exact Ha].
      * intros j a Hj Ha.
        destruct (score_ltb a x) eqn:Eax; [reflexivity|].
        destruct (Nat.lt_trichotomy j best_idx) as [Hjb|[->|Hjb]].
        -- pose proof (@ltb_trans _ _ _ (Hbefore j a Hjb Ha) E). congruence.
        -- rewrite Hbest in Ha. injection Ha as <-. congruence.
        -- pose proof (@ltb_incomparable _ _ _ (Hseen j a ltac:(lia) Ha) Eax).
           congruence.
    + specialize (IH (pre ++ [x]) best_idx best Hall' Hbest).
      rewrite Hlen in IH. apply IH; [lia| |exact Hbefore].
      intros j a Hj Ha.
      destruct (Nat.eq_dec j (length pre)) as [->|Hne].
      * rewrite Hx in Ha. now injection Ha as <-.
      * apply (Hseen j a); [lia|exact Ha].
Qed.

Lemma argmax_first_max scores :
  scores <> [] ->
  exists i b,
    argmax scores = Ok i /\ nth_error scores i = Some b
    /\ (forall j a, nth_error scores j = Some a -> score_ltb b a = false)
    /\ (forall j a, j < i -> nth_error scores j = Some a ->
                    score_ltb a b = true).
Proof.
  destruct scores as [|x rest]; [congruence|]. intros _.
  destruct (@argmax_from_first_max (x :: rest) rest [x] 0 x eq_refl eq_refl)
    as (b & H1 & H2 & H3).
  - simpl. lia.
  - intros j a Hj Ha. simpl in Hj. assert (j = 0) by lia. subst j.
    simpl in Ha. injection Ha as <-. apply ltb_irrefl.
  - intros j a Hj. lia.
  - eexists. exists b. split; [reflexivity|]. auto.
Qed.

End WithCollaborators.
End TitleFacts.

(** When the similarity scores are ordered by a strict weak order (as
    floats without NaN are), the title of a cluster of two or more
    sentences is made from the sentence closest to the centroid, the
    first one of them when several score the same: no sentence scores
    above it and every sentence before it scores below it. *)
Theorem title_from_most_central {C : Collaborators}
        (sentences : list Py.str) (embeddings : list row)
        (scores : list score) :
  (forall a, score_ltb a a = false) ->
  (forall a b c, score_ltb a b = true -> score_ltb b c = true ->
                 score_ltb a c = true) ->
  (forall a b c, score_ltb a b = false -> score_ltb b c = false ->
                 score_ltb a c = false) ->
  2 <= length sentences ->
  centroid_similarity embeddings = Py.Ok scores ->
  length scores = length sentences ->
  exists i s best,
    nth_error sentences i = Some s
    /\ nth_error scores i = Some best
    /\ TextProcessor.generate_topic_title sentences embeddings
       = Py.Ok (TextProcessor._shorten_sentence s 6)
    /\ (forall j a, nth_error scores j = Some a -> score_ltb best a = false)
    /\ (forall j a, j < i -> nth_error scores j = Some a ->
                    score_ltb a best = true).
Proof.
  intros Hirr Htrans Hinc Hn Hsim Hlen.
  destruct (@TitleFacts.argmax_first_max C Hirr Htrans Hinc scores)
    as (i & best & Hi & Hb & Hmax & Hfirst).
  { intros ->. simpl in Hlen. lia. }
  assert (Hlt : i < length sentences).
  { rewrite <- Hlen. apply nth_error_Some. congruence. }
  destruct (nth_error sentences i) as [s|] eqn:Es;
    [|apply nth_error_None in Es; lia].
  exists i, s, best. split; [exact Es|]. split; [exact Hb|].
  split; [|split; assumption].
  destruct sentences as [|s1 [|s2 rest]]; simpl in Hn; try lia.
  unfold TextProcessor.generate_topic_title. rewrite Hsim. simpl Py.bind.
  rewrite Hi. simpl Py.bind. unfold Py.getitem. now rewrite Es.
Qed.

(** Three sentences scored 20, 23, 23 (their lengths, for the stand-in
    kernel): the title comes from the second one. *)
Lemma title_from_most_central_witness :
  let C := Demo.stub in
  let sentences := [Py.lit "Revenue grew sharply"; Py.lit "Costs also grew a lot";
                    Py.lit "Margins held up nicely"] in
  exists i s best,
    nth_error sentences i = Some s
    /\ nth_error [20%Z; 23%Z; 23%Z] i = Some best
    /\ TextProcessor.generate_topic_title sentences [20%Z; 23%Z; 23%Z]
       = Py.Ok (TextProcessor._shorten_sentence s 6)
    /\ (forall j a, nth_error [20%Z; 23%Z; 23%Z] j = Some a ->
                    score_ltb best a = false)
    /\ (forall j a, j < i -> nth_error [20%Z; 23%Z; 23%Z] j = Some a ->
                    score_ltb a best = true).
Proof.
  intros C sentences.
  apply (@title_from_most_central C sentences [20%Z; 23%Z; 23%Z]
           [20%Z; 23%Z; 23%Z]).
  - intros a. apply Z.ltb_irrefl.
  - intros a b c H1 H2. apply Z.ltb_lt in H1, H2. apply Z.ltb_lt. lia.
  - intros a b c H1 H2. apply Z.ltb_ge in H1, H2. apply Z.ltb_ge. lia.
  - simpl. lia.
  - reflexivity.
  - reflexivity.
Defined.

(* ===================================================================== *)
(** * What the topics of a result are made of *)
(* ===================================================================== *)

Module ContentFacts.
Import Py TextProcessor Notions Shape.

Lemma append_at_filled sentences label s clusters :
  In s sentences -> Forall (filled sentences) clusters ->
  Forall (filled sentences) (append_at label s clusters).
Proof.
  intros Hs. induction 1 as [|[k v] clusters [Hv Hi] Hrest IH]; [constructor|].
  simpl. destruct (k =? label)%Z.
  - constructor; [|assumption]. split; simpl.
    + destruct v; discriminate.
    + intros x Hx. apply in_app_or in Hx. destruct Hx as [Hx|[<-|[]]]; auto.
  - constructor; [now split|exact IH].
Qed.

Lemma add_sentence_filled sentences clusters p :
  In (snd p) sentences -> Forall (filled sentences) clusters ->
  Forall (filled sentences) (add_sentence clusters p).
Proof.
  intros Hs Hc. unfold add_sentence.
  destruct (contains (fst p) clusters) eqn:E.
  - now apply append_at_filled.
  - rewrite ClusterFacts.append_at_fresh by exact E.
    apply Forall_app. split; [exact Hc|]. constructor; [|constructor].
    split; simpl; [discriminate|]. intros x [<-|[]]. exact Hs.
Qed.

Lemma add_sentence_length clusters p :
  length (add_sentence clusters p) <= S (length clusters).
Proof.
  unfold add_sentence.
  assert (H : forall l s c, length (append_at l s c) = length c).
  { intros l s c. rewrite <- (length_map fst), ClusterFacts.map_fst_append_at.
    apply length_map. }
  rewrite H. destruct (contains (fst p) clusters); [lia|].
  rewrite length_app. simpl. lia.
Qed.

(** The loop, whatever the labels are: when it ends without an exception
    there were no more labels than sentences, no key occurs twice, no
    cluster is empty and every cluster is made of sentences of the text. *)
Lemma group_loop_filled all sentences : forall labels idx clusters r,
  group_loop all sentences idx labels clusters = Ok r ->
  NoDup (map fst clusters) -> Forall (filled sentences) clusters ->
  NoDup (map fst r) /\ Forall (filled sentences) r
  /\ length r <= length clusters + length labels
  /\ (labels <> [] -> idx + length labels <= length sentences).
Proof.
  induction labels as [|label labels IH]; intros idx clusters r Hr Hnd Hf.
  - simpl in Hr. injection Hr as <-. repeat split; auto.
    + simpl. lia.
    + congruence.
  - simpl group_loop in Hr.
    destruct (if (label =? -1)%Z
              then bind (max_of all) (fun m => Ok (m + 1)%Z)
              else Ok label) as [l|e]; [|discriminate].
    simpl bind in Hr. unfold getitem in Hr at 1.
    destruct (nth_error sentences idx) as [s|] eqn:Es; [|discriminate].
    simpl bind in Hr.
    change (append_at l s (if contains l clusters then clusters
                           else clusters ++ [(l, [])]))
      with (add_sentence clusters (l, s)) in Hr.
    apply IH in Hr.
    + destruct Hr as (H1 & H2 & H3 & H4). repeat split; auto.
      * pose proof (add_sentence_length clusters (l, s)). simpl. lia.
      * intros _. assert (idx < length sentences)
          by (apply nth_error_Some; congruence).
        destruct labels as [|l2 labels']; [simpl; lia|].
        specialize (H4 ltac:(discriminate)). simpl in *. lia.
    + now apply ClusterFacts.NoDup_add_sentence.
    + apply add_sentence_filled; [|exact Hf]. simpl.
      eapply nth_error_In. exact Es.
Qed.

Section WithCollaborators.
Context {C : Collaborators}.

Lemma cluster_sentences_filled sentences embeddings n_clusters clusters :
  sentences <> [] ->
  snd (cluster_sentences sentences embeddings n_clusters) = Ok clusters ->
  NoDup (map fst clusters) /\ Forall (filled sentences) clusters
  /\ length clusters <= length sentences.
Proof.
  intros Hne. unfold cluster_sentences.
  destruct (length sentences <? 2) eqn:E.
  - simpl. intros H. injection H as <-. split; [|split].
    + repeat constructor. simpl. tauto.
    + repeat constructor; [exact Hne|]. simpl. apply incl_refl.
    + destruct sentences; [congruence|simpl; lia].
  - cbv zeta. simpl snd. intros H.
    apply group_loop_filled in H; [|constructor|constructor].
    destruct H as (H1 & H2 & H3 & H4). repeat split; auto.
    simpl in H3.
    match type of H3 with _ <= length ?labels =>
      destruct labels as [|l rest] eqn:El end.
    + simpl in H3. lia.
    + specialize (H4 ltac:(discriminate)). simpl in *. lia.
Qed.

Lemma rank_bullets_incl v rows max_bullets bs :
  rank_bullets v rows max_bullets = Ok bs ->
  incl bs v /\ ((Z.of_nat (length v) <= max_bullets)%Z -> bs = v).
Proof.
  unfold rank_bullets.
  destruct (Z.of_nat (length v) <=? max_bullets)%Z eqn:E.
  - intros H. injection H as <-. split; [apply incl_refl|reflexivity].
  - apply Z.leb_gt in E.
    destruct (centroid_similarity rows) as [scores|e]; [|discriminate].
    simpl bind. intros H. apply TopicFacts.traverse_inv in H. split; [|lia].
    clear E. induction H as [|i b idxs bs' Hi _ IH]; [intros x []|].
    intros x [<-|Hx]; [|now apply IH].
    unfold getitem in Hi. destruct (nth_error v i) eqn:En; [|discriminate].
    injection Hi as <-. eapply nth_error_In. exact En.
Qed.

Lemma title_from_cluster v rows title :
  v <> [] -> generate_topic_title v rows = Ok title ->
  exists s, In s v /\ title = _shorten_sentence s 6.
Proof.
  intros Hv. destruct v as [|s1 [|s2 rest]]; [congruence| |].
  - simpl. intros H. injection H as <-. exists s1. simpl. auto.
  - unfold generate_topic_title.
    destruct (centroid_similarity rows) as [scores|e]; [|discriminate].
    simpl bind. destruct (argmax scores) as [i|e]; [|discriminate].
    simpl bind. unfold getitem.
    destruct (nth_error (s1 :: s2 :: rest) i) as [s|] eqn:En; [|discriminate].
    cbn [bind]. intros H. injection H as <-. exists s. split; [|reflexivity].
    exact (nth_error_In _ _ En).
Qed.

Lemma make_topic_drawn sentences embeddings kv t :
  filled sentences kv ->
  make_topic sentences embeddings kv = Ok t ->
  id t = fst kv /\ drawn_from sentences t.
Proof.
  destruct kv as [k v]. intros [Hv Hi]. simpl in Hv, Hi. unfold make_topic.
  destruct (traverse _ _) as [rows|e]; [|discriminate]. simpl bind.
  destruct (generate_topic_title v rows) as [title|e] eqn:Et; [|discriminate].
  simpl bind.
  destruct (rank_bullets v rows Config.MAX_BULLETS_PER_SLIDE) as [bs|e] eqn:Eb;
    [|discriminate].
  simpl bind. intros H. injection H as <-. split; [reflexivity|].
  destruct (@rank_bullets_incl v rows _ bs Eb) as [Hincl Hall].
  destruct (@title_from_cluster v rows title Hv Et) as (s & Hs & Htitle).
  unfold drawn_from. simpl. split; [|split; [|split; [|split]]].
  - destruct v; [congruence|simpl; lia].
  - now apply TopicFacts.rank_bullets_length in Eb.
  - intros H5. rewrite Hall; [reflexivity|].
    change Config.MAX_BULLETS_PER_SLIDE with 5%Z. lia.
  - intros b Hb. auto.
  - exists s. auto.
Qed.

Lemma process_text_drawn text r :
  let sentences := split_sentences (clean_text text) in
  process_text text = Ok r ->
  NoDup (map id (topics r))
  /\ length (topics r) <= length sentences
  /\ Forall (drawn_from sentences) (topics r).
Proof.
  intros sentences Hr.
  assert (Hcase : sentences = [] \/ sentences <> []).
  { destruct sentences; [now left|right; discriminate]. }
  destruct Hcase as [Es|Hne].
  - unfold process_text in Hr. fold sentences in Hr. rewrite Es in Hr.
    injection Hr as <-. simpl. repeat split; [constructor|lia|constructor].
  - rewrite SynthesisFacts.process_text_nonempty in Hr by exact Hne.
    cbv zeta in Hr. fold sentences in Hr.
    destruct (snd (cluster_sentences sentences _ None)) as [clusters|e] eqn:Ec;
      [|discriminate].
    simpl bind in Hr.
    destruct (traverse _ clusters) as [made|e] eqn:Em; [|discriminate].
    simpl in Hr. injection Hr as <-. cbn [topics].
    destruct (@cluster_sentences_filled sentences _ None clusters Hne Ec) as (Hnd & Hf & Hlen).
    apply TopicFacts.traverse_inv in Em.
    assert (Hmade : map id made = map fst clusters
                    /\ Forall (drawn_from sentences) made).
    { clear Hnd Hlen Ec. induction Em as [|kv t cl md Hkv _ IH].
      - split; constructor.
      - inversion Hf as [|? ? Hk Hcl]; subst.
        destruct (@make_topic_drawn sentences _ kv t Hk Hkv) as [Hid Hd].
        destruct (IH Hcl) as [IH1 IH2]. split.
        + simpl. now rewrite Hid, IH1.
        + now constructor. }
    destruct Hmade as [Hids Hd].
    pose proof (ProcessFacts.sort_topics_perm made) as Hp.
    split; [|split].
    + apply (Permutation_NoDup (l := map id made)).
      * apply Permutation_map. now symmetry.
      * now rewrite Hids.
    + rewrite ProcessFacts.sort_topics_length, <- (Forall2_length Em).
      exact Hlen.
    + apply Forall_forall. intros t Ht. rewrite Forall_forall in Hd.
      apply Hd. apply (Permutation_in _ Hp Ht).
Qed.

End WithCollaborators.
End ContentFacts.

(** In every result of [process_text] the topic ids are distinct, there
    are no more topics than sentences, and every topic stands for at
    least one sentence, shows at most five bullets (all of its sentences
    when it has five or fewer), each bullet being a sentence of the
    cleaned text, and has a title shortened from such a sentence.  This
    needs nothing from the encoder, the clusterer or the numeric kernels;
    when they behave and equal sentence texts get equal labels there is a
    result. *)
Theorem process_text_topics {C : Collaborators} (text : Py.str) :
  let sentences :=
    TextProcessor.split_sentences (TextProcessor.clean_text text) in
  (forall r,
      TextProcessor.process_text text = Py.Ok r ->
      NoDup (map TextProcessor.id (TextProcessor.topics r))
      /\ length (TextProcessor.topics r) <= length sentences
      /\ Forall (Shape.drawn_from sentences) (TextProcessor.topics r))
  /\ (Notions.collaborators_behave ->
      Notions.one_label_per_text
        (combine (Notions.run_labels sentences) sentences) = true ->
      exists r, TextProcessor.process_text text = Py.Ok r).
Proof.
  intros sentences. split.
  - intros r Hr. exact (@ContentFacts.process_text_drawn C text r Hr).
  - intros HB Hone.
    assert (Hcase : sentences = [] \/ sentences <> []).
    { destruct sentences; [now left|right; discriminate]. }
    destruct Hcase as [Es|Hne].
    + unfold TextProcessor.process_text. fold sentences. rewrite Es. eauto.
    + destruct (@ProcessFacts.process_text_ok C text HB Hone Hne)
        as (clusters & made & _ & _ & Hr).
      eexists. exact Hr.
Qed.

(** On a text of four sentences in two clusters. *)
Lemma process_text_topics_witness :
  let C := Demo.stub in
  let text :=
    Py.lit "a b c. d e f. Revenue grew sharply. Costs also grew ok." in
  let sentences :=
    TextProcessor.split_sentences (TextProcessor.clean_text text) in
  exists r : TextProcessor.processed,
    TextProcessor.process_text text = Py.Ok r
    /\ NoDup (map TextProcessor.id (TextProcessor.topics r))
    /\ length (TextProcessor.topics r) <= length sentences
    /\ Forall (Shape.drawn_from sentences) (TextProcessor.topics r).
Proof.
  intros C text sentences.
  destruct (@process_text_topics C text) as [Hall Hex].
  destruct (Hex DemoFacts.stub_behaves ltac:(vm_compute; reflexivity))
    as [r Hr].
  exists r. split; [exact Hr|]. exact (Hall r Hr).
Defined.

(* ===================================================================== *)
(** * The characters of titles and bullets *)
(* ===================================================================== *)

Module CharFacts.
Import Py TextProcessor Shape.

Lemma split_Forall (Q : char -> Prop) s :
  Forall Q s -> Forall (Forall Q) (split s).
Proof.
  induction 1 as [|c rest Hc Hrest IH]; [constructor|].
  rewrite TokenFacts.split_cons. destruct (isspace c); [exact IH|].
  assert (H1 : Forall Q [c]) by now repeat constructor.
  destruct rest as [|c' rest']; [now repeat constructor|].
  destruct (isspace c'); [now constructor|].
  destruct (split (c' :: rest')) as [|w ws]; [now repeat constructor|].
  inversion IH; subst. constructor; [now constructor|assumption].
Qed.

Lemma join_Forall (Q : char -> Prop) sep ws :
  Forall Q sep -> Forall (Forall Q) ws -> Forall Q (join sep ws).
Proof.
  intros Hsep. induction 1 as [|w ws Hw Hws IH]; [constructor|].
  destruct ws as [|w2 ws']; [exact Hw|].
  change (join sep (w :: w2 :: ws')) with (w ++ sep ++ join sep (w2 :: ws')).
  apply Forall_app. split; [exact Hw|]. apply Forall_app. now split.
Qed.

Lemma split_sentence_ends_Forall (Q : char -> Prop) t : forall b,
  Forall Q t ->
  Forall (Forall (fun c => Q c /\ Re.sentence_end c = false))
         (Re.split_sentence_ends b t).
Proof.
  induction t as [|c t IH]; intros b Ht.
  - now repeat constructor.
  - inversion Ht as [|? ? Hc Hrest]; subst.
    rewrite SegmentFacts.split_sentence_ends_cons.
    destruct (Re.sentence_end c) eqn:E.
    + destruct b; [now apply IH|]. constructor; [constructor|now apply IH].
    + specialize (IH false Hrest).
      destruct (Re.split_sentence_ends false t) as [|p ps];
        [now repeat constructor|].
      inversion IH; subst. constructor; [|assumption].
      constructor; [now split|assumption].
Qed.

Lemma split_sentences_chars (Q : char -> Prop) text :
  Forall Q text ->
  Forall (Forall (fun c => Q c /\ Re.sentence_end c = false))
         (split_sentences text).
Proof.
  intros Ht. apply Forall_forall. intros s Hs.
  unfold split_sentences in Hs.
  apply filter_In in Hs. destruct Hs as [Hs _].
  apply in_map_iff in Hs. destruct Hs as (piece & <- & Hp).
  apply filter_In in Hp. destruct Hp as [Hp _].
  apply PyFacts.Forall_strip.
  pose proof (@split_sentence_ends_Forall Q text false Ht) as H.
  rewrite Forall_forall in H. now apply H.
Qed.

Section WithCollaborators.
Context {C : Collaborators}.

Lemma sentences_printable text :
  Forall (Forall (fun c => printable c = true))
         (split_sentences (clean_text text)).
Proof.
  pose proof (CleanFacts.clean_text_plain text) as Hp.
  pose proof (CleanFacts.clean_text_kept text) as Hk.
  unfold Notions.plain_spaces in Hp.
  assert (H : Forall (fun c => (isspace c = true -> c = 32%N)
                               /\ Re.kept uni_alnum c = true)
                     (clean_text text)).
  { rewrite Forall_forall in *. intros c Hc. split; auto. }
  apply split_sentences_chars in H.
  eapply Forall_impl; [|exact H]. intros s Hs.
  eapply Forall_impl; [|exact Hs]. intros c [[Hsp Hkept] Hend].
  unfold printable. unfold Re.kept in Hkept.
  destruct (isword uni_alnum c); [reflexivity|].
  destruct (isspace c) eqn:E.
  - rewrite (Hsp eq_refl). reflexivity.
  - simpl in Hkept. unfold Re.kept_punct in Hkept.
    unfold Re.sentence_end in Hend.
    destruct (c =? 46)%N, (c =? 44)%N, (c =? 33)%N, (c =? 63)%N, (c =? 45)%N;
      simpl in *; try discriminate; now rewrite ?orb_true_r.
Qed.

Lemma shorten_printable s :
  Forall (fun c => printable c = true) s ->
  Forall (fun c => printable c = true) (_shorten_sentence s 6).
Proof.
  intros Hs. unfold _shorten_sentence.
  destruct (Z.of_nat (length (split s)) <=? 6)%Z.
  - unfold rstrip. now apply PyFacts.Forall_rstrip_by.
  - apply Forall_app. split.
    + apply join_Forall.
      * repeat constructor.
      * unfold slice_to. apply Forall_forall. intros w Hw.
        pose proof (split_Forall Hs) as Hall. rewrite Forall_forall in Hall.
        apply Hall.
        match type of Hw with In _ (firstn ?n _) =>
          rewrite <- (firstn_skipn n (split s)) end.
        apply in_or_app. left. exact Hw.
    + repeat constructor.
Qed.

Lemma process_text_printable text r :
  process_text text = Ok r ->
  Forall (fun t =>
            Forall (fun c => printable c = true) (title t)
            /\ Forall (Forall (fun c => printable c = true)) (bullets t))
         (topics r).
Proof.
  intros Hr.
  destruct (@ContentFacts.process_text_drawn C text r Hr) as (_ & _ & Hd).
  pose proof (sentences_printable text) as Hp. rewrite Forall_forall in Hp.
  eapply Forall_impl; [|exact Hd].
  intros t (_ & _ & _ & Hb & s & Hs & Ht). split.
  - rewrite Ht. apply shorten_printable. now apply Hp.
  - apply Forall_forall. intros b Hin. apply Hp. now apply Hb.
Qed.

(** No line break and none of [< > &] is printable. *)
Lemma printable_plain c :
  printable c = true ->
  c <> 10%N /\ c <> 13%N /\ c <> 38%N /\ c <> 60%N /\ c <> 62%N.
Proof.
  intros H. repeat split; intros ->; discriminate.
Qed.

End WithCollaborators.
End CharFacts.

(** The titles and bullets of every result of [process_text] hold only
    word characters, the plain space and [, - .]; so they hold no line
    break and none of the markup characters [< > &], whatever the input
    text was. *)
Theorem process_text_output_chars {C : Collaborators} (text : Py.str) :
  let sentences :=
    TextProcessor.split_sentences (TextProcessor.clean_text text) in
  (forall r,
      TextProcessor.process_text text = Py.Ok r ->
      Forall (fun t =>
                forallb Shape.printable (TextProcessor.title t) = true
                /\ Forall (fun b => forallb Shape.printable b = true)
                          (TextProcessor.bullets t)
                /\ (forall c,
                       In c (TextProcessor.title t)
                       \/ In c (concat (TextProcessor.bullets t)) ->
                       ~ In c [10%N; 13%N; 38%N; 60%N; 62%N]))
             (TextProcessor.topics r))
  /\ (Notions.collaborators_behave ->
      Notions.one_label_per_text
        (combine (Notions.run_labels sentences) sentences) = true ->
      exists r, TextProcessor.process_text text = Py.Ok r).
Proof.
  intros sentences. split.
  - intros r Hr.
    pose proof (@CharFacts.process_text_printable C text r Hr) as H.
    eapply Forall_impl; [|exact H]. intros t [Ht Hb].
    split; [|split].
    + apply forallb_forall. now apply Forall_forall.
    + eapply Forall_impl; [|exact Hb]. intros b Hb'.
      apply forallb_forall. now apply Forall_forall.
    + intros c Hc Hbad.
      assert (Hp : Shape.printable c = true).
      { destruct Hc as [Hc|Hc].
        - rewrite Forall_forall in Ht. now apply Ht.
        - apply in_concat in Hc. destruct Hc as (b & Hin & Hc).
          rewrite Forall_forall in Hb. specialize (Hb b Hin).
          rewrite Forall_forall in Hb. now apply Hb. }
      destruct (@CharFacts.printable_plain C c Hp) as (H1 & H2 & H3 & H4 & H5).
      simpl in Hbad. intuition congruence.
  - intros HB Hone.
    assert (Hcase : sentences = [] \/ sentences <> []).
    { destruct sentences; [now left|right; discriminate]. }
    destruct Hcase as [Es|Hne].
    + unfold TextProcessor.process_text. fold sentences. rewrite Es. eauto.
    + destruct (@ProcessFacts.process_text_ok C text HB Hone Hne)
        as (clusters & made & _ & _ & Hr).
      eexists. exact Hr.
Qed.

(** On a text with markup. *)
Lemma process_text_output_chars_witness :
  let C := Demo.stub in
  let text :=
    Py.lit "<b>Revenue & costs</b> grew sharply. Costs also grew > 5 percent." in
  exists r : TextProcessor.processed,
    TextProcessor.process_text text = Py.Ok r
    /\ Forall (fun t =>
                 forallb Shape.printable (TextProcessor.title t) = true
                 /\ Forall (fun b => forallb Shape.printable b = true)
                           (TextProcessor.bullets t)
                 /\ (forall c,
                        In c (TextProcessor.title t)
                        \/ In c (concat (TextProcessor.bullets t)) ->
                        ~ In c [10%N; 13%N; 38%N; 60%N; 62%N]))
              (TextProcessor.topics r).
Proof.
  intros C text.
  destruct (@process_text_output_chars C text) as [Hall Hex].
  destruct (Hex DemoFacts.stub_behaves ltac:(vm_compute; reflexivity))
    as [r Hr].
  exists r. split; [exact Hr|]. exact (Hall r Hr).
Defined.

(* ===================================================================== *)
(** * Clusters and labels *)
(* ===================================================================== *)

Module LabelFacts.
Import Py TextProcessor Notions.

Lemma select_nonempty k labels : forall (sentences : list str),
  length labels = length sentences -> In k labels ->
  select k (combine labels sentences) <> [].
Proof.
  induction labels as [|l labels IH]; intros [|s sentences] Hlen Hin;
    try discriminate; [destruct Hin|].
  simpl combine. destruct (l =? k)%Z eqn:E.
  - apply Z.eqb_eq in E. subst l. rewrite ClusterFacts.select_cons_same.
    discriminate.
  - rewrite ClusterFacts.select_cons_other by exact E.
    apply IH; [now injection Hlen|].
    destruct Hin as [->|Hin]; [|exact Hin]. now rewrite Z.eqb_refl in E.
Qed.

End LabelFacts.

(** With two sentences or more and one label per sentence, the returned
    dict has, for every label [k] other than [-1] that the clusterer
    used, the entry [k] with exactly the sentences labelled [k], in the
    order of the text; and every entry of the dict is not empty and is
    either such a cluster or, under the key [max(labels) + 1], the
    sentences labelled [-1]. *)
Theorem clusters_by_label {C : Collaborators}
        (sentences : list Py.str) (embeddings : list row)
        (n_clusters : option Z) (c : clusterer) :
  2 <= length sentences ->
  fst (TextProcessor.cluster_sentences sentences embeddings n_clusters) = [c] ->
  length (fit_predict c embeddings) = length sentences ->
  let labels := fit_predict c embeddings in
  let pairs := combine labels sentences in
  exists m clusters,
    TextProcessor.max_of labels = Py.Ok m
    /\ snd (TextProcessor.cluster_sentences sentences embeddings n_clusters)
       = Py.Ok clusters
    /\ (forall k, In k labels -> k <> (-1)%Z ->
                  In (k, Notions.select k pairs) clusters)
    /\ (forall k v, In (k, v) clusters ->
                    v <> []
                    /\ v = Notions.select
                             (if (k =? m + 1)%Z then (-1)%Z else k) pairs).
Proof.
  intros Hn Hc Hlen labels pairs.
  destruct (@ClusterFacts.cluster_sentences_grouped C sentences embeddings
              n_clusters c Hn Hc Hlen) as (m & Hm & Hres).
  fold labels in Hm, Hres, Hlen.
  exists m. eexists. split; [exact Hm|]. split; [exact Hres|].
  pose proof (ClusterFacts.max_of_bound _ Hm) as Hb.
  assert (Hlen' : length (map (Notions.relabel m) labels) = length sentences)
    by now rewrite length_map.
  assert (Hle : forall k, In k labels -> (k <= m)%Z).
  { intros k Hk. rewrite Forall_forall in Hb. now apply Hb. }
  split.
  - intros k Hk Hk1. apply ClusterFacts.grouped_In. split.
    + rewrite ClusterFacts.map_fst_combine by exact Hlen'.
      apply in_map_iff. exists k. split; [|exact Hk].
      unfold Notions.relabel. destruct (k =? -1)%Z eqn:E; [|reflexivity].
      apply Z.eqb_eq in E. congruence.
    + symmetry. apply ClusterFacts.select_regular; [exact Hb| |exact Hk1].
      specialize (Hle k Hk). lia.
  - intros k v Hin. apply ClusterFacts.grouped_In in Hin.
    destruct Hin as [Hk ->].
    rewrite ClusterFacts.map_fst_combine in Hk by exact Hlen'.
    apply in_map_iff in Hk. destruct Hk as (l & Hl & Hin).
    unfold Notions.relabel in Hl. destruct (l =? -1)%Z eqn:E.
    + apply Z.eqb_eq in E. subst l k. rewrite Z.eqb_refl.
      rewrite ClusterFacts.select_noise by exact Hb. split; [|reflexivity].
      now apply LabelFacts.select_nonempty.
    + subst l. apply Z.eqb_neq in E. specialize (Hle k Hin).
      replace (k =? m + 1)%Z with false by (symmetry; apply Z.eqb_neq; lia).
      rewrite ClusterFacts.select_regular; [|exact Hb|lia|exact E].
      split; [|reflexivity]. now apply LabelFacts.select_nonempty.
Qed.

(** Four sentences that the stand-in HDBSCAN labels [-1; 0; 1; -1]. *)
Lemma clusters_by_label_witness :
  let C := Demo.stub in
  let sentences := [Py.lit "a b c"; Py.lit "Revenue grew sharply";
                    Py.lit "Costs also grew"; Py.lit "x y z"] in
  let embeddings := TextProcessor.generate_embeddings sentences in
  let labels := fit_predict (HDBSCAN 2 "euclidean") embeddings in
  let pairs := combine labels sentences in
  exists m clusters,
    TextProcessor.max_of labels = Py.Ok m
    /\ snd (TextProcessor.cluster_sentences sentences embeddings None)
       = Py.Ok clusters
    /\ (forall k, In k labels -> k <> (-1)%Z ->
                  In (k, Notions.select k pairs) clusters)
    /\ (forall k v, In (k, v) clusters ->
                    v <> []
                    /\ v = Notions.select
                             (if (k =? m + 1)%Z then (-1)%Z else k) pairs).
Proof.
  intros C sentences embeddings labels pairs.
  exact (@clusters_by_label C sentences embeddings None
           (HDBSCAN 2 "euclidean") ltac:(simpl; lia) eq_refl eq_refl).
Defined.

(* ===================================================================== *)
(** * The OCR engine *)
(* ===================================================================== *)

Module OcrFacts.
Import Py OCR.

Lemma split_lstrip s : split (lstrip_by isspace s) = split s.
Proof.
  induction s as [|c rest IH]; [reflexivity|].
  simpl lstrip_by. destruct (isspace c) eqn:E; [|reflexivity].
  now rewrite TokenFacts.split_cons, E.
Qed.

Lemma split_spaces suf : forallb isspace suf = true -> split suf = [].
Proof.
  induction suf as [|c suf IH]; [reflexivity|].
  simpl forallb. intros H. apply andb_true_iff in H. destruct H as [Hc Hs].
  rewrite TokenFacts.split_cons, Hc. now apply IH.
Qed.

Lemma split_app_spaces suf : forallb isspace suf = true ->
  forall a, split (a ++ suf) = split a.
Proof.
  intros Hs. induction a as [|c a IH]; [now apply split_spaces|].
  rewrite <- app_comm_cons, !TokenFacts.split_cons.
  destruct (isspace c); [exact IH|].
  destruct a as [|c' a'].
  - simpl app. destruct suf as [|x suf']; [reflexivity|].
    simpl in Hs. apply andb_true_iff in Hs. destruct Hs as [Hx Hs'].
    rewrite Hx. rewrite TokenFacts.split_cons, Hx.
    now rewrite (split_spaces _ Hs').
  - cbn [app] in *. destruct (isspace c'); now rewrite IH.
Qed.

(** [len(text.split())] is the word count of [text.strip()] too. *)
Lemma split_strip s : split (strip s) = split s.
Proof.
  unfold strip.
  destruct (PyFacts.rstrip_by_prefix isspace (lstrip_by isspace s))
    as (suf & E & Hsuf).
  rewrite <- (split_lstrip s). rewrite E at 2.
  now rewrite split_app_spaces.
Qed.

(** Whitespace between two texts keeps their words apart and adds none. *)
Lemma split_app_space x : isspace x = true ->
  forall a b, split (a ++ x :: b) = split a ++ split b.
Proof.
  intros Hx. induction a as [|c a IH]; intros b.
  - simpl app. now rewrite TokenFacts.split_cons, Hx.
  - rewrite <- app_comm_cons, !TokenFacts.split_cons.
    destruct (isspace c) eqn:Ec; [apply IH|].
    destruct a as [|c' a'].
    + cbn [app]. rewrite Hx. rewrite TokenFacts.split_cons, Hx. reflexivity.
    + specialize (IH b). cbn [app] in *. destruct (isspace c') eqn:Ec'.
      * now rewrite IH.
      * rewrite IH.
        pose proof (@TokenFacts.split_nonspace_nonempty c' a' Ec') as Hne.
        destruct (split (c' :: a')); [congruence|reflexivity].
Qed.

Lemma split_no_words s : split s = [] -> forallb isspace s = true.
Proof.
  induction s as [|c rest IH]; [reflexivity|].
  rewrite TokenFacts.split_cons. simpl forallb.
  destruct (isspace c) eqn:E; [exact IH|].
  intros H. exfalso. destruct rest as [|c' rest']; [discriminate|].
  destruct (isspace c'); [discriminate|].
  destruct (split (c' :: rest')); discriminate.
Qed.

Lemma strip_no_words s : split s = [] -> strip s = [].
Proof.
  intros H. apply split_no_words in H. unfold strip.
  replace (lstrip_by isspace s) with (@nil char); [reflexivity|].
  induction s as [|c rest IH]; [reflexivity|].
  simpl in H. apply andb_true_iff in H. destruct H as [Hc Hr].
  simpl. rewrite Hc. now apply IH.
Qed.

Lemma join_blank_lines_words ts :
  split (join [10%N; 10%N] ts) = concat (map split ts).
Proof.
  induction ts as [|t ts IH]; [reflexivity|].
  destruct ts as [|t2 ts'].
  - simpl. now rewrite app_nil_r.
  - change (join [10%N; 10%N] (t :: t2 :: ts'))
      with (t ++ 10%N :: 10%N :: join [10%N; 10%N] (t2 :: ts')).
    rewrite (@split_app_space 10%N eq_refl).
    rewrite TokenFacts.split_cons. change (isspace 10%N) with true.
    cbv iota. rewrite IH. reflexivity.
Qed.

Lemma fold_add_sum l : forall n, fold_left Nat.add l n = n + list_sum l.
Proof.
  induction l as [|x l IH]; intros n; simpl; [lia|]. rewrite IH. lia.
Qed.

Section WithBackend.
Context {B : Backend}.
Variable language : str.

Lemma extract_text_counts path pp :
  let r := extract_text language path pp in
  word_count r = length (split (text r)) /\ strip (text r) = text r.
Proof.
  unfold extract_text.
  destruct (and_then (image_open path) _) as [r|e] eqn:E.
  - destruct (image_open path) as [img|]; [|discriminate]. simpl in E.
    destruct (if pp then preprocess_image img else Done img) as [img'|];
      [|discriminate]. simpl in E.
    destruct (image_to_string img' language OCR_CONFIG) as [t|];
      [|discriminate]. simpl in E.
    destruct (image_to_data_conf img' language OCR_CONFIG) as [conf|];
      [|discriminate]. simpl in E.
    destruct (confidences conf) as [cs|]; [|discriminate]. simpl in E.
    injection E as <-. cbn [word_count text]. split.
    + now rewrite split_strip.
    + apply PyFacts.strip_idem.
  - split; reflexivity.
Qed.

Lemma batch_extract_map paths pp :
  batch_extract language paths pp
  = map (fun p => extract_text language p pp) paths.
Proof.
  unfold batch_extract.
  assert (H : forall acc,
             fold_left (fun results path =>
                          results ++ [extract_text language path pp])
                       paths acc
             = acc ++ map (fun p => extract_text language p pp) paths).
  { induction paths as [|p paths IH]; intros acc; simpl.
    - now rewrite app_nil_r.
    - rewrite IH, <- app_assoc. reflexivity. }
  apply (H []).
Qed.

Lemma combined_text_split (results : list extraction) :
  split (get_combined_text results)
  = concat (map (fun r => split (text r)) results).
Proof.
  unfold get_combined_text. rewrite join_blank_lines_words.
  induction results as [|r results IH]; [reflexivity|].
  cbn [filter map concat]. destruct (text r) eqn:E.
  - exact IH.
  - cbn [map concat]. rewrite E, IH. reflexivity.
Qed.

End WithBackend.
End OcrFacts.

(** Whatever PIL and pytesseract do, the result of [extract_text] has a
    [word_count] that is the number of words of its [text], a [text]
    without leading or trailing whitespace, and the path it was given as
    [source]; when it reports an error, its text is empty and its word
    count is 0. *)
Theorem extract_text_words {B : OCR.Backend} (language image_path : Py.str)
        (preprocess : bool) :
  let r := OCR.extract_text language image_path preprocess in
  OCR.word_count r = length (Py.split (OCR.text r))
  /\ Py.strip (OCR.text r) = OCR.text r
  /\ OCR.source r = image_path
  /\ (forall e, OCR.error r = Some e ->
                OCR.text r = [] /\ OCR.word_count r = 0).
Proof.
  intros r.
  destruct (@OcrFacts.extract_text_counts B language image_path preprocess)
    as [H1 H2].
  split; [exact H1|]. split; [exact H2|].
  subst r. unfold OCR.extract_text.
  destruct (OCR.and_then (OCR.image_open image_path) _) as [r|msg] eqn:E.
  - split.
    + destruct (OCR.image_open image_path) as [img|]; [|discriminate].
      simpl in E.
      destruct (if preprocess then OCR.preprocess_image img else OCR.Done img)
        as [img'|]; [|discriminate]. simpl in E.
      destruct (OCR.image_to_string img' language OCR.OCR_CONFIG) as [t|];
        [|discriminate]. simpl in E.
      destruct (OCR.image_to_data_conf img' language OCR.OCR_CONFIG) as [conf|];
        [|discriminate]. simpl in E.
      destruct (OCR.confidences conf) as [cs|]; [|discriminate]. simpl in E.
      now injection E as <-.
    + intros e He. exfalso.
      destruct (OCR.image_open image_path) as [img|]; [|discriminate].
      simpl in E.
      destruct (if preprocess then OCR.preprocess_image img else OCR.Done img)
        as [img'|]; [|discriminate]. simpl in E.
      destruct (OCR.image_to_string img' language OCR.OCR_CONFIG) as [t|];
        [|discriminate]. simpl in E.
      destruct (OCR.image_to_data_conf img' language OCR.OCR_CONFIG) as [conf|];
        [|discriminate]. simpl in E.
      destruct (OCR.confidences conf) as [cs|]; [|discriminate]. simpl in E.
      injection E as <-. discriminate.
  - split; [reflexivity|]. intros e _. split; reflexivity.
Qed.

(** An extraction that fails: there is no picture at the empty path. *)
Lemma extract_text_words_witness :
  let r := OCR.extract_text (B := OCR.stub_backend) (Py.lit "eng") [] true in
  OCR.text r = [] /\ OCR.word_count r = 0.
Proof.
  exact (proj2 (proj2 (proj2
           (@extract_text_words OCR.stub_backend (Py.lit "eng") [] true)))
           (Py.lit "cannot identify image file") eq_refl).
Defined.

(** The words of the combined text are the words of the single texts, in
    the order of the results; so for the results of [batch_extract] the
    combined text has as many words as the [word_count]s add up to (the
    total that [app.py] shows). *)
Theorem combined_text_words {B : OCR.Backend} (language : Py.str)
        (image_paths : list Py.str) (preprocess : bool) :
  (forall results : list OCR.extraction,
      Py.split (OCR.get_combined_text results)
      = concat (map (fun r => Py.split (OCR.text r)) results))
  /\ (let results := OCR.batch_extract language image_paths preprocess in
      length results = length image_paths
      /\ length (Py.split (OCR.get_combined_text results))
         = OCR.total_words results).
Proof.
  split; [apply OcrFacts.combined_text_split|].
  intros results. subst results.
  rewrite OcrFacts.batch_extract_map, length_map. split; [reflexivity|].
  rewrite OcrFacts.combined_text_split.
  unfold OCR.total_words. rewrite OcrFacts.fold_add_sum. simpl.
  rewrite TopicFacts.length_concat_sum, !map_map.
  f_equal. apply map_ext. intros p.
  symmetry. apply OcrFacts.extract_text_counts.
Qed.

(* ===================================================================== *)
(** * The slide generators *)
(* ===================================================================== *)

Module DeckFacts.
Import Py TextProcessor Slides Decks.

(** A loop that appends to a list. *)
Lemma fold_left_append (A B : Type) (f : B -> list A)
      (step : list A -> B -> list A) :
  (forall acc x, step acc x = acc ++ f x) ->
  forall l acc, fold_left step l acc = acc ++ flat_map f l.
Proof.
  intros Hstep. induction l as [|x l IH]; intros acc; simpl.
  - now rewrite app_nil_r.
  - rewrite IH, Hstep, <- app_assoc. reflexivity.
Qed.

Lemma flat_map_single (A B : Type) (g : B -> A) l :
  flat_map (fun x => [g x]) l = map g l.
Proof. induction l; simpl; congruence. Qed.

(** ** Markdown *)

Lemma md_lines_closed today d :
  md_lines today d
  = [lit "# AI-Generated Slide Deck"; [];
     lit "*Generated on " ++ today ++ lit "*"; []; lit "---"; []]
    ++ flat_map md_section (get_topics d)
    ++ [lit "## Summary"; []; summary_text d].
Proof.
  unfold md_lines. cbv zeta.
  rewrite (@fold_left_append _ _ md_section).
  - cbn [app]. rewrite <- !app_assoc. reflexivity.
  - intros acc t.
    rewrite (@fold_left_append _ _ (fun b => [lit "- " ++ b])).
    + rewrite flat_map_single. unfold md_section.
      rewrite <- !app_assoc. reflexivity.
    + reflexivity.
Qed.

Lemma split_lines_cons c rest :
  Fmt.split_lines (c :: rest) =
  if (c =? 10)%N then [] :: Fmt.split_lines rest
  else match Fmt.split_lines rest with
       | line :: lines => (c :: line) :: lines
       | [] => [[c]]
       end.
Proof. reflexivity. Qed.

Lemma split_lines_nonempty s : Fmt.split_lines s <> [].
Proof.
  destruct s as [|c rest]; [discriminate|]. rewrite split_lines_cons.
  destruct (c =? 10)%N; [discriminate|].
  destruct (Fmt.split_lines rest); discriminate.
Qed.

Lemma split_lines_one_line s : no_line_feed s = true -> Fmt.split_lines s = [s].
Proof.
  induction s as [|c rest IH]; [reflexivity|].
  unfold no_line_feed. simpl forallb. intros H.
  apply andb_true_iff in H. destruct H as [Hc Hr].
  apply negb_true_iff in Hc. rewrite split_lines_cons, Hc.
  now rewrite (IH Hr).
Qed.

Lemma split_lines_app s rest :
  no_line_feed s = true ->
  Fmt.split_lines (s ++ 10%N :: rest) = s :: Fmt.split_lines rest.
Proof.
  induction s as [|c s' IH]; [reflexivity|].
  unfold no_line_feed. simpl forallb. intros H.
  apply andb_true_iff in H. destruct H as [Hc Hr].
  apply negb_true_iff in Hc.
  rewrite <- app_comm_cons, split_lines_cons, Hc. now rewrite (IH Hr).
Qed.

(** Splitting at line feeds undoes the join of lines that hold none. *)
Lemma split_lines_join lines :
  lines <> [] -> forallb no_line_feed lines = true ->
  Fmt.split_lines (join [10%N] lines) = lines.
Proof.
  induction lines as [|l lines IH]; [congruence|]. intros _ H.
  simpl forallb in H. apply andb_true_iff in H. destruct H as [Hl Hls].
  destruct lines as [|l2 lines'].
  - simpl. now apply split_lines_one_line.
  - change (join [10%N] (l :: l2 :: lines'))
      with (l ++ 10%N :: join [10%N] (l2 :: lines')).
    rewrite split_lines_app by exact Hl. f_equal.
    apply IH; [discriminate|exact Hls].
Qed.

Lemma no_line_feed_app a b :
  no_line_feed (a ++ b) = no_line_feed a && no_line_feed b.
Proof. apply forallb_app. Qed.

Lemma digits_no_line_feed u : no_line_feed (Fmt.digits u) = true.
Proof. induction u; simpl; auto. Qed.

Lemma summary_no_line_feed d : no_line_feed (summary_text d) = true.
Proof.
  unfold summary_text, Fmt.decimal.
  now rewrite !no_line_feed_app, !digits_no_line_feed.
Qed.

Lemma md_section_one_line t :
  one_line_topic t = true -> forallb no_line_feed (md_section t) = true.
Proof.
  unfold one_line_topic, md_section. intros H.
  apply andb_true_iff in H. destruct H as [Ht Hb].
  apply forallb_forall. intros l Hl.
  apply in_app_or in Hl. destruct Hl as [Hl|Hl].
  - destruct Hl as [<-|[<-|[]]]; [|reflexivity].
    now rewrite no_line_feed_app, Ht.
  - apply in_app_or in Hl. destruct Hl as [Hl|Hl].
    + apply in_map_iff in Hl. destruct Hl as (b & <- & Hin).
      rewrite forallb_forall in Hb. now rewrite no_line_feed_app, (Hb b Hin).
    + destruct Hl as [<-|[<-|[<-|[]]]]; reflexivity.
Qed.

Lemma md_lines_one_line today d :
  no_line_feed today = true ->
  forallb one_line_topic (get_topics d) = true ->
  forallb no_line_feed (md_lines today d) = true.
Proof.
  intros Ht Hd. rewrite md_lines_closed, !forallb_app.
  apply andb_true_iff. split; [|apply andb_true_iff; split].
  - cbn [forallb]. rewrite !no_line_feed_app, Ht. reflexivity.
  - rewrite forallb_forall in Hd. apply forallb_forall. intros l Hl.
    apply in_flat_map in Hl. destruct Hl as (t & Hin & Hl).
    pose proof (md_section_one_line t (Hd t Hin)) as Hs.
    rewrite forallb_forall in Hs. now apply Hs.
  - cbn [forallb]. rewrite summary_no_line_feed. reflexivity.
Qed.

Lemma filter_length_flat_map (A B : Type) (p : A -> bool) (f : B -> list A)
      (n : B -> nat) l :
  (forall x, length (filter p (f x)) = n x) ->
  length (filter p (flat_map f l)) = list_sum (map n l).
Proof.
  intros H. induction l as [|x l IH]; [reflexivity|].
  simpl. now rewrite filter_app, length_app, IH, H.
Qed.

Lemma list_sum_const (A : Type) (l : list A) n :
  list_sum (map (fun _ => n) l) = n * length l.
Proof. induction l; simpl; lia. Qed.

Lemma str_eqb_false a b : a <> b -> str_eqb a b = false.
Proof.
  intros H. destruct (str_eqb a b) eqn:E; [|reflexivity].
  apply ProcessFacts.str_eqb_eq in E. congruence.
Qed.

Lemma no_separator_bullets bs :
  filter (str_eqb (lit "---")) (map (fun b => lit "- " ++ b) bs) = [].
Proof.
  induction bs as [|b bs IH]; [reflexivity|].
  cbn [map filter]. rewrite str_eqb_false; [exact IH|].
  intros H. inversion H.
Qed.

Lemma no_heading_bullets bs :
  filter (starts_with (lit "## ")) (map (fun b => lit "- " ++ b) bs) = [].
Proof. induction bs as [|b bs IH]; [reflexivity|exact IH]. Qed.

Lemma all_bullet_lines bs :
  filter (starts_with (lit "- ")) (map (fun b => lit "- " ++ b) bs)
  = map (fun b => lit "- " ++ b) bs.
Proof.
  induction bs as [|b bs IH]; [reflexivity|].
  cbn [map filter]. change (starts_with (lit "- ") (lit "- " ++ b)) with true.
  cbv iota. now rewrite IH.
Qed.

Lemma md_section_separators t : separators (md_section t) = 1.
Proof.
  unfold separators, md_section. rewrite !filter_app, !length_app.
  rewrite no_separator_bullets. cbn [filter].
  rewrite str_eqb_false by discriminate. reflexivity.
Qed.

Lemma md_section_headings t : headings (md_section t) = 1.
Proof.
  unfold headings, md_section. rewrite !filter_app, !length_app.
  rewrite no_heading_bullets. reflexivity.
Qed.

Lemma md_section_bullet_lines t :
  bullet_lines (md_section t) = length (bullets t).
Proof.
  unfold bullet_lines, md_section. rewrite !filter_app, !length_app.
  rewrite all_bullet_lines, length_map. cbn. apply Nat.add_0_r.
Qed.

Lemma md_lines_counts today d :
  separators (md_lines today d) = length (get_topics d) + 1
  /\ headings (md_lines today d) = length (get_topics d) + 1
  /\ bullet_lines (md_lines today d) = length (all_bullets (get_topics d)).
Proof.
  rewrite md_lines_closed. unfold separators, headings, bullet_lines.
  rewrite !filter_app, !length_app.
  rewrite (@filter_length_flat_map _ _ (str_eqb (lit "---")) md_section
             (fun _ => 1) _ md_section_separators).
  rewrite (@filter_length_flat_map _ _ (starts_with (lit "## ")) md_section
             (fun _ => 1) _ md_section_headings).
  rewrite (@filter_length_flat_map _ _ (starts_with (lit "- ")) md_section
             (fun t => length (bullets t)) _ md_section_bullet_lines).
  rewrite !list_sum_const.
  split; [|split].
  - cbn [filter].
    rewrite (@str_eqb_false (lit "---") (summary_text d)) by discriminate.
    rewrite (@str_eqb_false (lit "---")
               (lit "*Generated on " ++ today ++ lit "*")) by discriminate.
    cbn. lia.
  - cbn. lia.
  - cbn. unfold all_bullets. rewrite flat_map_concat_map.
    rewrite TopicFacts.length_concat_sum, map_map. now rewrite Nat.add_0_r.
Qed.

(** ** PPTX *)

Lemma heading_box_ok l t w h s size bold align :
  exists b, heading_box l t w h s size bold align = Ok b
            /\ box_texts b = Fmt.split_lines s.
Proof.
  unfold heading_box, with_paragraph, set_frame_text. cbn [paragraphs word_wrap].
  pose proof (split_lines_nonempty s) as Hne.
  destruct (Fmt.split_lines s) as [|l0 ls]; [congruence|].
  cbn [map getitem nth_error bind firstn skipn app].
  eexists. split; [reflexivity|].
  unfold box_texts. cbn [frame paragraphs map p_text]. f_equal.
  rewrite map_map. cbn [p_text]. apply map_id.
Qed.

Lemma with_paragraph_last change ww ps p :
  with_paragraph (length ps) change {| word_wrap := ww; paragraphs := ps ++ [p] |}
  = Ok {| word_wrap := ww; paragraphs := ps ++ [change p] |}.
Proof.
  unfold with_paragraph, getitem. cbn [paragraphs word_wrap].
  rewrite nth_error_app2 by lia. rewrite Nat.sub_diag. cbn [nth_error bind].
  f_equal. f_equal.
  rewrite firstn_app, Nat.sub_diag, firstn_all. cbn [firstn].
  rewrite app_nil_r. f_equal.
  replace (S (length ps)) with (length (ps ++ [p]))
    by (rewrite length_app; simpl; lia).
  now rewrite skipn_all, app_nil_r.
Qed.

(** From the second bullet on, the loop adds a paragraph and fills it. *)
Lemma bullet_loop_next bullets : forall i f,
  length (paragraphs f) = i -> 0 < i ->
  exists f', bullet_loop i bullets f = Ok f'
             /\ map p_text (paragraphs f') = map p_text (paragraphs f) ++ bullets.
Proof.
  induction bullets as [|b rest IH]; intros i f Hlen Hi.
  - exists f. split; [reflexivity|]. now rewrite app_nil_r.
  - cbn [bullet_loop]. apply Nat.ltb_lt in Hi. rewrite Hi.
    destruct f as [ww ps]. cbn [paragraphs] in *. unfold add_paragraph.
    cbn [paragraphs word_wrap]. subst i. rewrite with_paragraph_last.
    cbn [bind].
    destruct (IH (S (length ps))
                 {| word_wrap := ww;
                    paragraphs := ps ++ [{| p_text := b; font_size := Some 18%Z;
                                           font_bold := font_bold empty_paragraph;
                                           p_alignment := p_alignment empty_paragraph;
                                           level := Some 0%Z;
                                           space_after := Some 12%Z |}] |})
      as (f' & Hf' & Ht).
    + cbn [paragraphs]. rewrite length_app. simpl. lia.
    + lia.
    + exists f'. split; [exact Hf'|]. rewrite Ht. cbn [paragraphs].
      rewrite map_app. cbn [map p_text]. now rewrite <- app_assoc.
Qed.

(** The first bullet goes into the paragraph that the text box has from
    the start. *)
Lemma bullet_loop_first bullets ww p :
  exists f', bullet_loop 0 bullets {| word_wrap := ww; paragraphs := [p] |} = Ok f'
             /\ map p_text (paragraphs f')
                = match bullets with [] => [p_text p] | bs => bs end.
Proof.
  destruct bullets as [|b rest].
  - eexists. split; reflexivity.
  - cbn [bullet_loop]. change (0 <? 0) with false. cbv iota.
    rewrite (@with_paragraph_last _ ww [] p). cbn [bind app].
    destruct (@bullet_loop_next rest 1
                {| word_wrap := ww;
                   paragraphs := [{| p_text := b; font_size := Some 18%Z;
                                     font_bold := font_bold p;
                                     p_alignment := p_alignment p;
                                     level := Some 0%Z;
                                     space_after := Some 12%Z |}] |})
      as (f' & Hf' & Ht); [reflexivity|lia|].
    exists f'. split; [exact Hf'|]. exact Ht.
Qed.

Lemma topic_slide_ok t : exists s, topic_slide t = Ok s /\ shows t s.
Proof.
  unfold topic_slide.
  destruct (heading_box_ok 5 5 90 8 (title t) 32 (Some true) None)
    as (title_box & -> & Htitle).
  cbn [bind]. unfold new_frame. cbn [paragraphs].
  destruct (bullet_loop_first (bullets t) (Some true) empty_paragraph)
    as (f' & -> & Hf').
  cbn [bind]. eexists. split; [reflexivity|].
  exists title_box. eexists. split; [reflexivity|]. split; [exact Htitle|].
  unfold box_texts. cbn [frame]. rewrite Hf'. now destruct (bullets t).
Qed.

Lemma topic_slides_ok ts : forall acc,
  exists ss,
    fold_left (fun acc topic =>
                 bind acc (fun slides =>
                 bind (topic_slide topic) (fun s => Ok (slides ++ [s]))))
              ts (Ok acc)
    = Ok (acc ++ ss)
    /\ Forall2 shows ts ss.
Proof.
  induction ts as [|t ts IH]; intros acc.
  - exists []. split; [now rewrite app_nil_r|constructor].
  - cbn [fold_left bind]. destruct (topic_slide_ok t) as (s & -> & Hs).
    cbn [bind]. destruct (IH (acc ++ [s])) as (ss & -> & Hss).
    exists (s :: ss). split; [now rewrite <- app_assoc|now constructor].
Qed.

Lemma pptx_deck_ok today d :
  exists first middle last,
    pptx_deck today d
    = Ok {| slide_width := 100; slide_height := 75;
            slides := first :: middle ++ [last] |}
    /\ Forall2 shows (get_topics d) middle
    /\ map box_texts (shapes first)
       = [Fmt.split_lines (lit "AI-Generated Slide Deck");
          Fmt.split_lines (lit "Generated on " ++ today)]
    /\ map box_texts (shapes last)
       = [Fmt.split_lines (lit "Summary");
          Fmt.split_lines (summary_text d)].
Proof.
  unfold pptx_deck.
  destruct (heading_box_ok 10 25 80 10 (lit "AI-Generated Slide Deck") 44
                           (Some true) (Some PP_ALIGN_CENTER))
    as (b1 & -> & H1).
  cbn [bind].
  destruct (heading_box_ok 10 40 80 5 (lit "Generated on " ++ today) 18
                           None (Some PP_ALIGN_CENTER))
    as (b2 & -> & H2).
  cbn [bind].
  destruct (topic_slides_ok (get_topics d)
              [{| layout := 6; shapes := [b1; b2] |}]) as (ss & -> & Hss).
  cbn [bind].
  destruct (heading_box_ok 10 20 80 10 (lit "Summary") 40
                           (Some true) (Some PP_ALIGN_CENTER))
    as (b3 & -> & H3).
  cbn [bind].
  destruct (heading_box_ok 20 35 60 10 (summary_text d) 20
                           None (Some PP_ALIGN_CENTER))
    as (b4 & -> & H4).
  cbn [bind].
  exists {| layout := 6; shapes := [b1; b2] |}, ss,
         {| layout := 6; shapes := [b3; b4] |}.
  split; [reflexivity|]. split; [exact Hss|].
  cbn [shapes map]. now rewrite H1, H2, H3, H4.
Qed.

(** ** PDF *)

Lemma find_app (A : Type) (p : A -> bool) a b :
  find p (a ++ b) = match find p a with Some x => Some x | None => find p b end.
Proof.
  induction a as [|x a IH]; [reflexivity|].
  simpl. destruct (p x); [reflexivity|exact IH].
Qed.

Lemma pdf_section_page_breaks hs bs t :
  length (filter (fun f => match f with PageBreak => true | _ => false end)
                 (pdf_section hs bs t)) = 1.
Proof.
  unfold pdf_section. rewrite !filter_app, !length_app.
  replace (filter _ (map (fun b => Paragraph (bullet_mark ++ b) bs) (bullets t)))
    with (@nil flowable); [reflexivity|].
  induction (bullets t) as [|b l IH]; [reflexivity|exact IH].
Qed.

Lemma pdf_section_texts hs bs t :
  paragraph_texts (pdf_section hs bs t)
  = (lit "<b>" ++ title t ++ lit "</b>")
    :: map (fun b => bullet_mark ++ b) (bullets t).
Proof.
  unfold paragraph_texts, pdf_section. rewrite !flat_map_app. cbn [flat_map app].
  rewrite app_nil_r. f_equal.
  induction (bullets t) as [|b l IH]; [reflexivity|].
  cbn [map flat_map app]. now rewrite IH.
Qed.

Section WithReportlab.
Context {R : Reportlab}.

Lemma new_paragraph_ok text style :
  well_formed text = true ->
  new_paragraph text style = Built (Paragraph text style).
Proof. unfold new_paragraph. now intros ->. Qed.

Lemma new_paragraph_rejected text style :
  well_formed text = false ->
  new_paragraph text style = MarkupValueError text.
Proof. unfold new_paragraph. now intros ->. Qed.

(** The loop over the bullets of a topic: it stops at the first text that
    the parser rejects. *)
Lemma pdf_bullets_loop body bs : forall story,
  fold_left (fun so_far bullet =>
               and_then so_far (fun story =>
               and_then (new_paragraph (bullet_mark ++ bullet) body) (fun p =>
               Built (story ++ [p]))))
            bs (Built story)
  = match find (fun text => negb (well_formed text))
               (map (fun b => bullet_mark ++ b) bs) with
    | Some text => MarkupValueError text
    | None =>
        Built (story ++ map (fun b => Paragraph (bullet_mark ++ b) body) bs)
    end.
Proof.
  induction bs as [|b bs IH]; intros story.
  - simpl. now rewrite app_nil_r.
  - cbn [fold_left map find and_then].
    destruct (well_formed (bullet_mark ++ b)) eqn:E; cbn [negb].
    + rewrite (new_paragraph_ok _ body E). cbn [and_then].
      rewrite IH. destruct (find _ _); [reflexivity|].
      now rewrite <- app_assoc.
    + rewrite (new_paragraph_rejected _ body E). cbn [and_then].
      clear IH. induction bs as [|b' bs IH']; [reflexivity|exact IH'].
Qed.

(** The loop over the topics. *)
Lemma pdf_topics_loop heading body ts : forall story,
  fold_left (fun so_far topic =>
     and_then so_far (fun story =>
     let story := story ++ [Spacer 1 5] in
     and_then (new_paragraph (lit "<b>" ++ title topic ++ lit "</b>") heading)
              (fun p =>
     let story := story ++ [p] in
     let story := story ++ [Spacer 1 3] in
     and_then
       (fold_left (fun so_far bullet =>
          and_then so_far (fun story =>
          and_then (new_paragraph (bullet_mark ++ bullet) body) (fun p =>
          Built (story ++ [p]))))
          (bullets topic) (Built story)) (fun story =>
     Built (story ++ [PageBreak])))))
     ts (Built story)
  = match find (fun text => negb (well_formed text))
               (flat_map (fun t => (lit "<b>" ++ title t ++ lit "</b>")
                                     :: map (fun b => bullet_mark ++ b)
                                            (bullets t)) ts) with
    | Some text => MarkupValueError text
    | None => Built (story ++ flat_map (pdf_section heading body) ts)
    end.
Proof.
  assert (Hstuck : forall ts text,
    fold_left (fun so_far topic =>
       and_then so_far (fun story =>
       let story := story ++ [Spacer 1 5] in
       and_then (new_paragraph (lit "<b>" ++ title topic ++ lit "</b>") heading)
                (fun p =>
       let story := story ++ [p] in
       let story := story ++ [Spacer 1 3] in
       and_then
         (fold_left (fun so_far bullet =>
            and_then so_far (fun story =>
            and_then (new_paragraph (bullet_mark ++ bullet) body) (fun p =>
            Built (story ++ [p]))))
            (bullets topic) (Built story)) (fun story =>
       Built (story ++ [PageBreak])))))
       ts (MarkupValueError text)
    = MarkupValueError text).
  { intros l text. induction l as [|t l IH]; [reflexivity|exact IH]. }
  induction ts as [|t ts IH]; intros story.
  - simpl. now rewrite app_nil_r.
  - cbn [fold_left flat_map and_then]. cbv zeta.
    rewrite <- app_comm_cons. cbn [find].
    destruct (well_formed (lit "<b>" ++ title t ++ lit "</b>")) eqn:E;
      cbn [negb];
      [rewrite (new_paragraph_ok _ heading E)
      |rewrite (new_paragraph_rejected _ heading E)];
      cbn [and_then]; [|apply Hstuck].
    rewrite pdf_bullets_loop, find_app. unfold str, char in *.
    match goal with |- context [find ?p (map ?f (bullets t))] =>
      destruct (find p (map f (bullets t))) end;
      cbn [and_then]; [apply Hstuck|].
    rewrite IH. destruct (find _ _); [reflexivity|].
    f_equal. unfold pdf_section. cbn [flat_map].
    rewrite <- !app_assoc. reflexivity.
Qed.

(** With the colours of the theme, the generator raises for the first
    text that the parser rejects, and returns the whole story when it
    rejects none. *)
Lemma pdf_story_outcome config today d title_color text_color :
  theme_color config "title" = Built title_color ->
  theme_color config "text" = Built text_color ->
  pdf_story config today d
  = match find (fun text => negb (well_formed text)) (pdf_texts today d) with
    | Some text => MarkupValueError text
    | None =>
        Built ([Spacer 1 20;
                Paragraph (lit "<b>AI-Generated Slide Deck</b>")
                          (title_style title_color);
                Paragraph (lit "Generated on " ++ today)
                          (body_style text_color);
                PageBreak]
               ++ flat_map (pdf_section (heading_style title_color)
                                        (body_style text_color)) (get_topics d)
               ++ [Spacer 1 20;
                   Paragraph (lit "<b>Summary</b>") (title_style title_color);
                   Spacer 1 3;
                   Paragraph (summary_text d) (body_style text_color)])
    end.
Proof.
  intros Ht Hx. unfold pdf_story, pdf_texts. rewrite Ht, Hx.
  cbn [and_then]. cbv zeta. cbn [app find].
  destruct (well_formed (lit "<b>AI-Generated Slide Deck</b>")) eqn:E1;
    cbn [negb];
    [rewrite (new_paragraph_ok _ (title_style title_color) E1)
    |rewrite (new_paragraph_rejected _ (title_style title_color) E1)];
    cbn [and_then]; [|reflexivity].
  destruct (well_formed (lit "Generated on " ++ today)) eqn:E2;
    cbn [negb];
    [rewrite (new_paragraph_ok _ (body_style text_color) E2)
    |rewrite (new_paragraph_rejected _ (body_style text_color) E2)];
    cbn [and_then]; [|reflexivity].
  rewrite pdf_topics_loop, find_app. unfold str, char in *.
  match goal with |- context [find ?p (flat_map ?f (get_topics d))] =>
    destruct (find p (flat_map f (get_topics d))) end;
    cbn [and_then]; [reflexivity|].
  cbn [find].
  destruct (well_formed (lit "<b>Summary</b>")) eqn:E3;
    cbn [negb];
    [rewrite (new_paragraph_ok _ (title_style title_color) E3)
    |rewrite (new_paragraph_rejected _ (title_style title_color) E3)];
    cbn [and_then]; [|reflexivity].
  destruct (well_formed (summary_text d)) eqn:E4;
    cbn [negb];
    [rewrite (new_paragraph_ok _ (body_style text_color) E4)
    |rewrite (new_paragraph_rejected _ (body_style text_color) E4)];
    cbn [and_then]; [|reflexivity].
  f_equal. cbn [app]. rewrite <- !app_assoc. reflexivity.
Qed.

Lemma find_none_forallb (texts : list str) :
  forallb well_formed texts = true ->
  find (fun text => negb (well_formed text)) texts = None.
Proof.
  induction texts as [|x l IH]; [reflexivity|].
  simpl. intros H. apply andb_true_iff in H. destruct H as [-> Hl].
  now apply IH.
Qed.

Lemma find_first_rejected (accepted : list str) text rest :
  forallb well_formed accepted = true -> well_formed text = false ->
  find (fun text => negb (well_formed text)) (accepted ++ text :: rest)
  = Some text.
Proof.
  intros Ha Ht. rewrite find_app, (@find_none_forallb accepted Ha).
  simpl. now rewrite Ht.
Qed.

Lemma pdf_story_ok config today d title_color text_color :
  theme_color config "title" = Built title_color ->
  theme_color config "text" = Built text_color ->
  forallb well_formed (pdf_texts today d) = true ->
  exists story,
    pdf_story config today d = Built story
    /\ page_breaks story = length (get_topics d) + 1
    /\ paragraph_texts story = pdf_texts today d.
Proof.
  intros Ht Hx Hw.
  rewrite (pdf_story_outcome config today d Ht Hx),
    (@find_none_forallb (pdf_texts today d) Hw).
  eexists. split; [reflexivity|]. split.
  - unfold page_breaks. rewrite !filter_app, !length_app.
    rewrite (@filter_length_flat_map _ _ _ (pdf_section _ _) (fun _ => 1) _
               (pdf_section_page_breaks _ _)).
    rewrite list_sum_const. cbn. lia.
  - unfold paragraph_texts, pdf_texts. rewrite !flat_map_app. f_equal. f_equal.
    induction (get_topics d) as [|t l IH]; [reflexivity|].
    cbn [flat_map]. rewrite flat_map_app, IH. f_equal.
    apply pdf_section_texts.
Qed.

Lemma pdf_story_rejected config today d title_color text_color
      accepted text rest :
  theme_color config "title" = Built title_color ->
  theme_color config "text" = Built text_color ->
  pdf_texts today d = accepted ++ text :: rest ->
  forallb well_formed accepted = true -> well_formed text = false ->
  pdf_story config today d = MarkupValueError text.
Proof.
  intros Ht Hx Hsplit Ha Hr.
  rewrite (pdf_story_outcome config today d Ht Hx), Hsplit.
  now rewrite (@find_first_rejected accepted text rest Ha Hr).
Qed.

Lemma pdf_story_key_error config today d :
  (exists k, theme_color config "title" = KeyError k)
  \/ (exists k, theme_color config "text" = KeyError k) ->
  exists k, pdf_story config today d = KeyError k.
Proof.
  unfold pdf_story. intros [[k Hk]|[k Hk]].
  - rewrite Hk. cbn [and_then]. eauto.
  - destruct (theme_color config "title") as [c|k'|t] eqn:E;
      cbn [and_then]; [|eauto|].
    + rewrite Hk. cbn [and_then]. eauto.
    + exfalso. unfold theme_color, lookup in E.
      destruct (colors config); [|discriminate].
      destruct (find _ _); discriminate.
Qed.

Lemma rejected_somewhere texts :
  forallb well_formed texts = false ->
  exists text, find (fun text => negb (well_formed text)) texts = Some text.
Proof.
  induction texts as [|x l IH]; [discriminate|].
  simpl. destruct (well_formed x); simpl; [exact IH|eauto].
Qed.

End WithReportlab.

(** ** Texts without markup characters *)

Lemma markup_free_app a b :
  markup_free (a ++ b) = markup_free a && markup_free b.
Proof. apply forallb_app. Qed.

Lemma digits_markup_free u : markup_free (Fmt.digits u) = true.
Proof. induction u; simpl; auto. Qed.

Lemma summary_markup_free d : markup_free (summary_text d) = true.
Proof.
  unfold summary_text, Fmt.decimal.
  now rewrite !markup_free_app, !digits_markup_free.
Qed.

(** The stand-in parser accepts what the parser is relied on to accept. *)
Lemma stub_accepts_plain : accepts_plain_text (R := stub_reportlab).
Proof.
  intros x Hx. cbn [well_formed stub_reportlab]. split.
  - now rewrite Hx.
  - apply orb_true_iff. right.
    change (lit "<b>" ++ x ++ lit "</b>")
      with (60%N :: 98%N :: 62%N :: x ++ lit "</b>").
    cbn [starts_with lit map list_ascii_of_string skipn andb].
    change (N_of_ascii "<") with 60%N. change (N_of_ascii "b") with 98%N.
    change (N_of_ascii ">") with 62%N. rewrite !N.eqb_refl. cbn [andb].
    cbv zeta. rewrite length_app.
    change (length (map N_of_ascii (list_ascii_of_string "</b>"))) with 4.
    rewrite Nat.add_sub.
    rewrite firstn_app, Nat.sub_diag, firstn_all. cbn [firstn].
    rewrite app_nil_r, Hx.
    rewrite skipn_app, Nat.sub_diag, skipn_all. reflexivity.
Qed.

End DeckFacts.

(* ===================================================================== *)
(** * Words of the text and words of a sentence *)
(* ===================================================================== *)

Module WordFacts.
Import Py Tokens TextProcessor.

Lemma starts_flag s :
  starts true s <= starts false s /\ starts false s <= 1 + starts true s.
Proof.
  destruct s as [|c s]; [simpl; lia|].
  rewrite !TokenFacts.starts_cons. destruct (isspace c); lia.
Qed.

(** A part of a text has no more words than the text. *)
Lemma starts_suffix c : forall a,
  starts false c <= starts false (a ++ c)
  /\ starts false c <= 1 + starts true (a ++ c).
Proof.
  induction a as [|x a [IH1 IH2]].
  - simpl app. pose proof (starts_flag c). lia.
  - rewrite <- app_comm_cons, !TokenFacts.starts_cons.
    destruct (isspace x); lia.
Qed.

Lemma words_of_part pre p post :
  length (split p) <= length (split (pre ++ p ++ post)).
Proof.
  rewrite !TokenFacts.split_count.
  pose proof (TokenFacts.starts_app_le p false post).
  pose proof (proj1 (starts_suffix (p ++ post) pre)). lia.
Qed.

Lemma first_piece_prefix t :
  exists first rest post,
    Re.split_sentence_ends false t = first :: rest /\ t = first ++ post.
Proof.
  induction t as [|c t (first & rest & post & E & Ht)].
  - exists [], [], []. split; reflexivity.
  - rewrite SegmentFacts.split_sentence_ends_cons.
    destruct (Re.sentence_end c).
    + exists [], (Re.split_sentence_ends true t), (c :: t). split; reflexivity.
    + rewrite E. exists (c :: first), rest, post. split; [reflexivity|].
      simpl. now rewrite <- Ht.
Qed.

Lemma piece_is_part t : forall b p,
  In p (Re.split_sentence_ends b t) -> exists pre post, t = pre ++ p ++ post.
Proof.
  induction t as [|c t IH]; intros b p Hin.
  - destruct Hin as [<-|[]]. exists [], []. reflexivity.
  - rewrite SegmentFacts.split_sentence_ends_cons in Hin.
    destruct (Re.sentence_end c).
    + assert (H : p = [] \/ In p (Re.split_sentence_ends true t)).
      { destruct b; [now right|].
        destruct Hin as [<-|Hin]; [now left|now right]. }
      destruct H as [->|H].
      * exists [], (c :: t). reflexivity.
      * destruct (IH true p H) as (pre & post & ->).
        exists (c :: pre), post. reflexivity.
    + destruct (first_piece_prefix t) as (first & rest & post & E & Ht).
      rewrite E in Hin. destruct Hin as [<-|Hin].
      * exists [], post. simpl. now rewrite <- Ht.
      * destruct (IH false p) as (pre & post' & ->).
        { rewrite E. now right. }
        exists (c :: pre), post'. reflexivity.
Qed.

(** A sentence has no more words than the text it is cut from. *)
Lemma sentence_words text s :
  In s (split_sentences text) -> length (split s) <= length (split text).
Proof.
  unfold split_sentences. intros Hs.
  apply filter_In in Hs. destruct Hs as [Hs _].
  apply in_map_iff in Hs. destruct Hs as (piece & <- & Hp).
  apply filter_In in Hp. destruct Hp as [Hp _].
  rewrite OcrFacts.split_strip.
  destruct (piece_is_part _ _ _ Hp) as (pre & post & ->).
  apply words_of_part.
Qed.

Lemma starts_filter (p : char -> bool) :
  (forall c, isspace c = true -> p c = true) ->
  forall s b, starts b (filter p s) <= starts b s.
Proof.
  intros Hp. induction s as [|c s IH]; intros b; [reflexivity|].
  cbn [filter]. destruct (p c) eqn:Ec.
  - rewrite !TokenFacts.starts_cons. destruct (isspace c).
    + apply IH.
    + specialize (IH true). lia.
  - rewrite TokenFacts.starts_cons.
    destruct (isspace c) eqn:Es; [rewrite (Hp c Es) in Ec; discriminate|].
    pose proof (IH b). pose proof (starts_flag s). destruct b; lia.
Qed.

Lemma starts_sub_space_runs s : forall r b,
  (r = true -> b = false) ->
  starts b (Re.sub_space_runs r s) = starts b s.
Proof.
  induction s as [|c s IH]; intros r b Hrb; [reflexivity|].
  cbn [Re.sub_space_runs]. destruct (isspace c) eqn:Es.
  - rewrite (TokenFacts.starts_cons b c s), Es. destruct r.
    + rewrite (Hrb eq_refl). now apply IH.
    + rewrite TokenFacts.starts_cons.
      change (isspace 32%N) with true. cbv iota. now apply IH.
  - rewrite !TokenFacts.starts_cons, Es. f_equal. apply IH. discriminate.
Qed.

Section WithCollaborators.
Context {C : Collaborators}.

(** Cleaning adds no word. *)
Lemma clean_text_words text :
  length (split (clean_text text)) <= length (split text).
Proof.
  unfold clean_text. rewrite OcrFacts.split_strip, !TokenFacts.split_count.
  unfold Re.sub_not_kept.
  pose proof (@starts_filter (Re.kept uni_alnum)) as H.
  specialize (H ltac:(intros c Hc; unfold Re.kept; rewrite Hc;
                      now rewrite orb_true_r)
                (Re.sub_space_runs false text) false).
  rewrite starts_sub_space_runs in H by discriminate. exact H.
Qed.

Lemma few_words_no_sentence text :
  length (split text) < 3 -> split_sentences (clean_text text) = [].
Proof.
  intros Hlt.
  destruct (split_sentences (clean_text text)) as [|s rest] eqn:E;
    [reflexivity|exfalso].
  assert (Hin : In s (split_sentences (clean_text text)))
    by (rewrite E; now left).
  pose proof (sentence_words _ _ Hin) as H1.
  pose proof (clean_text_words text) as H2.
  unfold split_sentences in Hin. apply filter_In in Hin.
  destruct Hin as [_ H3]. apply Nat.leb_le in H3. lia.
Qed.

Lemma few_words_empty_result text :
  length (split text) < 3 ->
  process_text text
  = Ok {| topics := []; slide_count := 0; total_sentences := 0 |}.
Proof.
  intros Hlt. unfold process_text.
  now rewrite (few_words_no_sentence _ Hlt).
Qed.

End WithCollaborators.
End WordFacts.

(** A text of fewer than three words has no sentence, so [process_text]
    returns the empty result for it; in particular it does so for the
    combined text of screenshots whose word counts add up to less than
    three, whatever the sentence encoder and the clusterer are. *)
Theorem few_words_no_topics {B : OCR.Backend} {C : Collaborators}
        (language : Py.str) (image_paths : list Py.str) (preprocess : bool) :
  (forall text,
      length (Py.split text) < 3 ->
      TextProcessor.process_text text
      = Py.Ok {| TextProcessor.topics := [];
                 TextProcessor.slide_count := 0;
                 TextProcessor.total_sentences := 0 |})
  /\ (let results := OCR.batch_extract language image_paths preprocess in
      OCR.total_words results < 3 ->
      TextProcessor.process_text (OCR.get_combined_text results)
      = Py.Ok {| TextProcessor.topics := [];
                 TextProcessor.slide_count := 0;
                 TextProcessor.total_sentences := 0 |}).
Proof.
  split; [apply WordFacts.few_words_empty_result|].
  intros results Hlt. apply WordFacts.few_words_empty_result.
  subst results. rewrite OcrFacts.batch_extract_map in *.
  rewrite OcrFacts.combined_text_split.
  unfold OCR.total_words in Hlt. rewrite OcrFacts.fold_add_sum in Hlt.
  simpl in Hlt. rewrite TopicFacts.length_concat_sum, !map_map.
  rewrite map_map in Hlt.
  erewrite map_ext; [exact Hlt|].
  intros p. symmetry. apply OcrFacts.extract_text_counts.
Qed.

(** Two screenshots, one with two words and one that cannot be read. *)
Lemma few_words_no_topics_witness :
  TextProcessor.process_text (C := Demo.stub)
    (OCR.get_combined_text
       (OCR.batch_extract (B := OCR.stub_backend) (Py.lit "eng")
                          [Py.lit "two words"; []] true))
  = Py.Ok {| TextProcessor.topics := [];
             TextProcessor.slide_count := 0;
             TextProcessor.total_sentences := 0 |}.
Proof.
  apply (proj2 (@few_words_no_topics OCR.stub_backend Demo.stub (Py.lit "eng")
                  [Py.lit "two words"; []] true)).
  vm_compute. lia.
Defined.

(** The Markdown deck has one separator line [---] after the title slide
    and after every topic, one second-level heading per topic and one for
    the summary, and one [- ] line per bullet; and when neither the date
    nor a title or a bullet holds a line feed, these lines are exactly
    the lines of the written file. *)
Theorem markdown_deck_lines (today : Py.str) (d : Slides.data) :
  Decks.separators (Slides.md_lines today d)
  = length (Slides.get_topics d) + 1
  /\ Decks.headings (Slides.md_lines today d)
     = length (Slides.get_topics d) + 1
  /\ Decks.bullet_lines (Slides.md_lines today d)
     = length (Decks.all_bullets (Slides.get_topics d))
  /\ (Decks.no_line_feed today = true ->
      forallb Decks.one_line_topic (Slides.get_topics d) = true ->
      Fmt.split_lines (Slides.md_text today d) = Slides.md_lines today d).
Proof.
  destruct (DeckFacts.md_lines_counts today d) as (H1 & H2 & H3).
  split; [exact H1|]. split; [exact H2|]. split; [exact H3|].
  intros Ht Hd. unfold Slides.md_text. apply DeckFacts.split_lines_join.
  - rewrite DeckFacts.md_lines_closed. discriminate.
  - now apply DeckFacts.md_lines_one_line.
Qed.

(** A deck of one topic with two bullets. *)
Lemma markdown_deck_lines_witness :
  let d := {| Slides.data_topics :=
                Some [{| TextProcessor.id := 0%Z;
                         TextProcessor.title := Py.lit "Revenue grew sharply";
                         TextProcessor.bullets :=
                           [Py.lit "Revenue grew sharply";
                            Py.lit "Costs also grew"];
                         TextProcessor.sentence_count := 2 |}];
              Slides.data_total_sentences := Some 2 |} in
  Fmt.split_lines (Slides.md_text (Py.lit "November 03, 2026") d)
  = Slides.md_lines (Py.lit "November 03, 2026") d.
Proof.
  intros d.
  exact (proj2 (proj2 (proj2
           (markdown_deck_lines (Py.lit "November 03, 2026") d)))
           eq_refl eq_refl).
Defined.

(** [PPTXGenerator.generate] never raises at [paragraphs[i]]: for every
    data it builds a presentation of [len(topics) + 2] slides, the title
    slide first and the summary slide last, and in between one slide per
    topic, in order, with two text boxes: the title, and the bullets one
    per paragraph (a single empty paragraph when the topic has none). *)
Theorem pptx_deck_slides (today : Py.str) (d : Slides.data) :
  exists prs first middle last,
    Slides.pptx_deck today d = Py.Ok prs
    /\ Slides.slides prs = first :: middle ++ [last]
    /\ length (Slides.slides prs) = length (Slides.get_topics d) + 2
    /\ Forall2 Decks.shows (Slides.get_topics d) middle
    /\ map Decks.box_texts (Slides.shapes first)
       = [Fmt.split_lines (Py.lit "AI-Generated Slide Deck");
          Fmt.split_lines (Py.lit "Generated on " ++ today)]
    /\ map Decks.box_texts (Slides.shapes last)
       = [Fmt.split_lines (Py.lit "Summary");
          Fmt.split_lines (Slides.summary_text d)].
Proof.
  destruct (DeckFacts.pptx_deck_ok today d)
    as (first & middle & last & Hp & Hm & Hf & Hl).
  eexists. exists first, middle, last.
  split; [exact Hp|]. cbn [Slides.slides]. split; [reflexivity|].
  split; [|auto].
  cbn [length]. rewrite length_app, (Forall2_length Hm). simpl. lia.
Qed.

(** With a theme that has the colours [title] and [text] (the default
    theme has them), [PDFGenerator.generate] makes its paragraphs from
    these texts, in order: the deck title and the date, then for every
    topic its title in bold and its bullets, each after a bullet mark,
    then the summary title and the summary line.  When reportlab's parser
    accepts them all, the story has these paragraphs and
    [len(topics) + 1] page breaks; otherwise the generator raises the
    [ValueError] of the first text that the parser rejects.  Without one
    of the colours it raises [KeyError] before any paragraph is made. *)
Theorem pdf_story_pages {R : Slides.Reportlab} (config : Slides.theme_config)
        (today : Py.str) (d : Slides.data) :
  Decks.pdf_texts today d
  = [Py.lit "<b>AI-Generated Slide Deck</b>"; Py.lit "Generated on " ++ today]
    ++ flat_map
         (fun t =>
            (Py.lit "<b>" ++ TextProcessor.title t ++ Py.lit "</b>")
            :: map (fun b => Slides.bullet_mark ++ b) (TextProcessor.bullets t))
         (Slides.get_topics d)
    ++ [Py.lit "<b>Summary</b>"; Slides.summary_text d]
  /\ (forall title_color text_color,
         Slides.theme_color config "title" = Slides.Built title_color ->
         Slides.theme_color config "text" = Slides.Built text_color ->
         (forallb Slides.well_formed (Decks.pdf_texts today d) = true ->
          exists story,
            Slides.pdf_story config today d = Slides.Built story
            /\ Decks.page_breaks story = length (Slides.get_topics d) + 1
            /\ Decks.paragraph_texts story = Decks.pdf_texts today d)
         /\ (forall accepted text rest,
                Decks.pdf_texts today d = accepted ++ text :: rest ->
                forallb Slides.well_formed accepted = true ->
                Slides.well_formed text = false ->
                Slides.pdf_story config today d
                = Slides.MarkupValueError text))
  /\ (forallb Slides.well_formed (Decks.pdf_texts today d) = true ->
      exists story,
        Slides.pdf_story (Slides._load_theme None) today d
        = Slides.Built story)
  /\ ((exists k, Slides.theme_color config "title" = Slides.KeyError k)
      \/ (exists k, Slides.theme_color config "text" = Slides.KeyError k) ->
      exists k, Slides.pdf_story config today d = Slides.KeyError k).
Proof.
  split; [reflexivity|]. split; [|split].
  - intros tc xc Ht Hx. split.
    + exact (@DeckFacts.pdf_story_ok R config today d tc xc Ht Hx).
    + intros accepted text rest.
      exact (@DeckFacts.pdf_story_rejected R config today d tc xc
               accepted text rest Ht Hx).
  - intros Hw.
    destruct (@DeckFacts.pdf_story_ok R (Slides._load_theme None) today d
                (Py.lit "#1a1a1a") (Py.lit "#333333") eq_refl eq_refl Hw)
      as (story & Hs & _).
    now exists story.
  - apply DeckFacts.pdf_story_key_error.
Qed.

(** With the stand-in parser: the default theme on a deck of one topic; the
    same deck with the title [<b>], which makes the markup of the
    heading malformed; and a theme file without colours. *)
Lemma pdf_story_pages_witness :
  let R := Decks.stub_reportlab in
  let topic := fun title =>
    {| TextProcessor.id := 0%Z;
       TextProcessor.title := title;
       TextProcessor.bullets :=
         [Py.lit "Revenue grew sharply"; Py.lit "Costs also grew"];
       TextProcessor.sentence_count := 2 |} in
  let d := fun title =>
    {| Slides.data_topics := Some [topic title];
       Slides.data_total_sentences := Some 2 |} in
  let bare := {| Slides.config_name := Py.lit "bare"; Slides.colors := None;
                 Slides.fonts := None; Slides.sizes := None |} in
  (exists story,
      Slides.pdf_story Slides._get_default_theme (Py.lit "November 03, 2026")
                       (d (Py.lit "Revenue grew sharply"))
      = Slides.Built story
      /\ Decks.page_breaks story = 2)
  /\ Slides.pdf_story Slides._get_default_theme (Py.lit "November 03, 2026")
                      (d (Py.lit "<b>"))
     = Slides.MarkupValueError (Py.lit "<b><b></b>")
  /\ (exists k,
         Slides.pdf_story (Slides._load_theme (Some bare))
                          (Py.lit "November 03, 2026")
                          (d (Py.lit "Revenue grew sharply"))
         = Slides.KeyError k).
Proof.
  intros R topic d bare.
  pose proof (@pdf_story_pages R Slides._get_default_theme
                (Py.lit "November 03, 2026")
                (d (Py.lit "Revenue grew sharply"))) as (_ & Hgood & _ & _).
  pose proof (@pdf_story_pages R Slides._get_default_theme
                (Py.lit "November 03, 2026") (d (Py.lit "<b>")))
    as (_ & Hbad & _ & _).
  pose proof (@pdf_story_pages R (Slides._load_theme (Some bare))
                (Py.lit "November 03, 2026")
                (d (Py.lit "Revenue grew sharply"))) as (_ & _ & _ & Hkey).
  split; [|split].
  - destruct (Hgood (Py.lit "#1a1a1a") (Py.lit "#333333") eq_refl eq_refl)
      as [Hbuilt _].
    destruct Hbuilt as (story & Hs & Hp & _); [vm_compute; reflexivity|].
    exists story. split; [exact Hs|exact Hp].
  - destruct (Hbad (Py.lit "#1a1a1a") (Py.lit "#333333") eq_refl eq_refl)
      as [_ Hrej].
    apply (Hrej [Py.lit "<b>AI-Generated Slide Deck</b>";
                 Py.lit "Generated on November 03, 2026"]
                (Py.lit "<b><b></b>")
                [Slides.bullet_mark ++ Py.lit "Revenue grew sharply";
                 Slides.bullet_mark ++ Py.lit "Costs also grew";
                 Py.lit "<b>Summary</b>";
                 Py.lit "Generated 1 topics from 2 sentences"]);
      vm_compute; reflexivity.
  - apply Hkey. left. exists "colors"%string. reflexivity.
Defined.

(* ===================================================================== *)
(** * The three decks of one run *)
(* ===================================================================== *)

Module RunFacts.
Import Py TextProcessor Slides Decks.

Section WithReportlab.
Context {R : Reportlab}.

Lemma generate_all_ok config output_file today timestamp d base_name
      title_color text_color :
  theme_color config "title" = Built title_color ->
  theme_color config "text" = Built text_color ->
  forallb well_formed (pdf_texts today d) = true ->
  let filename := base_name ++ lit "_" ++ timestamp in
  exists story prs,
    generate_all config output_file today timestamp d base_name
    = ([(output_file (filename ++ lit ".pdf"), PdfFile story);
        (output_file (filename ++ lit ".pptx"), PptxFile prs);
        (output_file (filename ++ lit ".md"),
         MarkdownFile (md_text today d))],
       Returned [("pdf"%string, output_file (filename ++ lit ".pdf"));
                 ("pptx"%string, output_file (filename ++ lit ".pptx"));
                 ("md"%string, output_file (filename ++ lit ".md"))])
    /\ page_breaks story + 1 = length (get_topics d) + 2
    /\ length (slides prs) = length (get_topics d) + 2.
Proof.
  intros Ht Hx Hw filename.
  destruct (@DeckFacts.pdf_story_ok R config today d _ _ Ht Hx Hw)
    as (story & Hs & Hp & _).
  destruct (DeckFacts.pptx_deck_ok today d)
    as (first & middle & last & Hd & Hm & _).
  exists story. eexists. unfold generate_all. fold filename.
  rewrite Hs, Hd. cbn [app]. split; [reflexivity|]. split.
  - rewrite Hp. lia.
  - cbn [slides length]. rewrite length_app, (Forall2_length Hm). simpl. lia.
Qed.

Lemma generate_all_rejected config output_file today timestamp d base_name
      title_color text_color :
  theme_color config "title" = Built title_color ->
  theme_color config "text" = Built text_color ->
  forallb well_formed (pdf_texts today d) = false ->
  generate_all config output_file today timestamp d base_name
  = ([], Raised ValueError).
Proof.
  intros Ht Hx Hw. unfold generate_all.
  rewrite (@DeckFacts.pdf_story_outcome R config today d _ _ Ht Hx).
  destruct (@DeckFacts.rejected_somewhere R _ Hw) as [text ->]. reflexivity.
Qed.

End WithReportlab.

Section WithCollaborators.
Context {C : Collaborators}.

Lemma printable_no_line_feed s :
  Forall (fun c => Shape.printable c = true) s -> no_line_feed s = true.
Proof.
  intros H. apply forallb_forall. intros c Hc. rewrite Forall_forall in H.
  destruct (CharFacts.printable_plain c (H c Hc)) as (H10 & _).
  apply negb_true_iff, N.eqb_neq. exact H10.
Qed.

Lemma result_one_line text r :
  process_text text = Ok r -> forallb one_line_topic (topics r) = true.
Proof.
  intros Hr. pose proof (CharFacts.process_text_printable text Hr) as H.
  apply forallb_forall. intros t Ht. rewrite Forall_forall in H.
  destruct (H t Ht) as [H1 H2]. unfold one_line_topic.
  rewrite (printable_no_line_feed H1). cbn [andb].
  apply forallb_forall. intros b Hb. rewrite Forall_forall in H2.
  exact (printable_no_line_feed (H2 b Hb)).
Qed.

Lemma result_slide_count text r :
  process_text text = Ok r ->
  (split_sentences (clean_text text) <> [] ->
   slide_count r = length (topics r) + 2)
  /\ (split_sentences (clean_text text) = [] ->
      slide_count r = 0 /\ topics r = []).
Proof.
  intros Hr. split.
  - intros Hne.
    destruct (@TopicFacts.process_text_inv C text r Hne Hr)
      as (clusters & made & _ & _ & ->).
    reflexivity.
  - intros Es. unfold process_text in Hr. rewrite Es in Hr.
    injection Hr as <-. split; reflexivity.
Qed.

Lemma result_markdown_slides text r today :
  process_text text = Ok r -> no_line_feed today = true ->
  separators (Fmt.split_lines (md_text today (of_processed r))) + 1
  = length (topics r) + 2.
Proof.
  intros Hr Hday. unfold md_text.
  rewrite DeckFacts.split_lines_join.
  - destruct (DeckFacts.md_lines_counts today (of_processed r)) as (H & _).
    rewrite H. cbn [get_topics of_processed data_topics]. lia.
  - rewrite DeckFacts.md_lines_closed. discriminate.
  - apply DeckFacts.md_lines_one_line; [exact Hday|].
    exact (result_one_line text Hr).
Qed.

Lemma printable_markup_free s :
  Forall (fun c => Shape.printable c = true) s -> markup_free s = true.
Proof.
  intros H. apply forallb_forall. intros c Hc. rewrite Forall_forall in H.
  destruct (CharFacts.printable_plain c (H c Hc)) as (_ & _ & H38 & H60 & H62).
  apply N.eqb_neq in H38, H60, H62. now rewrite H38, H60, H62.
Qed.

(** The parser accepts every paragraph text that the PDF generator makes
    for a result. *)
Lemma result_well_formed {R : Reportlab} text r today :
  process_text text = Ok r -> markup_free today = true ->
  accepts_plain_text ->
  forallb well_formed (pdf_texts today (of_processed r)) = true.
Proof.
  intros Hr Hday Hplain.
  pose proof (CharFacts.process_text_printable text Hr) as Hp.
  unfold pdf_texts. change (get_topics (of_processed r)) with (topics r).
  rewrite !forallb_app. cbn [forallb].
  rewrite (proj2 (Hplain (lit "AI-Generated Slide Deck") eq_refl)
           : well_formed (lit "<b>AI-Generated Slide Deck</b>") = true).
  rewrite (proj1 (Hplain (lit "Generated on " ++ today)
                         ltac:(now rewrite DeckFacts.markup_free_app, Hday))).
  rewrite (proj2 (Hplain (lit "Summary") eq_refl)
           : well_formed (lit "<b>Summary</b>") = true).
  rewrite (proj1 (Hplain (summary_text (of_processed r))
                         (DeckFacts.summary_markup_free _))).
  cbn [andb]. rewrite andb_true_r.
  apply forallb_forall. intros x Hx. apply in_flat_map in Hx.
  destruct Hx as (t & Ht & Hx). rewrite Forall_forall in Hp.
  destruct (Hp t Ht) as [Htitle Hbullets]. destruct Hx as [<-|Hx].
  - apply Hplain. now apply printable_markup_free.
  - apply in_map_iff in Hx. destruct Hx as (b & <- & Hb).
    apply Hplain. rewrite DeckFacts.markup_free_app.
    rewrite Forall_forall in Hbullets.
    now rewrite (printable_markup_free (Hbullets b Hb)).
Qed.

End WithCollaborators.
End RunFacts.

(** With a theme that has the colours [title] and [text] and paragraph
    texts that reportlab's parser accepts, [generate_all] writes three
    files, the PDF, the PPTX and the Markdown deck in this order, named
    [<base_name>_<timestamp>] with their extensions in the output
    directory, and returns their paths under the keys [pdf], [pptx] and
    [md]; the PDF has [len(topics) + 1] page breaks and the presentation
    [len(topics) + 2] slides.  When the parser rejects one of the texts
    it raises [ValueError], and without one of the colours [KeyError]; in
    both cases before any file is written, though only the PDF generator
    reads the theme and parses markup. *)
Theorem generate_all_decks {R : Slides.Reportlab}
        (config : Slides.theme_config)
        (output_file : Py.str -> Py.str) (today timestamp : Py.str)
        (d : Slides.data) (base_name : Py.str) :
  let filename := base_name ++ Py.lit "_" ++ timestamp in
  let pdf_path := output_file (filename ++ Py.lit ".pdf") in
  let pptx_path := output_file (filename ++ Py.lit ".pptx") in
  let md_path := output_file (filename ++ Py.lit ".md") in
  let run :=
    Slides.generate_all config output_file today timestamp d base_name in
  (forall title_color text_color,
      Slides.theme_color config "title" = Slides.Built title_color ->
      Slides.theme_color config "text" = Slides.Built text_color ->
      (forallb Slides.well_formed (Decks.pdf_texts today d) = true ->
       exists story prs,
         run
         = ([(pdf_path, Slides.PdfFile story);
             (pptx_path, Slides.PptxFile prs);
             (md_path, Slides.MarkdownFile (Slides.md_text today d))],
            Slides.Returned [("pdf"%string, pdf_path);
                             ("pptx"%string, pptx_path);
                             ("md"%string, md_path)])
         /\ Decks.page_breaks story + 1 = length (Slides.get_topics d) + 2
         /\ Decks.paragraph_texts story = Decks.pdf_texts today d
         /\ length (Slides.slides prs) = length (Slides.get_topics d) + 2)
      /\ (forallb Slides.well_formed (Decks.pdf_texts today d) = false ->
          run = ([], Slides.Raised Py.ValueError)))
  /\ ((exists k, Slides.theme_color config "title" = Slides.KeyError k)
      \/ (exists k, Slides.theme_color config "text" = Slides.KeyError k) ->
      exists k, run = ([], Slides.RaisedKeyError k)).
Proof.
  intros filename pdf_path pptx_path md_path run. split.
  - intros tc xc Ht Hx. split.
    + intros Hw.
      destruct (@RunFacts.generate_all_ok R config output_file today
                  timestamp d base_name tc xc Ht Hx Hw)
        as (story & prs & Hg & Hp & Hs).
      exists story, prs. split; [exact Hg|]. split; [exact Hp|].
      split; [|exact Hs].
      destruct (@DeckFacts.pdf_story_ok R config today d tc xc Ht Hx Hw)
        as (story' & Hs' & _ & Htexts).
      unfold run, Slides.generate_all in Hg. rewrite Hs' in Hg.
      destruct (Slides.pptx_deck today d); [|discriminate].
      injection Hg as Hg _. now subst story'.
    + exact (@RunFacts.generate_all_rejected R config output_file today
               timestamp d base_name tc xc Ht Hx).
  - intros H.
    destruct (@DeckFacts.pdf_story_key_error R config today d H) as [k Hk].
    exists k. unfold run, Slides.generate_all. now rewrite Hk.
Qed.

(** A run with the default theme; the same run for a topic with the title
    [<b>]; and one with a theme that has the title colour only. *)
Lemma generate_all_decks_witness :
  let R := Decks.stub_reportlab in
  let d := fun title =>
           {| Slides.data_topics :=
                Some [{| TextProcessor.id := 0%Z;
                         TextProcessor.title := title;
                         TextProcessor.bullets :=
                           [Py.lit "Revenue grew sharply";
                            Py.lit "Costs also grew"];
                         TextProcessor.sentence_count := 2 |}];
              Slides.data_total_sentences := Some 2 |} in
  let good := d (Py.lit "Revenue grew sharply") in
  let output_file := fun name => Py.lit "output/" ++ name in
  let half := {| Slides.config_name := Py.lit "half";
                 Slides.colors := Some [("title"%string, Py.lit "#000000")];
                 Slides.fonts := None; Slides.sizes := None |} in
  (exists story prs,
      Slides.generate_all Slides._get_default_theme output_file
        (Py.lit "November 03, 2026") (Py.lit "20261103_120000") good
        (Py.lit "slides")
      = ([(Py.lit "output/slides_20261103_120000.pdf", Slides.PdfFile story);
          (Py.lit "output/slides_20261103_120000.pptx", Slides.PptxFile prs);
          (Py.lit "output/slides_20261103_120000.md",
           Slides.MarkdownFile
             (Slides.md_text (Py.lit "November 03, 2026") good))],
         Slides.Returned
           [("pdf"%string, Py.lit "output/slides_20261103_120000.pdf");
            ("pptx"%string, Py.lit "output/slides_20261103_120000.pptx");
            ("md"%string, Py.lit "output/slides_20261103_120000.md")])
      /\ Decks.page_breaks story + 1 = 3
      /\ length (Slides.slides prs) = 3)
  /\ Slides.generate_all Slides._get_default_theme output_file
       (Py.lit "November 03, 2026") (Py.lit "20261103_120000")
       (d (Py.lit "<b>")) (Py.lit "slides")
     = ([], Slides.Raised Py.ValueError)
  /\ (exists k,
         Slides.generate_all half output_file (Py.lit "November 03, 2026")
           (Py.lit "20261103_120000") good (Py.lit "slides")
         = ([], Slides.RaisedKeyError k)).
Proof.
  intros R d good output_file half.
  pose proof (@generate_all_decks R Slides._get_default_theme output_file
                (Py.lit "November 03, 2026") (Py.lit "20261103_120000")
                good (Py.lit "slides")) as [Hgood _].
  pose proof (@generate_all_decks R Slides._get_default_theme output_file
                (Py.lit "November 03, 2026") (Py.lit "20261103_120000")
                (d (Py.lit "<b>")) (Py.lit "slides")) as [Hbad _].
  pose proof (@generate_all_decks R half output_file
                (Py.lit "November 03, 2026") (Py.lit "20261103_120000")
                good (Py.lit "slides")) as [_ Hkey].
  split; [|split].
  - destruct (Hgood (Py.lit "#1a1a1a") (Py.lit "#333333") eq_refl eq_refl)
      as [Hbuilt _].
    destruct Hbuilt as (story & prs & Hg & Hp & _ & Hs);
      [vm_compute; reflexivity|].
    exists story, prs. split; [exact Hg|]. split; [exact Hp|exact Hs].
  - destruct (Hbad (Py.lit "#1a1a1a") (Py.lit "#333333") eq_refl eq_refl)
      as [_ Hrej].
    apply Hrej. vm_compute. reflexivity.
  - apply Hkey. right. exists "text"%string. reflexivity.
Defined.

(** The decks written for a result of [process_text]: the titles and
    bullets of a result have none of the characters [<], [>] and [&], so
    with a parser that accepts text without markup, alone and in bold,
    with a theme that has both colours and a date without line feed and
    without these characters, the three files are written, and each has
    [len(topics) + 2] slides (for the Markdown file, counted by the
    separator lines of the written text).  That is the [slide_count] of
    the result when the text has a sentence; for a text without sentence
    the result says [slide_count = 0] while each deck has the two slides
    for title and summary.  When the collaborators behave and equal
    sentence texts get equal labels, there is a result. *)
Theorem decks_and_slide_count {C : Collaborators} {R : Slides.Reportlab}
        (text : Py.str)
        (config : Slides.theme_config) (output_file : Py.str -> Py.str)
        (today timestamp base_name : Py.str) :
  let sentences :=
    TextProcessor.split_sentences (TextProcessor.clean_text text) in
  (forall r title_color text_color,
      TextProcessor.process_text text = Py.Ok r ->
      Decks.no_line_feed today = true ->
      Slides.theme_color config "title" = Slides.Built title_color ->
      Slides.theme_color config "text" = Slides.Built text_color ->
      Decks.accepts_plain_text ->
      Decks.markup_free today = true ->
      exists written outputs,
        Slides.generate_all config output_file today timestamp
                            (Slides.of_processed r) base_name
        = (written, Slides.Returned outputs)
        /\ map fst outputs = ["pdf"%string; "pptx"%string; "md"%string]
        /\ map snd outputs = map fst written
        /\ Forall (fun f => Decks.slide_total (snd f)
                            = length (TextProcessor.topics r) + 2) written
        /\ (sentences <> [] ->
            TextProcessor.slide_count r = length (TextProcessor.topics r) + 2)
        /\ (sentences = [] ->
            TextProcessor.slide_count r = 0
            /\ length (TextProcessor.topics r) + 2 = 2))
  /\ (forall r,
        TextProcessor.process_text text = Py.Ok r ->
        Forall (fun t =>
                  Decks.markup_free (TextProcessor.title t) = true
                  /\ Forall (fun b => Decks.markup_free b = true)
                            (TextProcessor.bullets t))
               (TextProcessor.topics r))
  /\ (Notions.collaborators_behave ->
      Notions.one_label_per_text
        (combine (Notions.run_labels sentences) sentences) = true ->
      exists r, TextProcessor.process_text text = Py.Ok r).
Proof.
  intros sentences. split; [|split].
  - intros r tc xc Hr Hday Ht Hx Hplain Hfree.
    pose proof (@RunFacts.result_well_formed C R text r today Hr Hfree Hplain)
      as Hw.
    destruct (@RunFacts.generate_all_ok R config output_file today timestamp
                (Slides.of_processed r) base_name tc xc Ht Hx Hw)
      as (story & prs & Hg & Hp & Hs).
    do 2 eexists. split; [exact Hg|]. split; [reflexivity|].
    split; [reflexivity|].
    destruct (@RunFacts.result_slide_count C text r Hr) as [Hne He].
    split; [|split].
    + change (Slides.get_topics (Slides.of_processed r))
        with (TextProcessor.topics r) in *.
      repeat constructor; cbn [snd Decks.slide_total].
      * exact Hp.
      * exact Hs.
      * exact (@RunFacts.result_markdown_slides C text r today Hr Hday).
    + exact Hne.
    + intros Es. destruct (He Es) as [H0 Hnil]. split; [exact H0|].
      now rewrite Hnil.
  - intros r Hr.
    pose proof (@CharFacts.process_text_printable C text r Hr) as Hp.
    eapply Forall_impl; [|exact Hp]. intros t [Htitle Hbullets]. split.
    + now apply RunFacts.printable_markup_free.
    + eapply Forall_impl; [|exact Hbullets].
      intros b Hb. now apply RunFacts.printable_markup_free.
  - intros HB Hone.
    assert (Hcase : sentences = [] \/ sentences <> []).
    { destruct sentences; [now left|right; discriminate]. }
    destruct Hcase as [Es|Hne].
    + unfold TextProcessor.process_text. fold sentences. rewrite Es. eauto.
    + destruct (@ProcessFacts.process_text_ok C text HB Hone Hne)
        as (clusters & made & _ & _ & Hr).
      eexists. exact Hr.
Qed.

(** The three-sentence example, with the default theme. *)
Lemma decks_and_slide_count_witness :
  let C := Demo.stub in
  let R := Decks.stub_reportlab in
  let text :=
    Py.lit "Revenue grew sharply. Costs also grew. Profit margins held." in
  exists (r : TextProcessor.processed) written outputs,
    TextProcessor.process_text text = Py.Ok r
    /\ Slides.generate_all Slides._get_default_theme
         (fun name => Py.lit "output/" ++ name)
         (Py.lit "November 03, 2026") (Py.lit "20261103_120000")
         (Slides.of_processed r) (Py.lit "slides")
       = (written, Slides.Returned outputs)
    /\ Forall (fun f => Decks.slide_total (snd f)
                        = length (TextProcessor.topics r) + 2) written
    /\ TextProcessor.slide_count r = length (TextProcessor.topics r) + 2.
Proof.
  intros C R text.
  destruct (@decks_and_slide_count C R text Slides._get_default_theme
              (fun name => Py.lit "output/" ++ name)
              (Py.lit "November 03, 2026") (Py.lit "20261103_120000")
              (Py.lit "slides")) as (Hall & _ & Hex).
  destruct (Hex DemoFacts.stub_behaves ltac:(vm_compute; reflexivity))
    as [r Hr].
  destruct (Hall r (Py.lit "#1a1a1a") (Py.lit "#333333") Hr
                 eq_refl eq_refl eq_refl DeckFacts.stub_accepts_plain
                 eq_refl)
    as (written & outputs & Hg & _ & _ & Hf & Hne & _).
  exists r, written, outputs. split; [exact Hr|]. split; [exact Hg|].
  split; [exact Hf|]. apply Hne. vm_compute. discriminate.
Defined.

(* ===================================================================== *)
(** * The blank lines between the screenshots *)
(* ===================================================================== *)

Module BoundaryFacts.
Import Py TextProcessor.

Lemma sub_space_runs_cons r c rest :
  Re.sub_space_runs r (c :: rest) =
  if isspace c then
    if r then Re.sub_space_runs true rest
    else 32%N :: Re.sub_space_runs true rest
  else c :: Re.sub_space_runs false rest.
Proof. reflexivity. Qed.

(** What follows a text is rewritten on its own, from the state in which
    the text leaves the substitution. *)
Lemma sub_space_runs_app a : forall r,
  exists state, forall b,
    Re.sub_space_runs r (a ++ b)
    = Re.sub_space_runs r a ++ Re.sub_space_runs state b.
Proof.
  induction a as [|c a IH]; intros r.
  - exists r. reflexivity.
  - destruct (isspace c) eqn:E.
    + destruct (IH true) as [state H]. exists state. intros b.
      rewrite <- app_comm_cons, !sub_space_runs_cons, E, H.
      now destruct r.
    + destruct (IH false) as [state H]. exists state. intros b.
      rewrite <- app_comm_cons, !sub_space_runs_cons, E, H. reflexivity.
Qed.

(** Joined by blank lines or by single spaces, the texts are cleaned to
    the same. *)
Lemma sub_space_runs_join ts : forall r,
  Re.sub_space_runs r (join [10%N; 10%N] ts)
  = Re.sub_space_runs r (join [32%N] ts).
Proof.
  induction ts as [|t ts IH]; intros r; [reflexivity|].
  destruct ts as [|t2 ts']; [reflexivity|].
  change (join [10%N; 10%N] (t :: t2 :: ts'))
    with (t ++ 10%N :: 10%N :: join [10%N; 10%N] (t2 :: ts')).
  change (join [32%N] (t :: t2 :: ts'))
    with (t ++ 32%N :: join [32%N] (t2 :: ts')).
  destruct (sub_space_runs_app t r) as [state H]. rewrite !H. f_equal.
  rewrite !sub_space_runs_cons.
  change (isspace 10%N) with true. change (isspace 32%N) with true.
  cbv iota. rewrite IH. now destruct state.
Qed.

End BoundaryFacts.

(** The blank line that [get_combined_text] puts between the texts of two
    screenshots is no boundary for the text processor: the combined text
    is cleaned to the same string, and processed to the same result, as
    the texts joined by single spaces; so a sentence that is not closed
    at the end of one screenshot runs on into the next. *)
Theorem screenshot_boundaries {B : OCR.Backend} {C : Collaborators}
        (results : list OCR.extraction) :
  let texts :=
    map OCR.text
        (filter (fun r => match OCR.text r with [] => false | _ => true end)
                results) in
  TextProcessor.clean_text (OCR.get_combined_text results)
  = TextProcessor.clean_text (Py.join (Py.lit " ") texts)
  /\ TextProcessor.process_text (OCR.get_combined_text results)
     = TextProcessor.process_text (Py.join (Py.lit " ") texts).
Proof.
  intros texts.
  assert (H : TextProcessor.clean_text (OCR.get_combined_text results)
              = TextProcessor.clean_text (Py.join (Py.lit " ") texts)).
  { unfold TextProcessor.clean_text, OCR.get_combined_text. fold texts.
    cbv zeta. f_equal. f_equal. apply BoundaryFacts.sub_space_runs_join. }
  split; [exact H|].
  unfold TextProcessor.process_text. cbv zeta. now rewrite H.
Qed.

(* ===================================================================== *)
(** * Finding Tesseract *)
(* ===================================================================== *)

Module SetupFacts.
Import Py OCR Setup.

Section OnHost.
Context {H : Host}.

Lemma first_existing_none paths :
  first_existing paths = None
  <-> forallb (fun p => negb (path_exists p)) paths = true.
Proof.
  induction paths as [|p paths IH]; simpl; [tauto|].
  destruct (path_exists p); simpl; [split; discriminate|exact IH].
Qed.

Lemma first_existing_some paths p :
  first_existing paths = Some p -> In p paths /\ path_exists p = true.
Proof.
  induction paths as [|q paths IH]; simpl; [discriminate|].
  destruct (path_exists q) eqn:E.
  - intros Hq. injection Hq as <-. auto.
  - intros Hp. destruct (IH Hp). auto.
Qed.

Lemma common_paths_nonempty p : In p common_paths -> p <> [].
Proof.
  unfold common_paths.
  destruct (str_eqb system (lit "Windows"));
    [|destruct (str_eqb system (lit "Darwin"))];
    simpl; intros Hin; intuition (subst; discriminate).
Qed.

Lemma truthy_some x : truthy x = true -> exists c cmd, x = Some (c :: cmd).
Proof.
  destruct x as [[|c cmd]|]; try discriminate. eauto.
Qed.

Lemma detect_some p :
  detect_tesseract_path = Some p ->
  p <> [] /\ (which_tesseract = Some p
              \/ (In p common_paths /\ path_exists p = true)).
Proof.
  unfold detect_tesseract_path. destruct (truthy which_tesseract) eqn:E.
  - destruct (truthy_some _ E) as (c & cmd & Hw). rewrite Hw.
    intros Hp. injection Hp as <-. split; [discriminate|now left].
  - intros Hp. apply first_existing_some in Hp. split; [|now right].
    now apply common_paths_nonempty.
Qed.

Lemma truthy_detect :
  truthy TESSERACT_CMD = true <-> exists p, detect_tesseract_path = Some p.
Proof.
  unfold TESSERACT_CMD. split.
  - intros Ht. destruct (truthy_some _ Ht) as (c & cmd & ->). eauto.
  - intros [p Hp]. rewrite Hp. destruct (detect_some Hp) as [Hne _].
    destruct p; [congruence|reflexivity].
Qed.

Lemma tesseract_cmd_detected p :
  detect_tesseract_path = Some p -> tesseract_cmd = p.
Proof.
  intros Hp. unfold tesseract_cmd, TESSERACT_CMD. rewrite Hp.
  destruct (detect_some Hp) as [Hne _]. destruct p; [congruence|reflexivity].
Qed.

End OnHost.
End SetupFacts.

(** [detect_tesseract_path] returns [None] exactly when Tesseract is not
    on the search path and none of the common paths of the platform
    exists; a path it returns is not empty and is the one on the search
    path or a common path that exists.  [check_tesseract_installation]
    reports success exactly when a path was detected and pytesseract gets
    a version from it, and then [OCREngine._check_tesseract] does not
    raise. *)
Theorem tesseract_setup {H : Setup.Host} :
  (Setup.detect_tesseract_path = None
   <-> Setup.truthy Setup.which_tesseract = false
       /\ forallb (fun p => negb (Setup.path_exists p)) Setup.common_paths
          = true)
  /\ (forall p,
         Setup.detect_tesseract_path = Some p ->
         p <> []
         /\ (Setup.which_tesseract = Some p
             \/ (In p Setup.common_paths /\ Setup.path_exists p = true)))
  /\ (fst Setup.check_tesseract_installation = true
      <-> exists p version,
            Setup.detect_tesseract_path = Some p
            /\ Setup.get_tesseract_version p = OCR.Done version)
  /\ (fst Setup.check_tesseract_installation = true ->
      Setup._check_tesseract = OCR.Done tt).
Proof.
  split; [|split; [exact SetupFacts.detect_some|]].
  - unfold Setup.detect_tesseract_path.
    destruct (Setup.truthy Setup.which_tesseract) eqn:E.
    + destruct (SetupFacts.truthy_some _ E) as (c & cmd & ->).
      split; [discriminate|intros [Hf _]; discriminate].
    + rewrite SetupFacts.first_existing_none. tauto.
  - assert (Hcheck :
      fst Setup.check_tesseract_installation = true
      <-> exists p version,
            Setup.detect_tesseract_path = Some p
            /\ Setup.get_tesseract_version p = OCR.Done version).
    { unfold Setup.check_tesseract_installation.
      destruct (Setup.truthy Setup.TESSERACT_CMD) eqn:E; cbn [negb].
      - apply SetupFacts.truthy_detect in E. destruct E as [p Hp].
        rewrite (SetupFacts.tesseract_cmd_detected Hp).
        destruct (Setup.get_tesseract_version p) as [v|e] eqn:Ev; cbn [fst].
        + split; [intros _; now exists p, v|reflexivity].
        + split; [discriminate|].
          intros (q & v & Hq & Hv). rewrite Hp in Hq. injection Hq as <-.
          rewrite Ev in Hv. discriminate.
      - cbn [fst]. split; [discriminate|].
        intros (p & v & Hp & _).
        assert (Ht : Setup.truthy Setup.TESSERACT_CMD = true)
          by (apply SetupFacts.truthy_detect; now exists p).
        rewrite E in Ht. discriminate. }
    split; [exact Hcheck|].
    intros Hok. apply Hcheck in Hok. destruct Hok as (p & v & Hp & Hv).
    unfold Setup._check_tesseract.
    now rewrite (SetupFacts.tesseract_cmd_detected Hp), Hv.
Qed.

(** On the Linux machine of the example the check succeeds, so the engine
    can be made. *)
Lemma tesseract_setup_witness :
  Setup._check_tesseract (H := Setup.linux_host) = OCR.Done tt.
Proof.
  exact (proj2 (proj2 (proj2 (@tesseract_setup Setup.linux_host))) eq_refl).
Defined.
